(** * Spectral_Denoising_FrontEnd: the pipeline adapter, the GUI controller
      and the plotting guard, embedded in Rocq.

    The Python sources are [pipeline.py], [app.py] and
    [spectral_denoising/spectra_plotter.py].  DataFrames are objects on a
    heap (they are mutated in place and shared between the GUI and the
    pipeline); functions that can raise return a [res]; the GUI state is
    threaded explicitly through a small state-and-exception monad.  Text
    is Unicode in Python: [str.lower()] and [str.strip()] are taken from a
    [Runtime], of which only what holds of every Python is assumed, and
    the statements are proved for every runtime. *)

From Stdlib Require Import ZArith QArith Ascii String Sorted.
From stdpp Require Import base option list gmap strings pretty.

Local Open Scope Z_scope.

(* ===================================================================== *)
(** * Python values, exceptions and results *)
(* ===================================================================== *)

(** The cell values a spectral library table holds: [None], the float
    [nan], a [str], any other scalar that is neither missing nor a [str]
    (an [int], a finite [float], a [bool], a tuple, ...), and a list,
    numpy array or other array-like of two or more elements (a peak
    array); the last two are kept through their [str()] text.  Lists and
    arrays of fewer than two elements are left out: what [pd.isna] makes
    of an empty one depends on the numpy version. *)
Inductive pyval :=
  | PNone
  | PNaN
  | PStr (s : string)
  | PObj (text : string)
  | PArray (text : string).

#[global] Instance pyval_eq_dec : EqDecision pyval.
Proof. solve_decision. Defined.

(** Whether a cell counts as missing, as [Series.isna()] and
    [Series.notna()] see it: a list or array in a cell is a value. *)
Definition isna (v : pyval) : bool :=
  match v with PNone | PNaN => true | _ => false end.

(** Whether [pd.isna(v)] answers element by element: [v] is a list, a
    numpy array or another array-like. *)
Definition is_array (v : pyval) : bool :=
  match v with PArray _ => true | _ => false end.

(** [isinstance(v, str)]. *)
Definition isinstance_str (v : pyval) : bool :=
  match v with PStr _ => true | _ => false end.

(** [str(v)]. *)
Definition py_str (v : pyval) : string :=
  match v with
  | PNone => "None"
  | PNaN => "nan"
  | PStr s => s
  | PObj text => text
  | PArray text => text
  end.

(** Exception classes.  [KeyboardInterrupt], [SystemExit] and
    [GeneratorExit] derive from [BaseException] only; every other class
    derives from [Exception]. *)
Inductive exn_class :=
  | KeyError | ValueError | IndexError | TypeError | AttributeError
  | SystemError
  | OtherException (name : string)
  | KeyboardInterrupt | SystemExit | GeneratorExit.

Record exn := Exn { exn_cls : exn_class; exn_msg : string }.

(** [isinstance(e, Exception)], the test of [except Exception as e]. *)
Definition is_Exception (e : exn) : bool :=
  match exn_cls e with
  | KeyboardInterrupt | SystemExit | GeneratorExit => false
  | _ => true
  end.

Inductive res (A : Type) :=
  | Ok (a : A)
  | Raise (e : exn).
Arguments Ok {A} a.
Arguments Raise {A} e.

(** State-and-exception monad: a raise keeps the state reached so far. *)
Definition M (S A : Type) : Type := S → res A * S.

#[global] Instance M_ret {S} : MRet (M S) := λ A a s, (Ok a, s).
#[global] Instance M_bind {S} : MBind (M S) := λ A B k m s,
  match m s with
  | (Ok a, s') => k a s'
  | (Raise e, s') => (Raise e, s')
  end.

Definition raise {S A} (e : exn) : M S A := λ s, (Raise e, s).
Definition get {S} : M S S := λ s, (Ok s, s).
Definition modify {S} (f : S → S) : M S unit := λ s, (Ok tt, f s).
Definition lift_res {S A} (r : res A) : M S A := λ s, (r, s).

(** [res] is the exception monad. *)
#[global] Instance res_ret : MRet res := λ A a, Ok a.
#[global] Instance res_bind : MBind res := λ A B k r,
  match r with
  | Ok a => k a
  | Raise e => Raise e
  end.

(** [if pd.isna(v): ...]: on a list or array [pd.isna] answers with an
    array of booleans, and taking the truth value of an array of two or
    more elements raises. *)
Definition ambiguous_truth_value : exn :=
  Exn ValueError "The truth value of an array with more than one element is ambiguous. Use a.any() or a.all()".

Definition isna_test (v : pyval) : res bool :=
  match v with
  | PArray _ => Raise ambiguous_truth_value
  | _ => Ok (isna v)
  end.

(** [try: body except Exception as e: handler(e)]: only instances of
    [Exception] reach the handler, anything else propagates. *)
Definition try_except {S A} (body : M S A) (handler : exn → M S A) : M S A :=
  λ s, match body s with
       | (Ok a, s') => (Ok a, s')
       | (Raise e, s') => if is_Exception e then handler e s' else (Raise e, s')
       end.

(* ===================================================================== *)
(** * Strings *)
(* ===================================================================== *)

(** Text is kept as the bytes of its UTF-8 encoding.  A text is ASCII when
    every byte is below 128; on such text a byte is a character. *)
Definition ascii_char (c : ascii) : bool := (nat_of_ascii c <? 128)%nat.

Fixpoint ascii_only (s : string) : bool :=
  match s with
  | EmptyString => true
  | String c s' => ascii_char c && ascii_only s'
  end.

(** What [str.lower()] does on ASCII text: [A]..[Z] go to [a]..[z], every
    other character is kept. *)
Definition ascii_lower_char (c : ascii) : ascii :=
  let n := nat_of_ascii c in
  if ((65 <=? n) && (n <=? 90))%nat then ascii_of_nat (n + 32) else c.

Fixpoint ascii_lower (s : string) : string :=
  match s with
  | EmptyString => EmptyString
  | String c s' => String (ascii_lower_char c) (ascii_lower s')
  end.

(** The white space of ASCII text for [str.strip()]: tab, line feed,
    vertical tab, form feed, carriage return, the four separators
    [\x1c]..[\x1f] and the blank. *)
Definition is_space (c : ascii) : bool :=
  let n := nat_of_ascii c in
  ((9 <=? n) && (n <=? 13) || (28 <=? n) && (n <=? 32))%nat.

Fixpoint dropwhile {A} (p : A → bool) (l : list A) : list A :=
  match l with
  | [] => []
  | x :: l' => if p x then dropwhile p l' else l
  end.

Fixpoint takewhile {A} (p : A → bool) (l : list A) : list A :=
  match l with
  | [] => []
  | x :: l' => if p x then x :: takewhile p l' else []
  end.

(** What [str.strip()] does on ASCII text. *)
Definition ascii_strip (l : list ascii) : list ascii :=
  reverse (dropwhile is_space (reverse (dropwhile is_space l))).

(** The Python runtime and pandas, as far as the code relies on them
    beyond ASCII text and uniquely labelled columns.  [str.lower()] and
    [str.strip()] follow the Unicode tables.  Of [lower] only this is
    kept: lower-casing twice is lower-casing once, and on ASCII text it is
    [ascii_lower].  Of [strip] only this is kept: it cuts a piece out of
    the text, and that piece has nothing left to strip.
    [assign_duplicated n values] stands for pandas' assignment
    [df[key] = values] when [key] labels as many columns ([2] or more) as
    [values] has elements: pandas then assigns [values[i]] to the [i]-th of
    these columns ([DataFrame._iset_not_inplace]), which depends on what
    the values are; it yields the new cells of these columns, for a table
    of [n] rows, or raises. *)
Class Runtime := {
  lower : string → string;
  strip : list ascii → list ascii;
  assign_duplicated : nat → list pyval → res (list (list pyval));
  lower_idempotent : ∀ s, lower (lower s) = lower s;
  lower_on_ascii : ∀ s, ascii_only s = true → lower s = ascii_lower s;
  strip_segment : ∀ s, ∃ l r, s = l ++ strip s ++ r;
  strip_idempotent : ∀ s, strip (strip s) = strip s;
}.

(** [sep.join(l)]. *)
Fixpoint join (sep : string) (l : list string) : string :=
  match l with
  | [] => EmptyString
  | [x] => x
  | x :: l' => x +:+ sep +:+ join sep l'
  end.

(* ===================================================================== *)
(** * DataFrames *)
(* ===================================================================== *)

(** A DataFrame: the row labels of its index and its columns in order, each
    a label with one cell per row.  Labels may repeat, as in pandas. *)
Record frame := Frame {
  frame_index : list Z;
  frame_data : list (string * list pyval);
}.

#[global] Instance frame_eq_dec : EqDecision frame.
Proof. solve_decision. Defined.

(** [df.columns] *)
Definition columns (f : frame) : list string := (frame_data f).*1.

(** [len(df)] *)
Definition nrows (f : frame) : nat := length (frame_index f).

(** What [df[name]] evaluates to: a Series when one column carries the
    label, a DataFrame of all of them when several do. *)
Inductive selection :=
  | Series (idx : list Z) (vals : list pyval)
  | SubFrame (sub : frame).

Definition labelled (name : string) (f : frame) : list (string * list pyval) :=
  filter (λ c, c.1 = name) (frame_data f).

Definition select (f : frame) (name : string) : selection :=
  match labelled name f with
  | [c] => Series (frame_index f) c.2
  | cs => SubFrame (Frame (frame_index f) cs)
  end.

(** [df[name]]; [KeyError] when no column carries the label. *)
Definition getitem (f : frame) (name : string) : res selection :=
  if decide (name ∈ columns f) then Ok (select f name)
  else Raise (Exn KeyError ("'" +:+ name +:+ "'")).

(** [df.columns = names]; pandas refuses a list of another length. *)
Definition set_columns (f : frame) (names : list string) : res frame :=
  if decide (length names = length (frame_data f))
  then Ok (Frame (frame_index f) (zip names (frame_data f).*2))
  else Raise (Exn ValueError
         ("Length mismatch: Expected axis has " +:+ pretty (length (frame_data f)) +:+
          " elements, new values have " +:+ pretty (length names) +:+ " elements")).

(** The columns labelled [name] take their cells from [new], in order. *)
Fixpoint replace_labelled (name : string) (new : list (list pyval))
    (data : list (string * list pyval)) : list (string * list pyval) :=
  match data with
  | [] => []
  | c :: data' =>
      if decide (c.1 = name) then
        match new with
        | cells :: new' => (c.1, cells) :: replace_labelled name new' data'
        | [] => c :: data'
        end
      else c :: replace_labelled name new data'
  end.

(** [df[name] = values] for a list of values ([DataFrame.__setitem__]).
    When the label is duplicated and [values] has as many elements as
    columns carry it, the elements go to these columns one by one.
    Otherwise a list of another length than the index is refused, a new
    column is appended when no column carries the label, and the list
    becomes the cells of every column that does. *)
Definition setitem `{!Runtime} (f : frame) (name : string) (values : list pyval) : res frame :=
  let k := length (labelled name f) in
  if decide (2 ≤ k ∧ k = length values)%nat then
    cells ← assign_duplicated (nrows f) values;
    Ok (Frame (frame_index f) (replace_labelled name cells (frame_data f)))
  else if decide (length values = nrows f) then
    if decide (name ∈ columns f)
    then Ok (Frame (frame_index f)
               ((λ c, if decide (c.1 = name) then (c.1, values) else c) <$> frame_data f))
    else Ok (Frame (frame_index f) (frame_data f ++ [(name, values)]))
  else Raise (Exn ValueError
         ("Length of values (" +:+ pretty (length values) +:+
          ") does not match length of index (" +:+ pretty (nrows f) +:+ ")")).

(** The heap of DataFrame objects. *)
Definition loc := positive.
Abbreviation heap := (gmap loc frame).

(** A reference to an object that is not on the heap cannot arise in
    Python; the model answers it with a [SystemError]. *)
Definition deref (l : loc) : M heap frame :=
  λ h, match h !! l with
       | Some f => (Ok f, h)
       | None => (Raise (Exn SystemError "dangling reference"), h)
       end.

Definition store (l : loc) (f : frame) : M heap unit :=
  λ h, (Ok tt, <[l := f]> h).

(** A new object, at an address no live object has. *)
Definition alloc (f : frame) : M heap loc :=
  λ h, let l := fresh (dom h) in (Ok l, <[l := f]> h).

(** [df.copy()] *)
Definition copy (l : loc) : M heap loc :=
  f ← deref l; alloc f.

(* ===================================================================== *)
(** * pipeline.py *)
(* ===================================================================== *)

(** The external batch denoiser,
    [spectral_denoising_batch(msms, smiles, adducts, mass_tolerance)]. *)
Definition batch_denoiser : Type :=
  selection → selection → selection → Q → res (list pyval).

Section Pipeline.
Context {RT : Runtime}.
Variable spectral_denoising_batch : batch_denoiser.

Definition denoising_pipeline (input_df : loc) (mass_error : Q) : M heap loc :=
  f ← deref input_df;
  f ← lift_res (set_columns f (lower <$> columns f));
  store input_df f;;
  peaks ← lift_res (getitem f "peaks");
  smiles ← lift_res (getitem f "smiles");
  adducts ← lift_res (getitem f "adducts");
  denoised_peaks ← lift_res (spectral_denoising_batch peaks smiles adducts mass_error);
  output_df ← copy input_df;
  g ← deref output_df;
  g ← lift_res (setitem g "denoised_peaks" denoised_peaks);
  store output_df g;;
  mret output_df.
End Pipeline.

(** [df] with every label sent through [g], cells untouched. *)
Definition relabel (g : string → string) (f : frame) : frame :=
  Frame (frame_index f) (prod_map g id <$> frame_data f).

(** [df] with [values] as the cells of every column labelled [name]. *)
Definition overwrite (name : string) (values : list pyval) (f : frame) : frame :=
  Frame (frame_index f)
    ((λ c, if decide (c.1 = name) then (c.1, values) else c) <$> frame_data f).

(** [df] with one more column after the existing ones. *)
Definition append_column (name : string) (values : list pyval) (f : frame) : frame :=
  Frame (frame_index f) (frame_data f ++ [(name, values)]).


(* ===================================================================== *)
(** * app.py: the GUI state and the outside world *)
(* ===================================================================== *)

Definition nl : string := String "010" EmptyString.

(** [s.endswith(suffix)] *)
Definition endswith (s suffix : string) : bool :=
  String.prefix (String.rev suffix) (String.rev s).

(** A message box that was shown, with the user's answer for a question. *)
Inductive dialog :=
  | ShowError (title message : string)
  | ShowWarning (title message : string)
  | ShowInfo (title message : string)
  | AskYesNo (title message : string) (answer : bool).

(** What [self.loaded_data] refers to when it is not [None]: a DataFrame on
    the heap, or an object of some other type without a [columns]
    attribute, of which only [len()] is ever asked; it is kept through the
    name of its type and what [len()] answers. *)
Inductive pyobj :=
  | DataFrameRef (l : loc)
  | OtherObject (type_name : string) (len : res nat).

(** What a file reader hands back. *)
Inductive read_result :=
  | ReadFrame (f : frame)
  | ReadOther (type_name : string) (len : res nat).

(** The thread targets of the application. *)
Inductive thread_target := ProcessDataThread.

(** The controller's attributes ([self.*]), the visible widgets (log pane,
    progress bar), the message boxes shown so far, the threads started so
    far, the files written so far, and the heap of DataFrames. *)
Record gui := Gui {
  input_file_path : string;
  output_file_path : string;
  file_type : string;
  mass_tolerance : Q;
  loaded_data : option pyobj;
  results : option loc;
  log_text : list string;
  progress_value : Z;
  progress_label : string;
  dialogs : list dialog;
  threads : list thread_target;
  files : list (string * frame);
  objects : gmap loc frame;
}.

Definition set_input_file_path (v : string) (σ : gui) : gui :=
  Gui v (output_file_path σ) (file_type σ) (mass_tolerance σ) (loaded_data
    σ) (results σ) (log_text σ) (progress_value σ) (progress_label σ)
    (dialogs σ) (threads σ) (files σ) (objects σ).

Definition set_output_file_path (v : string) (σ : gui) : gui :=
  Gui (input_file_path σ) v (file_type σ) (mass_tolerance σ) (loaded_data
    σ) (results σ) (log_text σ) (progress_value σ) (progress_label σ)
    (dialogs σ) (threads σ) (files σ) (objects σ).

Definition set_file_type (v : string) (σ : gui) : gui :=
  Gui (input_file_path σ) (output_file_path σ) v (mass_tolerance σ)
    (loaded_data σ) (results σ) (log_text σ) (progress_value σ)
    (progress_label σ) (dialogs σ) (threads σ) (files σ) (objects σ).

Definition set_mass_tolerance (v : Q) (σ : gui) : gui :=
  Gui (input_file_path σ) (output_file_path σ) (file_type σ) v
    (loaded_data σ) (results σ) (log_text σ) (progress_value σ)
    (progress_label σ) (dialogs σ) (threads σ) (files σ) (objects σ).

Definition set_loaded_data (v : option pyobj) (σ : gui) : gui :=
  Gui (input_file_path σ) (output_file_path σ) (file_type σ)
    (mass_tolerance σ) v (results σ) (log_text σ) (progress_value σ)
    (progress_label σ) (dialogs σ) (threads σ) (files σ) (objects σ).

Definition set_results (v : option loc) (σ : gui) : gui :=
  Gui (input_file_path σ) (output_file_path σ) (file_type σ)
    (mass_tolerance σ) (loaded_data σ) v (log_text σ) (progress_value σ)
    (progress_label σ) (dialogs σ) (threads σ) (files σ) (objects σ).

Definition set_log_text (v : list string) (σ : gui) : gui :=
  Gui (input_file_path σ) (output_file_path σ) (file_type σ)
    (mass_tolerance σ) (loaded_data σ) (results σ) v (progress_value σ)
    (progress_label σ) (dialogs σ) (threads σ) (files σ) (objects σ).

Definition set_progress_value (v : Z) (σ : gui) : gui :=
  Gui (input_file_path σ) (output_file_path σ) (file_type σ)
    (mass_tolerance σ) (loaded_data σ) (results σ) (log_text σ) v
    (progress_label σ) (dialogs σ) (threads σ) (files σ) (objects σ).

Definition set_progress_label (v : string) (σ : gui) : gui :=
  Gui (input_file_path σ) (output_file_path σ) (file_type σ)
    (mass_tolerance σ) (loaded_data σ) (results σ) (log_text σ)
    (progress_value σ) v (dialogs σ) (threads σ) (files σ) (objects σ).

Definition set_dialogs (v : list dialog) (σ : gui) : gui :=
  Gui (input_file_path σ) (output_file_path σ) (file_type σ)
    (mass_tolerance σ) (loaded_data σ) (results σ) (log_text σ)
    (progress_value σ) (progress_label σ) v (threads σ) (files σ) (objects
    σ).

Definition set_threads (v : list thread_target) (σ : gui) : gui :=
  Gui (input_file_path σ) (output_file_path σ) (file_type σ)
    (mass_tolerance σ) (loaded_data σ) (results σ) (log_text σ)
    (progress_value σ) (progress_label σ) (dialogs σ) v (files σ) (objects
    σ).

Definition set_files (v : list (string * frame)) (σ : gui) : gui :=
  Gui (input_file_path σ) (output_file_path σ) (file_type σ)
    (mass_tolerance σ) (loaded_data σ) (results σ) (log_text σ)
    (progress_value σ) (progress_label σ) (dialogs σ) (threads σ) v
    (objects σ).

Definition set_objects (v : gmap loc frame) (σ : gui) : gui :=
  Gui (input_file_path σ) (output_file_path σ) (file_type σ)
    (mass_tolerance σ) (loaded_data σ) (results σ) (log_text σ)
    (progress_value σ) (progress_label σ) (dialogs σ) (threads σ) (files
    σ) v.

(** Everything the application imports or asks of its environment: the
    denoising library, RDKit, the file readers and writers, the file
    system, the user in front of a yes/no question, and the rendering of a
    float in an f-string. *)
Record library := Library {
  spectral_denoising_batch : batch_denoiser;
  MolFromSmiles : string → option string;
  read_msp : string → res read_result;
  read_df : string → res read_result;
  save_df : frame → string → res unit;
  write_to_msp : frame → string → string → res unit;
  path_exists : string → bool;
  askyesno : string → string → bool;
  format_float : Q → string;
}.

(* ===================================================================== *)
(** * app.py: SpectralDenoisingGUI *)
(* ===================================================================== *)

(** [self.log_message(message)]: the line is added to the log pane.  The
    Tk calls behind it, and behind the message boxes and the progress bar
    below, are taken to succeed. *)
Definition log_message (message : string) : M gui unit :=
  modify (λ σ, set_log_text (log_text σ ++ [message]) σ).

(** [messagebox.showerror], [showwarning], [showinfo] *)
Definition show (d : dialog) : M gui unit :=
  modify (λ σ, set_dialogs (dialogs σ ++ [d]) σ).

(** A heap operation run on the heap of the GUI state. *)
Definition lift_heap {A} (m : M heap A) : M gui A :=
  λ σ, match m (objects σ) with (r, h) => (r, set_objects h σ) end.

(** ** standardize_columns *)

Definition column_mapping : gmap string string :=
  <["msms" := "peaks"]> (
  <["ms/ms" := "peaks"]> (
  <["peak" := "peaks"]> (
  <["peaks" := "peaks"]> (
  <["spectra" := "peaks"]> (
  <["spectrum" := "peaks"]> (
  <["smile" := "smiles"]> (
  <["smiles" := "smiles"]> (
  <["adduct" := "adducts"]> (
  <["adducts" := "adducts"]> ∅))))))))).

Section Cleaning.
Context {RT : Runtime}.

(** The [for col in df.columns] loop that fills [new_columns]. *)
Fixpoint standardize_loop (cols : list string) (new_columns : gmap string string)
    : M gui (gmap string string) :=
  match cols with
  | [] => mret new_columns
  | col :: cols' =>
      let col_lower := lower col in
      match column_mapping !! col_lower with
      | Some target =>
          log_message ("Mapped column '" +:+ col +:+ "' -> '" +:+ target +:+ "'");;
          standardize_loop cols' (<[col := target]> new_columns)
      | None => standardize_loop cols' new_columns
      end
  end.

(** [df.rename(columns=new_columns)]: a label that is a key is replaced by
    its value, any other label is kept. *)
Definition rename (new_columns : gmap string string) (f : frame) : frame :=
  relabel (λ col, default col (new_columns !! col)) f.

Definition standardize_columns (df : loc) : M gui loc :=
  f ← lift_heap (deref df);
  new_columns ← standardize_loop (columns f) ∅;
  if decide (new_columns = ∅) then
    log_message "No column names needed standardization";;
    mret df
  else
    df ← lift_heap (alloc (rename new_columns f));
    log_message "Column standardization complete";;
    mret df.
End Cleaning.

(** ** extract_smiles_from_comments *)

Definition quote : ascii := "034"%char.

(** What remains of [s] after the literal [lit], when [s] starts with it. *)
Fixpoint after_literal (lit s : list ascii) : option (list ascii) :=
  match lit, s with
  | [], _ => Some s
  | a :: lit', b :: s' => if decide (a = b) then after_literal lit' s' else None
  | _ :: _, [] => None
  end.

(** The group of the pattern, one or more characters other than the double
    quote, matched greedily: the longest run of such characters. *)
Definition group_run (s : list ascii) : list ascii :=
  takewhile (λ c, negb (bool_decide (c = quote))) s.

(** The pattern, the literal [lit] followed by the group, tried at the
    start of [s]; the group on success. *)
Definition match_here (lit s : list ascii) : option (list ascii) :=
  match after_literal lit s with
  | Some rest =>
      match group_run rest with
      | [] => None
      | run => Some run
      end
  | None => None
  end.

(** [re.search(pattern, s).group(1)]: the start positions are tried from
    left to right. *)
Fixpoint re_search (lit s : list ascii) : option (list ascii) :=
  match match_here lit s with
  | Some run => Some run
  | None =>
      match s with
      | [] => None
      | _ :: s' => re_search lit s'
      end
  end.

Section Filling.
Context {RT : Runtime}.

Definition extract_smiles_from_comments (comments_str : pyval) : res pyval :=
  missing ← isna_test comments_str;
  if missing || negb (isinstance_str comments_str) then Ok PNone
  else
    let text := list_ascii_of_string (py_str comments_str) in
    match re_search (list_ascii_of_string "computed SMILES=") text with
    | Some g => Ok (PStr (string_of_list_ascii (strip g)))
    | None =>
        match re_search (list_ascii_of_string "SMILES=") text with
        | Some g => Ok (PStr (string_of_list_ascii (strip g)))
        | None => Ok PNone
        end
    end.

(** ** fill_missing_smiles *)

(** [series.apply(f)]: the cells go through [f] one by one, from the
    first; the first raise ends it. *)
Fixpoint apply_cells (f : pyval → res pyval) (vals : list pyval) : res (list pyval) :=
  match vals with
  | [] => Ok []
  | v :: vals' =>
      w ← f v;
      ws ← apply_cells f vals';
      Ok (w :: ws)
  end.

(** [df['comments'].apply(self.extract_smiles_from_comments)].  On a
    Series the function gets the cells one by one.  When several columns
    carry the label the selection is a DataFrame, whose [apply] hands whole
    columns to the function, and its first test has no truth value for a
    Series: pandas raises [ValueError]. *)
Definition apply_extract (sel : selection) : res (list pyval) :=
  match sel with
  | Series _ vals => apply_cells extract_smiles_from_comments vals
  | SubFrame _ =>
      Raise (Exn ValueError
        "The truth value of a Series is ambiguous. Use a.empty, a.bool(), a.item(), a.any() or a.all().")
  end.

(** [series.notna().sum()] *)
Definition count_notna (vals : list pyval) : nat :=
  length (filter (λ v, isna v = false) vals).

Definition fill_missing_smiles (df : loc) : M gui loc :=
  f ← lift_heap (deref df);
  if decide (("smiles" ∉ columns f) ∧ ("comments" ∈ columns f)) then
    log_message "SMILES column not found, attempting to extract from comments...";;
    comments ← lift_res (getitem f "comments");
    extracted ← lift_res (apply_extract comments);
    f ← lift_res (setitem f "smiles" extracted);
    lift_heap (store df f);;
    let valid_smiles := count_notna extracted in
    let total_rows := nrows f in
    log_message ("Extracted SMILES for " +:+ pretty valid_smiles +:+ "/" +:+
                 pretty total_rows +:+ " entries from comments");;
    (if decide (valid_smiles = 0)%nat
     then log_message "Warning: No SMILES found in comments"
     else mret tt);;
    mret df
  else mret df.
End Filling.

(** ** validate_smiles *)

(** What iterating [df['smiles']] yields: the cells of a Series, but the
    column labels of a DataFrame. *)
Definition iterate (sel : selection) : list pyval :=
  match sel with
  | Series _ vals => vals
  | SubFrame sub => PStr <$> columns sub
  end.

(** [idx[positions]] on an Index: the labels at the positions,
    [IndexError] out of bounds. *)
Fixpoint take_positions (idx : list Z) (positions : list nat) : res (list Z) :=
  match positions with
  | [] => Ok []
  | p :: ps =>
      match idx !! p with
      | None =>
          Raise (Exn IndexError
            ("index " +:+ pretty p +:+ " is out of bounds for axis 0 with size " +:+
             pretty (length idx)))
      | Some lbl =>
          match take_positions idx ps with
          | Ok lbls => Ok (lbl :: lbls)
          | Raise e => Raise e
          end
      end
  end.

(** The elements of [l] whose flag is set. *)
Fixpoint mask {A} (keep : list bool) (l : list A) : list A :=
  match keep, l with
  | k :: keep', x :: l' => if k then x :: mask keep' l' else mask keep' l'
  | _, _ => []
  end.

(** [df.drop(labels)]: every row whose index label is among [labels] goes. *)
Definition drop_rows (f : frame) (labels : list Z) : frame :=
  let keep := (λ lbl, bool_decide (lbl ∉ labels)) <$> frame_index f in
  Frame (mask keep (frame_index f)) (prod_map id (mask keep) <$> frame_data f).

(** [df.reset_index(drop=True)]: the labels become 0, 1, 2, ... *)
Definition reset_index (f : frame) : frame :=
  Frame (Z.of_nat <$> seq 0 (nrows f)) (frame_data f).

Section App.
Context {RT : Runtime}.
Variable lib : library.

(** The [for idx, smiles in enumerate(df['smiles'])] loop: the positions
    and the texts of the invalid entries, in order.  [pd.isna(smiles)] is
    the first thing asked of a cell. *)
Fixpoint validate_loop (idx : nat) (cells : list pyval) : res (list nat * list string) :=
  match cells with
  | [] => Ok ([], [])
  | smiles :: cells' =>
      missing ← isna_test smiles;
      '(invalid_indices, invalid_smiles) ← validate_loop (S idx) cells';
      if (missing : bool) then Ok (idx :: invalid_indices, "(missing)" :: invalid_smiles)
      else
        match MolFromSmiles lib (py_str smiles) with
        | None => Ok (idx :: invalid_indices, py_str smiles :: invalid_smiles)
        | Some _ => Ok (invalid_indices, invalid_smiles)
        end
  end.

Definition example_string (invalid_smiles : list string) : string :=
  let invalid_count := length invalid_smiles in
  let examples := take 5 invalid_smiles in
  let example_str := join ", " ((λ s, "'" +:+ s +:+ "'") <$> examples) in
  if decide (5 < invalid_count)%nat
  then example_str +:+ " ... and " +:+ pretty (invalid_count - 5)%nat +:+ " more"
  else example_str.

(** The text of the question put to the user. *)
Definition invalid_smiles_question (invalid_count total : nat)
    (example_str : string) : string :=
  "Found " +:+ pretty invalid_count +:+ " invalid SMILES out of " +:+
  pretty total +:+ " entries." +:+ nl +:+ nl +:+
  "Examples: " +:+ example_str +:+ nl +:+ nl +:+
  "Do you want to continue anyway?" +:+ nl +:+
  "(Invalid entries will be removed from processing)".

(** Returns [None] (the user declined) or the validated DataFrame. *)
Definition validate_smiles (df : loc) : M gui (option loc) :=
  f ← lift_heap (deref df);
  if decide ("smiles" ∉ columns f) then mret (Some df)
  else
    log_message "Validating SMILES structures...";;
    column ← lift_res (getitem f "smiles");
    '(invalid_indices, invalid_smiles) ← lift_res (validate_loop 0 (iterate column));
    let total := nrows f in
    let invalid_count := length invalid_indices in
    let valid_count := (Z.of_nat total - Z.of_nat invalid_count)%Z in
    log_message ("SMILES validation: " +:+ pretty valid_count +:+ "/" +:+ pretty total
                 +:+ " valid, " +:+ pretty invalid_count +:+ " invalid");;
    if decide (0 < invalid_count)%nat then
      let example_str := example_string invalid_smiles in
      log_message ("Invalid SMILES examples: " +:+ example_str);;
      let title := "Invalid SMILES Detected" in
      let message := invalid_smiles_question invalid_count total example_str in
      let response := askyesno lib title message in
      show (AskYesNo title message response);;
      if negb response then mret None
      else
        labels ← lift_res (take_positions (frame_index f) invalid_indices);
        let g := reset_index (drop_rows f labels) in
        df ← lift_heap (alloc g);
        log_message ("Dropped " +:+ pretty invalid_count +:+ " rows with invalid SMILES");;
        log_message ("Remaining rows: " +:+ pretty (nrows g));;
        mret (Some df)
    else mret (Some df).

(** ** load_file *)

(** [len(self.loaded_data)] *)
Definition len_loaded_data : M gui nat :=
  σ ← get;
  match loaded_data σ with
  | None => raise (Exn TypeError "object of type 'NoneType' has no len()")
  | Some (DataFrameRef l) => f ← lift_heap (deref l); mret (nrows f)
  | Some (OtherObject _ len) => lift_res len
  end.

(** [self.loaded_data = reader(file_path)] *)
Definition read_into_loaded_data (reader : string → res read_result)
    (file_path : string) : M gui unit :=
  r ← lift_res (reader file_path);
  match r with
  | ReadFrame f =>
      l ← lift_heap (alloc f);
      modify (set_loaded_data (Some (DataFrameRef l)))
  | ReadOther type_name len => modify (set_loaded_data (Some (OtherObject type_name len)))
  end.

Definition required_columns : list string := ["peaks"; "smiles"; "adducts"].

(** [[col for col in required_columns if col not in df.columns]] *)
Definition missing_columns (f : frame) : list string :=
  filter (λ col, col ∉ columns f) required_columns.

(** [str(missing_columns)], the rendering of a list of strings *)
Definition list_repr (l : list string) : string :=
  "[" +:+ join ", " ((λ s, "'" +:+ s +:+ "'") <$> l) +:+ "]".

Definition missing_columns_message (f : frame) : string :=
  "Missing required columns: " +:+ join ", " (missing_columns f) +:+ nl +:+ nl +:+
  "Available columns: " +:+ join ", " (columns f) +:+ nl +:+ nl +:+
  "Please select a file with 'peaks', 'smiles', and 'adducts' columns.".

(** The final [messagebox.showinfo("Success", ...)] *)
Definition report_loaded : M gui unit :=
  n ← len_loaded_data;
  show (ShowInfo "Success" ("File loaded!" +:+ nl +:+ " Total spectra loaded: " +:+ pretty n)).

(** The required-columns check and what follows it, on the validated
    DataFrame. *)
Definition check_required_columns (df : loc) : M gui unit :=
  f ← lift_heap (deref df);
  if decide (missing_columns f = []) then
    n ← len_loaded_data;
    log_message ("Total spectra loaded: " +:+ pretty n);;
    report_loaded
  else
    let error_msg := missing_columns_message f in
    log_message ("Validation failed: Missing columns " +:+ list_repr (missing_columns f));;
    modify (set_loaded_data None);;
    show (ShowError "Invalid File Format" error_msg).

(** Reading the file, then standardization, SMILES filling and SMILES
    validation of a DataFrame; yields the validated DataFrame, [None]
    when the user cancelled, and is skipped for anything that is not a
    DataFrame. *)
Inductive prepared :=
  | Validated (df : loc)
  | Cancelled
  | NotADataFrame.

Definition load_and_prepare (file_path : string) : M gui prepared :=
  log_message ("Loading file: " +:+ file_path);;
  σ ← get;
  (if decide (file_type σ = "msp") then
     read_into_loaded_data (read_msp lib) file_path;;
     n ← len_loaded_data;
     log_message ("Successfully loaded MSP file with " +:+ pretty n +:+ " spectra")
   else if decide (file_type σ = "csv") then
     read_into_loaded_data (read_df lib) file_path;;
     n ← len_loaded_data;
     log_message ("Successfully loaded CSV file with " +:+ pretty n +:+ " rows")
   else mret tt);;
  σ ← get;
  match loaded_data σ with
  | Some (DataFrameRef df) =>
      df ← standardize_columns df;
      modify (set_loaded_data (Some (DataFrameRef df)));;
      df ← fill_missing_smiles df;
      modify (set_loaded_data (Some (DataFrameRef df)));;
      r ← validate_smiles df;
      modify (set_loaded_data (DataFrameRef <$> r));;
      match r with
      | None => mret Cancelled
      | Some df => mret (Validated df)
      end
  | _ => mret NotADataFrame
  end.

(** The body of the [try] block. *)
Definition load_file_body (file_path : string) : M gui unit :=
  p ← load_and_prepare file_path;
  match p with
  | Cancelled => log_message "Data loading cancelled by user due to invalid SMILES"
  | Validated df => check_required_columns df
  | NotADataFrame => report_loaded
  end.

Definition load_file : M gui unit :=
  σ ← get;
  let file_path := input_file_path σ in
  if decide (file_path = EmptyString) then
    show (ShowError "Error" "Please select an input file")
  else if negb (path_exists lib file_path) then
    show (ShowError "Error" "File does not exist")
  else
    try_except (load_file_body file_path)
      (λ e, log_message ("Error loading file: " +:+ exn_msg e);;
            show (ShowError "Error" ("Failed to load file:" +:+ nl +:+ exn_msg e))).

(** ** process_data and its background thread *)

(** [threading.Thread(target=...).start()]: the thread is recorded as
    started; nothing keeps a handle on it. *)
Definition start_thread (target : thread_target) : M gui unit :=
  modify (λ σ, set_threads (threads σ ++ [target]) σ).

Definition process_data : M gui unit :=
  σ ← get;
  if decide (loaded_data σ = None) then
    show (ShowError "Error" "Please load a file first")
  else if decide (output_file_path σ = EmptyString) then
    show (ShowWarning "Warning" "No output path specified")
  else start_thread ProcessDataThread.

(** Reading [obj.columns] of an object that has no such attribute. *)
Definition no_columns_attribute (type_name : string) : exn :=
  Exn AttributeError ("'" +:+ type_name +:+ "' object has no attribute 'columns'").

(** [denoising_pipeline(self.loaded_data, mass_tol)]: its first statement
    reads [input_df.columns]. *)
Definition run_pipeline (data : option pyobj) (mass_tol : Q) : M gui loc :=
  match data with
  | Some (DataFrameRef df) =>
      lift_heap (denoising_pipeline (spectral_denoising_batch lib) df mass_tol)
  | Some (OtherObject type_name _) => raise (no_columns_attribute type_name)
  | None => raise (no_columns_attribute "NoneType")
  end.

(** A file written by [save_df] or [write_to_msp]. *)
Definition write_file (writer : frame → string → res unit) (df : loc)
    (output_path : string) : M gui unit :=
  f ← lift_heap (deref df);
  lift_res (writer f output_path);;
  modify (λ σ, set_files (files σ ++ [(output_path, f)]) σ).

Definition process_data_thread_body : M gui unit :=
  modify (set_progress_value 0);;
  modify (set_progress_label "0%");;
  log_message "Starting data processing...";;
  σ ← get;
  let mass_tol := mass_tolerance σ in
  log_message ("Using mass tolerance: " +:+ format_float lib mass_tol);;
  out ← run_pipeline (loaded_data σ) mass_tol;
  modify (set_results (Some out));;
  σ ← get;
  let output_path := output_file_path σ in
  match loaded_data σ with
  | Some (DataFrameRef _) =>
      if endswith output_path ".csv" then
        write_file (save_df lib) out output_path;;
        log_message ("Saved results to: " +:+ output_path)
      else
        write_file (λ f path, write_to_msp lib f path "denoised_peaks") out output_path
  | _ => mret tt
  end;;
  modify (set_progress_value 100);;
  modify (set_progress_label "100%");;
  log_message "Processing completed successfully!";;
  show (ShowInfo "Success" "Data processing completed!").

Definition _process_data_thread : M gui unit :=
  try_except process_data_thread_body
    (λ e, modify (set_progress_value 0);;
          modify (set_progress_label "Error");;
          log_message ("Error during processing: " +:+ exn_msg e);;
          show (ShowError "Error" ("Processing failed:" +:+ nl +:+ exn_msg e))).

Definition clear_all : M gui unit :=
  modify (set_input_file_path EmptyString);;
  modify (set_output_file_path EmptyString);;
  modify (set_loaded_data None);;
  modify (set_log_text []);;
  log_message "Cleared all data".
End App.

(* ===================================================================== *)
(** * spectra_plotter.py: the entry of head_to_tail_plot *)
(* ===================================================================== *)

Module Plotter.

(** The classes whose type objects matter here. *)
Inductive pytype := TFloat | TInt | TStr | TNdarray | TNoneType.

#[global] Instance pytype_eq_dec : EqDecision pytype.
Proof. solve_decision. Defined.

(** The objects a caller can pass for a spectrum or a precursor m/z: data
    (a float, possibly [nan]; an int; a string; an array of peaks;
    [None]) or a type object such as [float] itself. *)
Inductive pyarg :=
  | ArgNone
  | ArgFloat (x : option Q)
  | ArgInt (n : Z)
  | ArgStr (s : string)
  | ArgArray (peaks : list (Q * Q))
  | ArgType (t : pytype).

(** [type(x)] *)
Definition type_of (x : pyarg) : option pytype :=
  match x with
  | ArgNone => Some TNoneType
  | ArgFloat _ => Some TFloat
  | ArgInt _ => Some TInt
  | ArgStr _ => Some TStr
  | ArgArray _ => Some TNdarray
  | ArgType _ => None
  end.

(** [isinstance(x, t)] for the classes above, none of which derives from
    another. *)
Definition isinstance (x : pyarg) (t : pytype) : bool :=
  bool_decide (type_of x = Some t).

(** [x is t] for a type object [t]: object identity.  There is one object
    per class, and no instance of a class is that object. *)
Definition is_type_object (x : pyarg) (t : pytype) : bool :=
  match x with
  | ArgType t' => bool_decide (t' = t)
  | _ => false
  end.

Section HeadToTail.
(** [float(s)] on a string, and the rest of the function (sorting,
    similarity, drawing), which is matplotlib's business. *)
Variable float_of_str : string → res pyarg.
Variable draw : pyarg → pyarg → pyarg → res pyarg.

(** The test [msms1 is float or msms2 is float]. *)
Definition float_guard (msms1 msms2 : pyarg) : bool :=
  is_type_object msms1 TFloat || is_type_object msms2 TFloat.

Definition head_to_tail_plot (msms1 msms2 pmz : pyarg) : res pyarg :=
  match (match pmz with
         | ArgStr s => float_of_str s
         | _ => Ok pmz
         end) with
  | Raise e => Raise e
  | Ok pmz =>
      if float_guard msms1 msms2 then Ok (ArgInt 0)
      else draw msms1 msms2 pmz
  end.
End HeadToTail.

End Plotter.

(* ===================================================================== *)
(** * The tables and notions the statements are written with *)
(* ===================================================================== *)

(** The names that are standardized, grouped by what they become. *)
Definition peaks_names : list string :=
  ["msms"; "ms/ms"; "peak"; "peaks"; "spectra"; "spectrum"].
Definition smiles_names : list string := ["smile"; "smiles"].
Definition adducts_names : list string := ["adduct"; "adducts"].

(** The name a column has after standardization, as the documentation of
    the column mapping puts it. *)
Definition standard_name `{!Runtime} (col : string) : string :=
  if decide (lower col ∈ peaks_names) then "peaks"
  else if decide (lower col ∈ smiles_names) then "smiles"
  else if decide (lower col ∈ adducts_names) then "adducts"
  else col.

(** The columns of a frame that are not labelled [name], in order. *)
Definition other_columns (name : string) (f : frame) : list (string * list pyval) :=
  filter (λ c, c.1 ≠ name) (frame_data f).

(** The cells of a frame, column by column, without the labels. *)
Definition cells (f : frame) : list (list pyval) := (frame_data f).*2.

(** The characters of a Python string. *)
Definition chars (s : string) : list ascii := list_ascii_of_string s.

(** The pattern occurs in [s] right after [before]: the literal [lit],
    then a run of one or more characters other than the double quote that
    cannot be extended (the text ends there or a double quote follows). *)
Definition occurrence (lit s before run rest : list ascii) : Prop :=
  s = before ++ lit ++ run ++ rest ∧
  run ≠ [] ∧
  (quote ∉ run) ∧
  (rest = [] ∨ ∃ rest', rest = quote :: rest').

(** [run] is what the first occurrence of the pattern in [s] captures. *)
Definition first_occurrence (lit s run : list ascii) : Prop :=
  ∃ before rest,
    occurrence lit s before run rest ∧
    ∀ before' run' rest',
      occurrence lit s before' run' rest' → (length before ≤ length before')%nat.


(** A SMILES cell is invalid when it is missing or RDKit does not parse its
    text. *)
Definition invalid_smiles_cell (lib : library) (v : pyval) : bool :=
  isna v || bool_decide (MolFromSmiles lib (py_str v) = None).

(** The rows to keep, position by position, given the smiles cells. *)
Definition valid_rows (lib : library) (smiles : list pyval) : list bool :=
  (λ v, negb (invalid_smiles_cell lib v)) <$> smiles.

(** The frame with exactly the rows at the invalid positions removed, every
    column alike, and the index reset to 0, 1, 2, ... *)
Definition without_invalid_rows (lib : library) (smiles : list pyval) (f : frame) : frame :=
  let keep := valid_rows lib smiles in
  Frame (Z.of_nat <$> seq 0 (length (filter (λ k, k = true) keep)))
        (prod_map id (mask keep) <$> frame_data f).

(** The text the question to the user is built from. *)
Definition invalid_text (v : pyval) : string :=
  if isna v then "(missing)" else py_str v.

(** A computation that, from whatever state it starts and however it ends,
    leaves the state related to the initial one by [R]. *)
Definition within (R : gui → gui → Prop) {A} (m : M gui A) : Prop :=
  ∀ σ, R σ (m σ).2.

(** The message boxes of the second state are those of the first, followed
    by yes/no questions only. *)
Definition only_asks (σ σ' : gui) : Prop :=
  ∃ asks, dialogs σ' = dialogs σ ++ asks ∧
          Forall (λ d, match d with AskYesNo _ _ _ => True | _ => False end) asks.

(** The threads started so far are the same in both states. *)
Definition same_threads (σ σ' : gui) : Prop := threads σ' = threads σ.

(** Relations between states that logging, heap updates, a change of
    [self.loaded_data] and a yes/no question respect. *)
Class Quiet (R : gui → gui → Prop) := {
  quiet_refl : ∀ σ, R σ σ;
  quiet_trans : ∀ σ1 σ2 σ3, R σ1 σ2 → R σ2 σ3 → R σ1 σ3;
  quiet_log : ∀ σ v, R σ (set_log_text v σ);
  quiet_objects : ∀ σ h, R σ (set_objects h σ);
  quiet_loaded : ∀ σ v, R σ (set_loaded_data v σ);
  quiet_ask : ∀ σ t m a, R σ (set_dialogs (dialogs σ ++ [AskYesNo t m a]) σ);
}.

(** Relations that every update of the state except starting a thread
    respects. *)
Class ThreadFree (R : gui → gui → Prop) := {
  thread_free_quiet :: Quiet R;
  thread_free_dialogs : ∀ σ v, R σ (set_dialogs v σ);
  thread_free_results : ∀ σ v, R σ (set_results v σ);
  thread_free_progress_value : ∀ σ v, R σ (set_progress_value v σ);
  thread_free_progress_label : ∀ σ v, R σ (set_progress_label v σ);
  thread_free_files : ∀ σ v, R σ (set_files v σ);
  thread_free_input : ∀ σ v, R σ (set_input_file_path v σ);
  thread_free_output : ∀ σ v, R σ (set_output_file_path v σ);
}.

(* ===================================================================== *)
(** * Concrete tables and a concrete environment, for the examples *)
(* ===================================================================== *)

Module Examples.

(** A denoiser that hands every spectrum back as it is. *)
Definition batch_identity : batch_denoiser :=
  λ peaks _ _ _,
    match peaks with
    | Series _ vals => Ok vals
    | SubFrame _ => Raise (Exn TypeError "unhashable")
    end.

(** A spectral library as read from a file: mixed-case names. *)
Definition library_table : frame :=
  Frame [0; 1]
    [("Name", [PStr "ethanol"; PStr "methane"]);
     ("Peaks", [PArray "[[31.0 100.0]]"; PArray "[[15.0 100.0]]"]);
     ("SMILES", [PStr "CCO"; PStr "C"]);
     ("Adducts", [PStr "[M+H]+"; PStr "[M+H]+"])].

(** A table that was denoised before and saved with its result column. *)
Definition denoised_table : frame :=
  Frame [0; 1]
    [("peaks", [PArray "[[31.0 100.0]]"; PArray "[[15.0 100.0]]"]);
     ("smiles", [PStr "CCO"; PStr "C"]);
     ("adducts", [PStr "[M+H]+"; PStr "[M+H]+"]);
     ("denoised_peaks", [PArray "[[31.0 80.0]]"; PArray "[[15.0 80.0]]"])].

(** Two libraries put one after the other, each keeping its own row
    labels; the second row has no SMILES. *)
Definition concatenated_table : frame :=
  Frame [0; 1; 0; 1]
    [("smiles", [PStr "C"; PNaN; PStr "CCO"; PStr "CC"])].

(** The same rows under distinct labels. *)
Definition numbered_table : frame :=
  Frame [0; 1; 2; 3]
    [("smiles", [PStr "C"; PNaN; PStr "CCO"; PStr "CC"])].

(** A table without adducts. *)
Definition partial_table : frame :=
  Frame [0; 1]
    [("MSMS", [PArray "[[31.0 100.0]]"; PArray "[[15.0 100.0]]"]);
     ("Smile", [PStr "CCO"; PStr "C"])].

(** A table whose SMILES are still inside the comments. *)
Definition commented_table : frame :=
  Frame [0; 1]
    [("peaks", [PArray "[[31.0 100.0]]"; PArray "[[15.0 100.0]]"]);
     ("comments", [PStr "ion=pos computed SMILES=CCO"; PStr "no structure"])].

(** A table whose second comment is a list of remarks. *)
Definition annotated_table : frame :=
  Frame [0; 1]
    [("peaks", [PArray "[[31.0 100.0]]"; PArray "[[15.0 100.0]]"]);
     ("comments", [PStr "SMILES=CCO"; PArray "['checked', 'SMILES=C']"])].

(** An RDKit that knows three molecules. *)
Definition rdkit (s : string) : option string :=
  if decide (s ∈ ["C"; "CC"; "CCO"]) then Some s else None.

(** A file system with two files. *)
Definition reader (path : string) : res read_result :=
  if decide (path = "library.msp") then Ok (ReadFrame library_table)
  else if decide (path = "partial.csv") then Ok (ReadFrame partial_table)
  else Raise (Exn (OtherException "FileNotFoundError") path).

(** A reader during which the user presses Ctrl-C. *)
Definition interrupted_reader (path : string) : res read_result :=
  Raise (Exn KeyboardInterrupt EmptyString).

Definition environment (reader : string → res read_result) (answer : bool)
    : library :=
  Library batch_identity rdkit reader reader
    (λ _ _, Ok tt) (λ _ _ _, Ok tt) (λ _, true) (λ _ _, answer) (λ _, "0.005").

(** A denoiser during which the user presses Ctrl-C. *)
Definition interrupted_batch : batch_denoiser :=
  λ _ _ _ _, Raise (Exn KeyboardInterrupt EmptyString).

Definition interrupted_environment : library :=
  Library interrupted_batch rdkit reader reader
    (λ _ _, Ok tt) (λ _ _ _, Ok tt) (λ _, true) (λ _ _, true) (λ _, "0.005").

(** A controller with the given form fields, loaded data and heap, and
    nothing logged, shown or started yet. *)
Definition session (path ftype output : string) (data : option pyobj)
    (h : gmap loc frame) : gui :=
  Gui path output ftype (5 # 1000) data None [] 0 "0%" [] [] [] h.

End Examples.

(* ===================================================================== *)
(** * Notions for the further properties *)
(* ===================================================================== *)

(** A rectangular table: every column has one cell per index label. *)
Definition rectangular (f : frame) : Prop :=
  Forall (λ c, length c.2 = nrows f) (frame_data f).

(** No file has been written between the two states. *)
Definition same_files (σ σ' : gui) : Prop := files σ' = files σ.

#[global] Instance exn_class_eq_dec : EqDecision exn_class.
Proof. solve_decision. Defined.

#[global] Instance exn_eq_dec : EqDecision exn.
Proof. solve_decision. Defined.

(* ===================================================================== *)
(** * spectra_plotter.py: colours *)
(* ===================================================================== *)

Module Colors.

(** The value of a hexadecimal digit. *)
Definition hex_digit (c : ascii) : option Z :=
  let n := nat_of_ascii c in
  if ((48 <=? n) && (n <=? 57))%nat then Some (Z.of_nat n - 48)
  else if ((97 <=? n) && (n <=? 102))%nat then Some (Z.of_nat n - 87)
  else if ((65 <=? n) && (n <=? 70))%nat then Some (Z.of_nat n - 55)
  else None.

Definition underscore : ascii := "095"%char.

(** The digits of an integer literal in base 16: one or more digits, with
    single underscores between digits only.  [pending] tells that the
    previous character was an underscore. *)
Fixpoint digits16 (acc : Z) (pending : bool) (s : list ascii) : option Z :=
  match s with
  | [] => if pending then None else Some acc
  | c :: s' =>
      if decide (c = underscore) then
        if pending then None else digits16 acc true s'
      else
        match hex_digit c with
        | Some d => digits16 (16 * acc + d) false s'
        | None => None
        end
  end.

(** The part of the literal after the sign: an optional [0x] or [0X]
    prefix, after which one underscore may come, then the digits, which
    have to start with a digit. *)
Definition unsigned16 (s : list ascii) : option Z :=
  let after_prefix :=
    match s with
    | "0"%char :: x :: s' =>
        if decide (x = "x"%char ∨ x = "X"%char)
        then Some (match s' with
                   | c :: s'' => if decide (c = underscore) then s'' else s'
                   | [] => s'
                   end)
        else None
    | _ => None
    end in
  match after_prefix with
  | Some body =>
      match body with
      | [] => None
      | c :: _ => if decide (c = underscore) then None else digits16 0 false body
      end
  | None =>
      match s with
      | [] => None
      | c :: _ => if decide (c = underscore) then None else digits16 0 false s
      end
  end.

(** The lower-case hexadecimal digit of a value below 16. *)
Definition hex_char (d : Z) : ascii :=
  if d <? 10 then ascii_of_nat (Z.to_nat d + 48) else ascii_of_nat (Z.to_nat d + 87).

Definition quotation_mark : ascii := "034"%char.

(** The white space [int()] skips around a literal in ASCII text: tab,
    line feed, vertical tab, form feed, carriage return and the blank. *)
Definition int_space (c : ascii) : bool :=
  let n := nat_of_ascii c in
  ((9 <=? n) && (n <=? 13) || (n =? 32))%nat.

Definition apostrophe : ascii := "039"%char.
Definition backslash : ascii := "092"%char.

(** How [repr()] writes a character of ASCII text between apostrophes. *)
Definition repr_char (c : ascii) : list ascii :=
  let n := nat_of_ascii c in
  if decide (c = backslash) then [backslash; backslash]
  else if decide (c = apostrophe) then [backslash; apostrophe]
  else if (n =? 9)%nat then [backslash; "t"%char]
  else if (n =? 10)%nat then [backslash; "n"%char]
  else if (n =? 13)%nat then [backslash; "r"%char]
  else if ((n <? 32) || (n =? 127))%nat
       then [backslash; "x"%char; hex_char (Z.of_nat (n / 16)); hex_char (Z.of_nat (n mod 16))]
  else [c].

(** [repr(s)] for ASCII text: quotation marks go around a text that holds
    an apostrophe and no quotation mark, apostrophes around any other. *)
Definition repr (s : list ascii) : list ascii :=
  if bool_decide (apostrophe ∈ s) && negb (bool_decide (quotation_mark ∈ s))
  then quotation_mark :: mjoin ((λ c, if decide (c = apostrophe) then [c] else repr_char c) <$> s)
         ++ [quotation_mark]
  else apostrophe :: mjoin (repr_char <$> s) ++ [apostrophe].

(** What [int(s, 16)] raises for a text that is no literal. *)
Definition invalid_literal (s : list ascii) : exn :=
  Exn ValueError
    ("invalid literal for int() with base 16: " +:+ string_of_list_ascii (repr s)).

(** [int(s, 16)] for ASCII text: surrounding white space is dropped, a
    sign may come first; anything else than a literal raises
    [ValueError]. *)
Definition int16 (s : list ascii) : res Z :=
  let invalid := Raise (invalid_literal s) in
  match reverse (dropwhile int_space (reverse (dropwhile int_space s))) with
  | "+"%char :: body =>
      match unsigned16 body with Some n => Ok n | None => invalid end
  | "-"%char :: body =>
      match unsigned16 body with Some n => Ok (- n) | None => invalid end
  | body =>
      match unsigned16 body with Some n => Ok n | None => invalid end
  end.

(** [s[i:j]] for [0 <= i <= j]: slices stop at the end of the string. *)
Definition slice (s : list ascii) (i j : nat) : list ascii :=
  take (j - i) (drop i s).

(** [[int(hex_str[i:i+2], 16) for i in range(1, 6, 2)]] *)
Definition hex_to_RGB (hex_str : list ascii) : res (list Z) :=
  match int16 (slice hex_str 1 3) with
  | Raise e => Raise e
  | Ok r =>
      match int16 (slice hex_str 3 5) with
      | Raise e => Raise e
      | Ok g =>
          match int16 (slice hex_str 5 7) with
          | Raise e => Raise e
          | Ok b => Ok [r; g; b]
          end
      end
  end.

(** The hexadecimal digits of a natural number, most significant first. *)
Fixpoint hex_digits (fuel : nat) (n : Z) (acc : list ascii) : list ascii :=
  match fuel with
  | O => acc
  | S fuel' =>
      if n <? 16 then hex_char n :: acc
      else hex_digits fuel' (n / 16) (hex_char (n mod 16) :: acc)
  end.

Definition hex (n : Z) : list ascii :=
  hex_digits (S (Z.to_nat (Z.log2 n))) n [].

(** [format(v, "02x")] for an int: lower-case hexadecimal, padded with
    zeros to two characters, the sign of a negative number counting as
    one of them. *)
Definition format_02x (v : Z) : list ascii :=
  if v <? 0 then "-"%char :: hex (- v)
  else
    match hex v with
    | [d] => ["0"%char; d]
    | ds => ds
    end.

Section Gradient.
(** [int(round(((1 - x/(n-1)) * (a/255) + (x/(n-1)) * (b/255)) * 255))],
    the channel of the colour at step [x] of [n], computed by numpy in
    floating point. *)
Variable blend : Z → Z → Z → Z → Z.

(** [range(n)] *)
Definition range (n : Z) : list Z := Z.of_nat <$> seq 0 (Z.to_nat n).

Definition get_color_gradient (c1 c2 : list ascii) (n : Z) : res (list (list ascii)) :=
  if decide (n > 1) then
    match hex_to_RGB c1 with
    | Raise e => Raise e
    | Ok c1_rgb =>
        match hex_to_RGB c2 with
        | Raise e => Raise e
        | Ok c2_rgb =>
            Ok ((λ x, "#"%char ::
                      concat (format_02x <$> zip_with (λ a b, blend a b x n) c1_rgb c2_rgb))
                <$> range n)
        end
    end
  else Raise (Exn (OtherException "AssertionError") EmptyString).
End Gradient.

End Colors.

(** Whether a channel value is written as two characters that read back as
    the value. *)
Definition reads_back (v : Z) : bool :=
  match Colors.format_02x v with
  | [a; b] =>
      match Colors.int16 [a; b] with
      | Ok n => n =? v
      | Raise _ => false
      end
  | _ => false
  end.

(** Whether [int(s, 16)] returns a value between -15 and 255 or raises
    the [ValueError] that quotes [s]. *)
Definition channel_in_range (s : list ascii) : bool :=
  match Colors.int16 s with
  | Ok n => (-15 <=? n) && (n <=? 255)
  | Raise e => bool_decide (e = Colors.invalid_literal s)
  end.

(** All characters. *)
Definition all_ascii : list ascii := ascii_of_nat <$> seq 0 256.

(* ===================================================================== *)
(** * spectra_plotter.py: the window of ms2_plot *)
(* ===================================================================== *)

Module Spectrum.

(** A spectrum: its peaks, each an m/z and an intensity.  The values are
    floats other than [nan]; they are only compared here, which is exact. *)
Definition spectrum : Type := list (Q * Q).

(** [a < b] *)
Definition Qlt_bool (a b : Q) : bool := negb (Qle_bool b a).

(** The binary search of [np.searchsorted] between [lo] and [hi]: the
    middle element decides which half is kept.  [fuel] bounds the number
    of halvings. *)
Fixpoint bisect (fuel : nat) (below : Q → bool) (arr : list Q) (lo hi : nat) : nat :=
  match fuel with
  | O => lo
  | S fuel' =>
      if (lo <? hi)%nat then
        let mid := (lo + (hi - lo) / 2)%nat in
        match arr !! mid with
        | Some v =>
            if below v then bisect fuel' below arr (S mid) hi
            else bisect fuel' below arr lo mid
        | None => lo
        end
      else lo
  end.

(** [np.searchsorted(arr, key, side='left')] *)
Definition searchsorted_left (arr : list Q) (key : Q) : nat :=
  bisect (length arr) (λ v, Qlt_bool v key) arr 0 (length arr).

(** [np.searchsorted(arr, key, side='right')] *)
Definition searchsorted_right (arr : list Q) (key : Q) : nat :=
  bisect (length arr) (λ v, Qle_bool v key) arr 0 (length arr).

(** [a[i:j]] *)
Definition slice {A} (a : list A) (i j : nat) : list A := take (j - i) (drop i a).

Section Ms2Plot.
(** [so.truncate_spectrum(msms, pmz - 1.6)], from the spectral operations
    of the denoising library. *)
Variable truncate_below_precursor : spectrum → Q → spectrum.

(** The start of [ms2_plot]: the masses and intensities that are drawn. *)
Definition ms2_plot_window (msms_1 : spectrum) (pmz lower upper : option Q)
    : list Q * list Q :=
  let msms_1 :=
    match pmz with
    | Some p => truncate_below_precursor msms_1 p
    | None => msms_1
    end in
  let mass1 := msms_1.*1 in
  let intensity1 := msms_1.*2 in
  let idx_left :=
    match lower with
    | Some l => searchsorted_left mass1 l
    | None => O
    end in
  let idx_right :=
    match upper with
    | Some u => searchsorted_right mass1 u
    | None => length mass1
    end in
  (slice mass1 idx_left idx_right, slice intensity1 idx_left idx_right).
End Ms2Plot.

(** Whether an m/z lies in the window, bounds included; a bound that is
    not given does not restrict. *)
Definition in_window (lower upper : option Q) (mz : Q) : bool :=
  match lower with Some l => Qle_bool l mz | None => true end &&
  match upper with Some u => Qle_bool mz u | None => true end.

End Spectrum.

(* ===================================================================== *)
(** * More concrete inputs *)
(* ===================================================================== *)

Module MoreExamples.

(** A table with one SMILES that RDKit does not read. *)
Definition mixed_table : frame :=
  Frame [0; 1; 2]
    [("peaks", [PArray "[[31.0 100.0]]"; PArray "[[15.0 100.0]]"; PArray "[[18.0 100.0]]"]);
     ("smiles", [PStr "CCO"; PStr "not a structure"; PStr "C"]);
     ("adducts", [PStr "[M+H]+"; PStr "[M+H]+"; PStr "[M+H]+"])].

Definition reader (path : string) : res read_result :=
  if decide (path = "mixed.csv") then Ok (ReadFrame mixed_table)
  else Examples.reader path.

(** A controller right after start: nothing loaded, no path chosen. *)
Definition fresh_session : gui :=
  Examples.session EmptyString "msp" EmptyString None ∅.

(** A controller with a loaded library and an output path. *)
Definition loaded_session : gui :=
  Examples.session "library.msp" "msp" "out.csv" (Some (DataFrameRef 1%positive))
    {[1%positive := Examples.denoised_table]}.

(** Channels blended in whole numbers, for a gradient of [n] steps. *)
Definition blend (a b x n : Z) : Z := ((n - 1 - x) * a + x * b) / (n - 1).

(** A spectrum in increasing order of m/z. *)
Definition ethanol_spectrum : Spectrum.spectrum :=
  [(15 # 1, 12 # 1); (27 # 1, 22 # 1); (29 # 1, 30 # 1); (31 # 1, 100 # 1);
   (45 # 1, 51 # 1); (46 # 1, 22 # 1)]%Q.

End MoreExamples.
(* ===================================================================== *)
(** * Facts about frames and the heap *)
(* ===================================================================== *)

Lemma zip_fst_snd {A B} (l : list (A * B)) (g : A → A) :
  zip (g <$> l.*1) l.*2 = prod_map g id <$> l.
Proof. induction l as [|[a b] l IH]; csimpl; [done|]. by f_equal. Qed.

Lemma set_columns_map g f :
  set_columns f (g <$> columns f) = Ok (relabel g f).
Proof.
  unfold set_columns, columns, relabel.
  rewrite decide_True by (by rewrite !length_fmap).
  by rewrite zip_fst_snd.
Qed.

Lemma columns_relabel g f : columns (relabel g f) = g <$> columns f.
Proof.
  unfold columns, relabel; simpl.
  rewrite <- !list_fmap_compose. by apply list_fmap_ext; intros ? [??].
Qed.

Lemma nrows_relabel g f : nrows (relabel g f) = nrows f.
Proof. done. Qed.

Lemma getitem_Ok f name :
  name ∈ columns f → getitem f name = Ok (select f name).
Proof. intros H. unfold getitem. by rewrite decide_True. Qed.

Lemma getitem_KeyError f name :
  name ∉ columns f → getitem f name = Raise (Exn KeyError ("'" +:+ name +:+ "'")).
Proof. intros H. unfold getitem. by rewrite decide_False. Qed.

Lemma relabel_ext g1 g2 f :
  (∀ col, col ∈ columns f → g1 col = g2 col) → relabel g1 f = relabel g2 f.
Proof.
  intros H. unfold relabel. f_equal.
  apply list_fmap_ext. intros i [c v] Hi; simpl. f_equal.
  apply H. unfold columns. apply list_elem_of_fmap.
  exists (c, v). split; [done|]. by eapply list_elem_of_lookup_2.
Qed.

Lemma relabel_id f : relabel id f = f.
Proof.
  unfold relabel. destruct f as [idx data]; simpl. f_equal.
  induction data as [|[c v] data IH]; csimpl; [done|]. by f_equal.
Qed.

Lemma cells_relabel g f : cells (relabel g f) = cells f.
Proof.
  unfold cells, relabel; simpl. rewrite <- list_fmap_compose.
  by apply list_fmap_ext; intros ? [??].
Qed.

Lemma labelled_absent name f : name ∉ columns f → labelled name f = [].
Proof.
  unfold labelled, columns. induction (frame_data f) as [|[c v] data IH]; [done|].
  csimpl. rewrite not_elem_of_cons. intros [Hne Hnin].
  rewrite filter_cons_False by (simpl; congruence). by apply IH.
Qed.

Lemma filter_replace_labelled name new (data : list (string * list pyval)) :
  filter (λ c, c.1 ≠ name) (replace_labelled name new data)
  = filter (λ c, c.1 ≠ name) data.
Proof.
  revert new. induction data as [|[c v] data IH]; intros new; [done|]. simpl.
  destruct (decide (c = name)) as [->|Hne].
  - destruct new as [|cells new]; [done|].
    rewrite !filter_cons_False by (simpl; auto). apply IH.
  - rewrite !filter_cons_True by done. by rewrite IH.
Qed.

Lemma fst_replace_labelled name new (data : list (string * list pyval)) :
  (replace_labelled name new data).*1 = data.*1.
Proof.
  revert new. induction data as [|[c v] data IH]; intros new; [done|]. simpl.
  destruct (decide (c = name)) as [->|Hne].
  - destruct new as [|cells new]; [done|]. csimpl. by rewrite IH.
  - csimpl. by rewrite IH.
Qed.

Lemma filter_overwrite_other name values (data : list (string * list pyval)) :
  filter (λ c, c.1 ≠ name)
    ((λ c, if decide (c.1 = name) then (c.1, values) else c) <$> data)
  = filter (λ c, c.1 ≠ name) data.
Proof.
  induction data as [|[c v] data IH]; [done|]. csimpl.
  destruct (decide (c = name)) as [->|Hne].
  - rewrite !filter_cons_False by (simpl; auto). apply IH.
  - rewrite !filter_cons_True by done. by f_equal.
Qed.

Lemma filter_other_all (name : string) (data : list (string * list pyval)) :
  name ∉ data.*1 → filter (λ c, c.1 ≠ name) data = data.
Proof.
  induction data as [|[c v] data IH]; [done|]. csimpl.
  rewrite not_elem_of_cons. intros [Hne Hnin].
  rewrite filter_cons_True by (simpl; auto). f_equal. by apply IH.
Qed.

Lemma columns_overwrite name values f :
  columns (overwrite name values f) = columns f.
Proof.
  unfold columns, overwrite; simpl. rewrite <- list_fmap_compose.
  apply list_fmap_ext. intros ? [c v] _; simpl. by destruct (decide _).
Qed.

Section Assignment.
Context {RT : Runtime}.

(** Outside the case of a duplicated label met by as many values,
    [df[name] = values] sets or appends the column. *)
Lemma setitem_Ok f name values :
  length values = nrows f →
  (length (labelled name f) ≤ 1)%nat →
  setitem f name values =
    Ok (if decide (name ∈ columns f) then overwrite name values f
        else append_column name values f).
Proof.
  intros H Hk. unfold setitem. rewrite decide_False by lia.
  rewrite decide_True by done.
  by destruct (decide (name ∈ columns f)).
Qed.

(** Whatever [df[name] = values] does, it keeps the index and the columns
    under other labels, and the labels stay or [name] is added last. *)
Lemma setitem_frame f name values g :
  setitem f name values = Ok g →
  frame_index g = frame_index f ∧
  other_columns name g = other_columns name f ∧
  (columns g = columns f ∨ columns g = columns f ++ [name]).
Proof.
  unfold setitem, other_columns, columns. intros Hg.
  destruct (decide _) as [Hdup|_].
  - destruct (assign_duplicated _ _) as [new|e]; simpl in Hg; [|done].
    injection Hg as <-. simpl.
    split; [done|]. split; [apply filter_replace_labelled|].
    left. apply fst_replace_labelled.
  - destruct (decide (length values = nrows f)); [|done].
    destruct (decide (name ∈ (frame_data f).*1)) as [Hin|Hnin];
      injection Hg as <-; simpl.
    + split; [done|]. split; [apply filter_overwrite_other|].
      left. apply (columns_overwrite name values f).
    + split; [done|]. split.
      * rewrite filter_app, filter_cons_False by (simpl; auto).
        by rewrite filter_nil, app_nil_r.
      * right. by rewrite fmap_app.
Qed.
End Assignment.

Lemma fresh_loc_not_live (h : gmap loc frame) : h !! fresh (dom h) = None.
Proof. apply not_elem_of_dom, is_fresh. Qed.

(* ===================================================================== *)
(** * denoising_pipeline *)
(* ===================================================================== *)

Section PipelineFacts.
Context {RT : Runtime}.

(** One run of [denoising_pipeline], step by step: the caller's frame is
    relabelled in place first, every later failure leaves it so. *)
Lemma denoising_pipeline_run batch (h : gmap loc frame) l f tol :
  h !! l = Some f →
  let f' := relabel lower f in
  let h1 := <[l := f']> h in
  let out := fresh (dom h1) in
  denoising_pipeline batch l tol h =
    match getitem f' "peaks" with
    | Raise e => (Raise e, h1)
    | Ok p =>
      match getitem f' "smiles" with
      | Raise e => (Raise e, h1)
      | Ok s =>
        match getitem f' "adducts" with
        | Raise e => (Raise e, h1)
        | Ok a =>
          match batch p s a tol with
          | Raise e => (Raise e, h1)
          | Ok v =>
            match setitem f' "denoised_peaks" v with
            | Raise e => (Raise e, <[out := f']> h1)
            | Ok g => (Ok out, <[out := g]> h1)
            end
          end
        end
      end
    end.
Proof.
  intros Hl f' h1 out.
  unfold denoising_pipeline, mbind, M_bind, deref, lift_res, store, copy, alloc,
    mret, M_ret; simpl.
  rewrite Hl, set_columns_map. fold f' h1.
  destruct (getitem f' "peaks") as [p|e]; [|done].
  destruct (getitem f' "smiles") as [s|e]; [|done].
  destruct (getitem f' "adducts") as [a|e]; [|done].
  destruct (batch p s a tol) as [v|e]; [|done].
  unfold mbind, M_bind, deref; simpl.
  assert (h1 !! l = Some f') as -> by apply lookup_insert_eq.
  fold out. rewrite lookup_insert_eq.
  destruct (setitem f' "denoised_peaks" v) as [g|e]; [|done].
  by rewrite insert_insert_eq.
Qed.

(** C9. [denoising_pipeline] is not side-effect free on its argument: for
    every input DataFrame the call leaves the caller's object with the
    lower-cased column names (same index, same cells), whether the call
    returns or raises; and a returned object is a distinct one, at an
    address that held no object before the call, and a copy of the
    caller's frame as the call left it, up to the denoised_peaks column:
    it has the index of the input, every column not named denoised_peaks
    with the lower-cased name and the cells of the input, in the same
    order, and the lower-cased names, with denoised_peaks last if it was
    not among them. *)
Theorem denoising_pipeline_lowercases_caller_frame
    batch (h : gmap loc frame) input_df f mass_error :
  h !! input_df = Some f →
  let r := denoising_pipeline batch input_df mass_error h in
  r.2 !! input_df = Some (relabel lower f) ∧
  columns (relabel lower f) = lower <$> columns f ∧
  cells (relabel lower f) = cells f ∧
  (∀ output_df, r.1 = Ok output_df →
     output_df ≠ input_df ∧ h !! output_df = None ∧
     ∃ g, r.2 !! output_df = Some g ∧
          frame_index g = frame_index f ∧
          other_columns "denoised_peaks" g =
            other_columns "denoised_peaks" (relabel lower f) ∧
          (columns g = lower <$> columns f ∨
           columns g = (lower <$> columns f) ++ ["denoised_peaks"])).
Proof.
  intros Hl r. subst r. rewrite (denoising_pipeline_run batch h input_df f mass_error Hl).
  set (f' := relabel lower f). set (h1 := <[input_df := f']> h).
  set (out := fresh (dom h1)).
  assert (h1 !! out = None) as Hfresh by apply fresh_loc_not_live.
  assert (out ≠ input_df) as Hne.
  { intros ->. unfold h1 in Hfresh. by rewrite lookup_insert_eq in Hfresh. }
  assert (h1 !! input_df = Some f') as Hin by apply lookup_insert_eq.
  split; [|split; [apply columns_relabel|split; [apply cells_relabel|]]].
  - destruct (getitem f' "peaks"); [|done].
    destruct (getitem f' "smiles"); [|done].
    destruct (getitem f' "adducts"); [|done].
    destruct (batch _ _ _ _); [|done].
    destruct (setitem _ _ _); simpl; by rewrite lookup_insert_ne.
  - intros output_df.
    destruct (getitem f' "peaks"); [|done].
    destruct (getitem f' "smiles"); [|done].
    destruct (getitem f' "adducts"); [|done].
    destruct (batch _ _ _ _); [|done].
    destruct (setitem _ _ _) as [g|] eqn:Hg; simpl; [|done].
    intros [= <-]. split; [done|]. split.
    + unfold h1 in Hfresh. by rewrite lookup_insert_ne in Hfresh.
    + exists g. split; [apply lookup_insert_eq|].
      destruct (setitem_frame _ _ _ _ Hg) as (Hidx & Hother & Hcols).
      split; [done|]. split; [done|].
      by rewrite <- (columns_relabel lower f).
Qed.
End PipelineFacts.


(* ===================================================================== *)
(** * standardize_columns *)
(* ===================================================================== *)

Lemma set_objects_same σ : set_objects (objects σ) σ = σ.
Proof. by destruct σ. Qed.

Lemma lift_heap_deref σ l f :
  objects σ !! l = Some f → lift_heap (deref l) σ = (Ok f, σ).
Proof.
  intros H. unfold lift_heap, deref. rewrite H. by rewrite set_objects_same.
Qed.

Lemma column_mapping_lookup s col :
  default col (column_mapping !! s) =
    if decide (s ∈ peaks_names) then "peaks"
    else if decide (s ∈ smiles_names) then "smiles"
    else if decide (s ∈ adducts_names) then "adducts"
    else col.
Proof.
  unfold column_mapping.
  repeat (rewrite lookup_insert; case_decide; [subst s; reflexivity|]).
  rewrite lookup_empty; simpl.
  assert ((s ∉ peaks_names) ∧ (s ∉ smiles_names) ∧ (s ∉ adducts_names)) as (?&?&?).
  { unfold peaks_names, smiles_names, adducts_names.
    rewrite !elem_of_cons, !elem_of_nil. intuition congruence. }
  by rewrite !decide_False.
Qed.

Lemma column_mapping_None s :
  column_mapping !! s = None →
  (s ∉ peaks_names) ∧ (s ∉ smiles_names) ∧ (s ∉ adducts_names).
Proof.
  unfold column_mapping.
  repeat (rewrite lookup_insert; case_decide; [done|]).
  intros _. unfold peaks_names, smiles_names, adducts_names.
  rewrite !elem_of_cons, !elem_of_nil. intuition congruence.
Qed.

Section StandardizeFacts.
Context {RT : Runtime}.

(** The dictionary the loop builds, and that the loop only writes to the
    log. *)
Lemma standardize_loop_run cols : ∀ (m : gmap string string) σ,
  ∃ m' msgs,
    standardize_loop cols m σ = (Ok m', set_log_text (log_text σ ++ msgs) σ) ∧
    ∀ col, m' !! col =
      if decide (col ∈ cols)
      then from_option Some (m !! col) (column_mapping !! lower col)
      else m !! col.
Proof.
  induction cols as [|c cols IH]; intros m σ.
  - exists m, []. split.
    + simpl. unfold mret, M_ret. rewrite app_nil_r. by destruct σ.
    + intros col. rewrite decide_False; [done|]. apply not_elem_of_nil.
  - simpl. destruct (column_mapping !! lower c) as [target|] eqn:Hc.
    + unfold mbind, M_bind, log_message, modify.
      set (σ1 := set_log_text _ σ).
      destruct (IH (<[c := target]> m) σ1) as (m' & msgs & Hrun & Hm').
      exists m'. eexists (_ :: msgs). split.
      * rewrite Hrun. f_equal. subst σ1. destruct σ; simpl.
        unfold set_log_text; simpl. by rewrite <- app_assoc.
      * intros col. rewrite Hm'.
        destruct (decide (col = c)) as [->|Hne].
        -- rewrite (decide_True (P := c ∈ c :: cols)) by apply list_elem_of_here.
           rewrite lookup_insert_eq, Hc; simpl.
           by destruct (decide (c ∈ cols)).
        -- rewrite lookup_insert_ne by done.
           destruct (decide (col ∈ cols)) as [Hin|Hnin].
           ++ rewrite decide_True; [done|]. by apply list_elem_of_further.
           ++ rewrite decide_False; [done|]. rewrite elem_of_cons. by intros [?|?].
    + destruct (IH m σ) as (m' & msgs & Hrun & Hm').
      exists m', msgs. split; [done|].
      intros col. rewrite Hm'.
      destruct (decide (col = c)) as [->|Hne].
      * rewrite (decide_True (P := c ∈ c :: cols)) by apply list_elem_of_here.
        rewrite Hc; simpl. by destruct (decide (c ∈ cols)).
      * destruct (decide (col ∈ cols)) as [Hin|Hnin].
        -- rewrite decide_True; [done|]. by apply list_elem_of_further.
        -- rewrite decide_False; [done|]. rewrite elem_of_cons. by intros [?|?].
Qed.

(** C2. For every DataFrame, [standardize_columns] returns a DataFrame in
    which exactly the columns whose lower-cased name is one of msms, ms/ms,
    peak, peaks, spectra, spectrum are named peaks, those whose lower-cased
    name is smile or smiles are named smiles, those whose lower-cased name
    is adduct or adducts are named adducts, and every other column keeps
    its name; the cells and the index are those of the input, and the
    input object itself is not modified. *)
Theorem standardize_columns_renames_exactly σ df f :
  objects σ !! df = Some f →
  ∃ out σ' g,
    standardize_columns df σ = (Ok out, σ') ∧
    objects σ' !! out = Some g ∧
    columns g = standard_name <$> columns f ∧
    cells g = cells f ∧
    frame_index g = frame_index f ∧
    objects σ' !! df = Some f.
Proof.
  intros Hdf. unfold standardize_columns.
  unfold mbind at 1, M_bind at 1. rewrite (lift_heap_deref _ _ _ Hdf).
  destruct (standardize_loop_run (columns f) ∅ σ) as (m & msgs & Hrun & Hm).
  unfold mbind at 1, M_bind at 1. rewrite Hrun.
  remember (set_log_text (log_text σ ++ msgs) σ) as σ1 eqn:Hσ1.
  assert (objects σ1 = objects σ) as Hobj by (by subst σ1; destruct σ).
  clear Hσ1 Hrun.
  assert (∀ col, col ∈ columns f →
            default col (m !! col) = standard_name col) as Hname.
  { intros col Hin. rewrite Hm, decide_True by done. rewrite lookup_empty.
    unfold standard_name. rewrite <- column_mapping_lookup.
    by destruct (column_mapping !! lower col). }
  destruct (decide (m = ∅)) as [->|Hne].
  - exists df, (set_log_text (log_text σ1 ++ ["No column names needed standardization"]) σ1), f.
    split; [done|]. simpl.
    assert (relabel standard_name f = f) as Hid.
    { rewrite <- (relabel_id f) at 2. apply relabel_ext. intros col Hin.
      rewrite <- Hname by done. by rewrite lookup_empty. }
    split; [by rewrite Hobj|].
    split; [by rewrite <- Hid at 1; rewrite columns_relabel|].
    split; [done|]. split; [done|]. by rewrite Hobj.
  - assert (rename m f = relabel standard_name f) as -> by (by apply relabel_ext).
    remember (relabel standard_name f) as g eqn:Hg.
    exists (fresh (dom (objects σ1))),
      (set_log_text (log_text (set_objects (<[fresh (dom (objects σ1)) := g]> (objects σ1)) σ1)
                       ++ ["Column standardization complete"])
         (set_objects (<[fresh (dom (objects σ1)) := g]> (objects σ1)) σ1)), g.
    split; [done|]. simpl.
    split; [apply lookup_insert_eq|].
    split; [by rewrite Hg, columns_relabel|].
    split; [by rewrite Hg, cells_relabel|].
    split; [by rewrite Hg|].
    rewrite lookup_insert_ne; [by rewrite Hobj|].
    intros Heq. pose proof (fresh_loc_not_live (objects σ1)) as Hf.
    rewrite Heq, Hobj, Hdf in Hf. done.
Qed.
End StandardizeFacts.
(** Decidable facts about concrete tables are settled by evaluation. *)
Ltac by_compute := apply (bool_decide_unpack _); vm_compute; exact I.

Section AsciiLabels.
Context {RT : Runtime}.

(** On tables with ASCII labels lower-casing is the ASCII one. *)
Lemma fmap_lower_ascii (l : list string) :
  forallb ascii_only l = true → lower <$> l = ascii_lower <$> l.
Proof.
  induction l as [|s l IH]; [done|]. cbn [forallb].
  intros [Hs Hl]%andb_prop. rewrite !fmap_cons.
  by rewrite lower_on_ascii, IH.
Qed.

Lemma relabel_lower_ascii f :
  forallb ascii_only (columns f) = true → relabel lower f = relabel ascii_lower f.
Proof.
  intros H. apply relabel_ext. intros col Hin.
  apply lower_on_ascii.
  rewrite forallb_forall in H. apply H. by apply list_elem_of_In.
Qed.

(** C1, as the code has it.  For every input DataFrame whose lower-cased
    column names include peaks, smiles and adducts, at most one of them
    being denoised_peaks, and a batch call that returns one result per
    row, [denoising_pipeline] returns a new DataFrame with the index of
    the input and its columns under their lower-cased names, in which the
    denoised_peaks column holds the result of the batch call on the three
    selected columns: appended as one new column when no lower-cased name
    is denoised_peaks, and otherwise written over the column of that name,
    with no column added.  Every column with another name is unchanged. *)
Theorem denoising_pipeline_sets_denoised_peaks
    batch (h : gmap loc frame) input_df f mass_error v :
  h !! input_df = Some f →
  "peaks" ∈ lower <$> columns f →
  "smiles" ∈ lower <$> columns f →
  "adducts" ∈ lower <$> columns f →
  (length (labelled "denoised_peaks" (relabel lower f)) ≤ 1)%nat →
  batch (select (relabel lower f) "peaks") (select (relabel lower f) "smiles")
        (select (relabel lower f) "adducts") mass_error = Ok v →
  length v = nrows f →
  ∃ output_df h' g,
    denoising_pipeline batch input_df mass_error h = (Ok output_df, h') ∧
    h !! output_df = None ∧
    h' !! output_df = Some g ∧
    frame_index g = frame_index f ∧
    g = (if decide ("denoised_peaks" ∈ lower <$> columns f)
         then overwrite "denoised_peaks" v (relabel lower f)
         else append_column "denoised_peaks" v (relabel lower f)) ∧
    other_columns "denoised_peaks" g =
      other_columns "denoised_peaks" (relabel lower f) ∧
    (∀ c, c ∈ frame_data g → c.1 = "denoised_peaks" → c.2 = v).
Proof.
  intros Hl Hp Hs Ha Hone Hb Hlen.
  rewrite (denoising_pipeline_run batch h input_df f mass_error Hl).
  set (f' := relabel lower f) in *.
  rewrite <- (columns_relabel lower f) in Hp, Hs, Ha. fold f' in Hp, Hs, Ha.
  rewrite !getitem_Ok by done. rewrite Hb.
  rewrite setitem_Ok by done.
  rewrite <- (columns_relabel lower f). fold f'.
  eexists _, _, _. split; [done|].
  split.
  { pose proof (fresh_loc_not_live (<[input_df := f']> h)) as Hfresh.
    destruct (decide (fresh (dom (<[input_df := f']> h)) = input_df)) as [Heq|Hne].
    - rewrite Heq in Hfresh at 1. by rewrite lookup_insert_eq in Hfresh.
    - by rewrite lookup_insert_ne in Hfresh. }
  split; [apply lookup_insert_eq|].
  unfold other_columns.
  destruct (decide ("denoised_peaks" ∈ columns f')) as [Hin|Hnin].
  - split; [done|]. split; [done|]. split.
    + apply filter_overwrite_other.
    + intros c [[c0 v0] [-> Hc0]]%list_elem_of_fmap; simpl.
      destruct (decide (c0 = "denoised_peaks")); simpl; [done|]. congruence.
  - split; [done|]. split; [done|]. split.
    + simpl. rewrite filter_app. rewrite filter_cons_False by (simpl; auto).
      by rewrite filter_nil, app_nil_r.
    + intros c [Hc|Hc]%elem_of_app.
      * intros Heq. exfalso. apply Hnin. unfold columns.
        apply list_elem_of_fmap. by exists c.
      * apply list_elem_of_singleton in Hc. by subst c.
Qed.
End AsciiLabels.

(** C1, as it is worded, fails, whatever the runtime: on a table that
    already has a denoised_peaks column the result is not the input plus
    one added column; the table keeps its four columns and the old
    denoised_peaks cells are lost. *)
Lemma denoising_pipeline_existing_column_replaced :
  ¬ (∃ RT : Runtime,
     ∀ batch (h : gmap loc frame) input_df f mass_error v,
       h !! input_df = Some f →
       "peaks" ∈ lower <$> columns f →
       "smiles" ∈ lower <$> columns f →
       "adducts" ∈ lower <$> columns f →
       batch (select (relabel lower f) "peaks") (select (relabel lower f) "smiles")
             (select (relabel lower f) "adducts") mass_error = Ok v →
       length v = nrows f →
       ∃ output_df h',
         denoising_pipeline batch input_df mass_error h = (Ok output_df, h') ∧
         h' !! output_df =
           Some (append_column "denoised_peaks" v (relabel lower f))).
Proof.
  intros [RT H].
  pose proof (relabel_lower_ascii Examples.denoised_table eq_refl) as Hlow.
  pose proof (fmap_lower_ascii (columns Examples.denoised_table) eq_refl) as Hcols.
  destruct (H Examples.batch_identity {[1%positive := Examples.denoised_table]}
              1%positive Examples.denoised_table (5 # 1000)%Q
              [PArray "[[31.0 100.0]]"; PArray "[[15.0 100.0]]"])
    as (out & h' & Hrun & Hout).
  - done.
  - rewrite Hcols. by_compute.
  - rewrite Hcols. by_compute.
  - rewrite Hcols. by_compute.
  - by rewrite Hlow.
  - done.
  - rewrite (denoising_pipeline_run _ _ _ Examples.denoised_table) in Hrun by done.
    rewrite Hlow in Hrun, Hout.
    vm_compute in Hrun. injection Hrun as <- <-.
    vm_compute in Hout. discriminate Hout.
Qed.

(* ===================================================================== *)
(** * str.strip *)
(* ===================================================================== *)

Lemma dropwhile_split {A} (p : A → bool) (l : list A) :
  ∃ pre, l = pre ++ dropwhile p l ∧ Forall (λ x, p x = true) pre ∧
         (∀ x, head (dropwhile p l) = Some x → p x = false).
Proof.
  induction l as [|a l (pre & Hl & Hpre & Hhd)]; simpl.
  - exists []. split; [done|]. split; [constructor | done].
  - destruct (p a) eqn:Ha.
    + exists (a :: pre). split; [simpl; by f_equal|]. split; [by constructor | done].
    + exists []. split; [done|]. split; [constructor|].
      intros x [= <-]. done.
Qed.

Lemma dropwhile_head_false {A} (p : A → bool) (l : list A) :
  (∀ x, head l = Some x → p x = false) → dropwhile p l = l.
Proof.
  destruct l as [|a l]; [done|]. intros H. simpl. by rewrite (H a).
Qed.

(** On ASCII text stripping removes white space from both ends and nothing
    else: what is left neither starts nor ends with white space. *)
Lemma ascii_strip_spec s :
  ∃ l r, s = l ++ ascii_strip s ++ r ∧
    Forall (λ c, is_space c = true) l ∧ Forall (λ c, is_space c = true) r ∧
    (∀ c, head (ascii_strip s) = Some c → is_space c = false) ∧
    (∀ c, last (ascii_strip s) = Some c → is_space c = false).
Proof.
  unfold ascii_strip.
  destruct (dropwhile_split is_space s) as (l & Hs & Hl & Hhd).
  set (t := dropwhile is_space s) in *.
  destruct (dropwhile_split is_space (reverse t)) as (r & Ht & Hr & Hlast).
  set (d := dropwhile is_space (reverse t)) in *.
  assert (t = reverse d ++ reverse r) as Ht'.
  { rewrite <- (reverse_involutive t), Ht. by rewrite reverse_app. }
  exists l, (reverse r). split; [by rewrite <- Ht'|].
  split; [done|]. split; [by apply Forall_reverse|]. split.
  - intros c Hc. apply Hhd. rewrite Ht'.
    destruct (reverse d); [done|]. done.
  - intros c Hc. apply Hlast. rewrite <- (reverse_involutive d).
    by rewrite head_reverse.
Qed.

Lemma ascii_strip_idempotent s : ascii_strip (ascii_strip s) = ascii_strip s.
Proof.
  destruct (ascii_strip_spec s) as (_ & _ & _ & _ & _ & Hhd & Hlast).
  remember (ascii_strip s) as t eqn:Ht. clear Ht. unfold ascii_strip.
  rewrite (dropwhile_head_false is_space t) by done.
  rewrite (dropwhile_head_false is_space (reverse t)).
  - apply reverse_involutive.
  - intros c Hc. apply Hlast. by rewrite <- head_reverse.
Qed.

Lemma ascii_lower_char_idempotent c :
  ascii_lower_char (ascii_lower_char c) = ascii_lower_char c.
Proof.
  unfold ascii_lower_char.
  destruct ((65 <=? nat_of_ascii c)%nat && (nat_of_ascii c <=? 90)%nat) eqn:Hc;
    [|by rewrite Hc].
  apply andb_true_iff in Hc as [H1%Nat.leb_le H2%Nat.leb_le].
  rewrite nat_ascii_embedding by lia.
  destruct ((65 <=? nat_of_ascii c + 32)%nat && (nat_of_ascii c + 32 <=? 90)%nat) eqn:Hc';
    [|done].
  apply andb_true_iff in Hc' as [_ H3%Nat.leb_le]. lia.
Qed.

Lemma ascii_lower_idempotent s : ascii_lower (ascii_lower s) = ascii_lower s.
Proof.
  induction s as [|c s IH]; [done|]. simpl.
  by rewrite ascii_lower_char_idempotent, IH.
Qed.

(* ===================================================================== *)
(** * extract_smiles_from_comments *)
(* ===================================================================== *)

Lemma after_literal_Some lit : ∀ s rest,
  after_literal lit s = Some rest ↔ s = lit ++ rest.
Proof.
  induction lit as [|a lit IH]; intros s rest; simpl.
  - split; [by intros [= ->] | by intros ->].
  - destruct s as [|b s]; [by split|].
    destruct (decide (a = b)) as [->|Hne].
    + rewrite IH. split; [by intros -> | by intros [= ->]].
    + split; [done | by intros [= ? ?]].
Qed.

Lemma group_run_split s :
  ∃ rest, s = group_run s ++ rest ∧ (quote ∉ group_run s) ∧
          (rest = [] ∨ ∃ rest', rest = quote :: rest').
Proof.
  unfold group_run. induction s as [|c s (rest & Hs & Hq & Hrest)].
  - exists []. split; [done|]. split; [apply not_elem_of_nil | by left].
  - cbn [takewhile]. case_bool_decide as Hc; cbn [negb].
    + subst c. exists (quote :: s).
      split; [done|]. split; [apply not_elem_of_nil|eauto].
    + exists rest. split; [by simpl; f_equal|]. split; [|done].
      rewrite not_elem_of_cons. split; [congruence | done].
Qed.

Lemma group_run_unique run : ∀ rest,
  quote ∉ run → (rest = [] ∨ ∃ rest', rest = quote :: rest') →
  group_run (run ++ rest) = run.
Proof.
  unfold group_run. induction run as [|c run IH]; intros rest Hq Hrest.
  - destruct Hrest as [->|[rest' ->]]; [done|].
    cbn [app takewhile]. by rewrite bool_decide_eq_true_2.
  - apply not_elem_of_cons in Hq as [Hne Hq].
    cbn [app takewhile]. rewrite bool_decide_eq_false_2 by congruence.
    cbn [negb]. f_equal. by apply IH.
Qed.

Lemma match_here_Some lit s run :
  match_here lit s = Some run ↔ ∃ rest, occurrence lit s [] run rest.
Proof.
  unfold match_here, occurrence. split.
  - destruct (after_literal lit s) as [tail|] eqn:Hlit; [|done].
    apply after_literal_Some in Hlit as ->.
    destruct (group_run_split tail) as (rest & Htail & Hq & Hrest).
    destruct (group_run tail) as [|c r] eqn:Hrun; [done|].
    intros [= <-]. exists rest. by rewrite Htail at 1.
  - intros (rest & Hs & Hne & Hq & Hrest). simpl in Hs. subst s.
    assert (after_literal lit (lit ++ run ++ rest) = Some (run ++ rest)) as ->
      by by apply after_literal_Some.
    rewrite group_run_unique by done. by destruct run.
Qed.

Lemma occurrence_cons lit a s before run rest :
  occurrence lit s before run rest → occurrence lit (a :: s) (a :: before) run rest.
Proof. intros (-> & ? & ? & ?). by repeat split. Qed.



Section ExtractFacts.
Context {RT : Runtime}.

Lemma extract_smiles_from_comments_str s :
  extract_smiles_from_comments (PStr s) =
    match re_search (chars "computed SMILES=") (chars s) with
    | Some g => Ok (PStr (string_of_list_ascii (strip g)))
    | None =>
        match re_search (chars "SMILES=") (chars s) with
        | Some g => Ok (PStr (string_of_list_ascii (strip g)))
        | None => Ok PNone
        end
    end.
Proof. reflexivity. Qed.

End ExtractFacts.


(** What [re_search] finds is the capture of the first occurrence. *)
Lemma re_search_Some lit : ∀ s run,
  re_search lit s = Some run → first_occurrence lit s run.
Proof.
  induction s as [|a s IH]; intros run Hrun.
  - simpl in Hrun. destruct (match_here lit []) as [run'|] eqn:Hm; [|done].
    injection Hrun as ->. apply match_here_Some in Hm as [rest Hocc].
    exists [], rest. split; [done|]. intros; simpl; lia.
  - simpl in Hrun. destruct (match_here lit (a :: s)) as [run'|] eqn:Hm.
    + injection Hrun as ->. apply match_here_Some in Hm as [rest Hocc].
      exists [], rest. split; [done|]. intros; simpl; lia.
    + apply IH in Hrun as (before & rest & Hocc & Hmin).
      exists (a :: before), rest. split; [by apply occurrence_cons|].
      intros [|b before'] run' rest' Hocc'.
      * assert (match_here lit (a :: s) = Some run') as Hm'
          by (apply match_here_Some; eauto).
        congruence.
      * destruct Hocc' as (Hs & Hne & Hq & Hrest). simpl in Hs.
        injection Hs as -> Hs.
        assert (occurrence lit s before' run' rest') as Hocc'' by done.
        apply Hmin in Hocc''. simpl. lia.
Qed.

(* ===================================================================== *)
(** * fill_missing_smiles *)
(* ===================================================================== *)

Lemma objects_set_log_text v σ : objects (set_log_text v σ) = objects σ.
Proof. done. Qed.

Lemma objects_set_objects h σ : objects (set_objects h σ) = h.
Proof. done. Qed.

Section FillFacts.
Context {RT : Runtime}.

Lemma extract_smiles_from_comments_array v :
  is_array v = true → extract_smiles_from_comments v = Raise ambiguous_truth_value.
Proof. by destruct v. Qed.

Lemma extract_smiles_from_comments_returns v :
  is_array v = false → ∃ w, extract_smiles_from_comments v = Ok w.
Proof.
  destruct v as [| |s| |]; try done; intros _; try by eexists.
  rewrite extract_smiles_from_comments_str.
  destruct (re_search _ _); [by eexists|]. destruct (re_search _ _); by eexists.
Qed.

Lemma extract_smiles_from_comments_Raise v e :
  extract_smiles_from_comments v = Raise e → is_array v = true ∧ e = ambiguous_truth_value.
Proof.
  destruct (is_array v) eqn:Harr.
  - rewrite extract_smiles_from_comments_array by done. by intros [= <-].
  - destruct (extract_smiles_from_comments_returns v Harr) as [w ->]. done.
Qed.

(** [series.apply(f)] returns when [f] returns on every cell, with the
    results in order. *)
Lemma apply_cells_Ok (f : pyval → res pyval) vals ws :
  apply_cells f vals = Ok ws ↔ Forall2 (λ v w, f v = Ok w) vals ws.
Proof.
  revert ws. induction vals as [|v vals IH]; intros ws; simpl.
  - split; [intros [= <-]; constructor | by intros ->%Forall2_nil_inv_l].
  - destruct (f v) as [w|e] eqn:Hv; simpl.
    + destruct (apply_cells f vals) as [ws'|e] eqn:Hvals; simpl.
      * split.
        -- intros [= <-]. constructor; [done|]. by apply IH.
        -- intros (w' & ws'' & Hw & Hws & ->)%Forall2_cons_inv_l.
           apply IH in Hws. congruence.
      * split; [done|].
        intros (w' & ws'' & Hw & Hws & ->)%Forall2_cons_inv_l.
        apply IH in Hws. done.
    + split; [done|].
      intros (w' & ws'' & Hw & Hws & ->)%Forall2_cons_inv_l. congruence.
Qed.

Lemma apply_cells_length (f : pyval → res pyval) vals ws :
  apply_cells f vals = Ok ws → length ws = length vals.
Proof. intros H%apply_cells_Ok. symmetry. by eapply Forall2_length. Qed.

Lemma apply_extract_returns vals :
  Forall (λ v, is_array v = false) vals →
  ∃ ws, apply_cells extract_smiles_from_comments vals = Ok ws.
Proof.
  induction 1 as [|v vals Hv _ [ws IH]]; [by eexists|]. simpl.
  destruct (extract_smiles_from_comments_returns v Hv) as [w ->]. simpl.
  rewrite IH. by eexists.
Qed.

Lemma apply_extract_raises vals :
  Exists (λ v, is_array v = true) vals →
  apply_cells extract_smiles_from_comments vals = Raise ambiguous_truth_value.
Proof.
  induction 1 as [v vals Hv|v vals _ IH]; simpl.
  - by rewrite extract_smiles_from_comments_array.
  - destruct (extract_smiles_from_comments v) as [w|e] eqn:Hv; simpl.
    + by rewrite IH.
    + by apply extract_smiles_from_comments_Raise in Hv as [_ ->].
Qed.

(** What the call leaves at [df]: the frame with the extracted column at
    its end when the column could be computed and stored, the frame as it
    was otherwise. *)
Lemma fill_missing_smiles_run σ df f :
  objects σ !! df = Some f →
  "smiles" ∉ columns f → "comments" ∈ columns f →
  (∃ idx vals extracted σ',
     select f "comments" = Series idx vals ∧ length vals = nrows f ∧
     apply_cells extract_smiles_from_comments vals = Ok extracted ∧
     fill_missing_smiles df σ = (Ok df, σ') ∧
     objects σ' = <[df := append_column "smiles" extracted f]> (objects σ)) ∨
  (∃ e σ', fill_missing_smiles df σ = (Raise e, σ') ∧ objects σ' = objects σ ∧
     (∀ idx vals, select f "comments" = Series idx vals →
        match apply_cells extract_smiles_from_comments vals with
        | Ok _ => length vals ≠ nrows f
        | Raise e' => e = e'
        end)).
Proof.
  intros Hdf Hs Hc.
  remember (fill_missing_smiles df σ) as run eqn:Hrun.
  unfold fill_missing_smiles in Hrun.
  unfold mbind at 1, M_bind at 1 in Hrun. rewrite (lift_heap_deref _ _ _ Hdf) in Hrun.
  rewrite decide_True in Hrun by done.
  unfold mbind at 1, M_bind at 1 in Hrun. unfold log_message at 1, modify at 1 in Hrun.
  unfold mbind at 1, M_bind at 1 in Hrun. unfold lift_res at 1 in Hrun.
  rewrite (getitem_Ok _ _ Hc) in Hrun.
  destruct (select f "comments") as [idx vals|sub] eqn:Hsel.
  - unfold mbind at 1, M_bind at 1 in Hrun. unfold lift_res at 1, apply_extract in Hrun.
    destruct (apply_cells extract_smiles_from_comments vals) as [extracted|e] eqn:Hx.
    + unfold mbind at 1, M_bind at 1 in Hrun. unfold lift_res at 1, setitem in Hrun.
      rewrite (labelled_absent _ _ Hs) in Hrun.
      rewrite decide_False in Hrun by (simpl; lia).
      rewrite (apply_cells_length _ _ _ Hx) in Hrun.
      destruct (decide (length vals = nrows f)) as [Hlen|Hlen].
      * left. exists idx, vals, extracted.
        rewrite (decide_False (P := "smiles" ∈ columns f)) in Hrun by done.
        unfold mbind, M_bind, lift_heap, store, log_message, modify, mret, M_ret in Hrun.
        simpl in Hrun.
        destruct (decide (count_notna extracted = 0%nat));
          subst run; (eexists; split; [done|]; split; [done|]; split; [done|];
                      split; reflexivity).
      * right. subst run. eexists _, _. split; [reflexivity|]. split; [done|].
        intros ?? [= _ <-]. by rewrite Hx.
    + right. subst run. eexists _, _. split; [reflexivity|]. split; [done|].
      intros ?? [= _ <-]. by rewrite Hx.
  - right. unfold mbind at 1, M_bind at 1 in Hrun. unfold lift_res at 1, apply_extract in Hrun.
    subst run. eexists _, _. split; [reflexivity|]. split; [done|]. by intros.
Qed.

(** C6. [fill_missing_smiles] adds a smiles column only when the DataFrame
    lacks a smiles column and has a comments column; in every other case
    the DataFrame is returned as it is and nothing changes at all; and in
    all cases the index and every column with a name other than smiles are
    left as they were, and no other DataFrame is touched.  The column that
    is added holds what [extract_smiles_from_comments] returns on the
    cells of the comments column, cell by cell: when the DataFrame lacks a
    smiles column, has one comments column and no cell of it is a list or
    an array, the call returns the DataFrame with this column added; when
    a cell is a list or an array, the [ValueError] of
    [extract_smiles_from_comments] leaves the call and no column is
    added. *)
Theorem fill_missing_smiles_frame σ df f :
  objects σ !! df = Some f →
  ∃ r σ' f',
    fill_missing_smiles df σ = (r, σ') ∧
    objects σ' !! df = Some f' ∧
    (∀ l, l ≠ df → objects σ' !! l = objects σ !! l) ∧
    frame_index f' = frame_index f ∧
    other_columns "smiles" f' = other_columns "smiles" f ∧
    (f' ≠ f →
       ("smiles" ∉ columns f) ∧ ("comments" ∈ columns f) ∧ r = Ok df ∧
       ∃ idx vals extracted,
         select f "comments" = Series idx vals ∧
         Forall2 (λ v w, extract_smiles_from_comments v = Ok w) vals extracted ∧
         f' = append_column "smiles" extracted f) ∧
    (¬ (("smiles" ∉ columns f) ∧ ("comments" ∈ columns f)) → r = Ok df ∧ σ' = σ) ∧
    (∀ idx vals,
        "smiles" ∉ columns f →
        select f "comments" = Series idx vals → length vals = nrows f →
        Forall (λ v, is_array v = false) vals →
        r = Ok df ∧
        ∃ extracted,
          Forall2 (λ v w, extract_smiles_from_comments v = Ok w) vals extracted ∧
          f' = append_column "smiles" extracted f) ∧
    (∀ idx vals,
        "smiles" ∉ columns f →
        select f "comments" = Series idx vals →
        Exists (λ v, is_array v = true) vals →
        r = Raise ambiguous_truth_value ∧ f' = f).
Proof.
  intros Hdf. unfold other_columns.
  destruct (decide (("smiles" ∉ columns f) ∧ ("comments" ∈ columns f))) as [[Hs Hc]|Hno].
  - destruct (fill_missing_smiles_run σ df f Hdf Hs Hc)
      as [(idx & vals & extracted & σ' & Hsel & Hlen & Hx & Hrun & Hobj)
         |(e & σ' & Hrun & Hobj & Hbad)].
    + exists (Ok df), σ', (append_column "smiles" extracted f).
      split; [done|]. rewrite Hobj.
      split; [apply lookup_insert_eq|].
      split; [by intros l Hl; rewrite lookup_insert_ne|].
      split; [done|]. split.
      { simpl. rewrite filter_app, filter_cons_False by (simpl; auto).
        by rewrite filter_nil, app_nil_r. }
      split.
      { intros _. split; [done|]. split; [done|]. split; [done|].
        exists idx, vals, extracted. split; [done|]. split; [|done].
        by apply apply_cells_Ok. }
      split; [by intros []|]. split.
      * intros idx' vals' _ Hsel' _ _. rewrite Hsel in Hsel'. injection Hsel' as <- <-.
        split; [done|]. exists extracted. split; [|done]. by apply apply_cells_Ok.
      * intros idx' vals' _ Hsel' Harr. rewrite Hsel in Hsel'. injection Hsel' as <- <-.
        rewrite (apply_extract_raises _ Harr) in Hx. done.
    + exists (Raise e), σ', f. rewrite Hobj.
      split; [done|]. split; [done|]. split; [done|]. split; [done|].
      split; [done|]. split; [done|]. split; [by intros []|]. split.
      * intros idx vals _ Hsel Hlen Hscalar. specialize (Hbad idx vals Hsel).
        destruct (apply_extract_returns vals Hscalar) as [ws Hws].
        rewrite Hws in Hbad. done.
      * intros idx vals _ Hsel Harr. specialize (Hbad idx vals Hsel).
        rewrite (apply_extract_raises _ Harr) in Hbad. by subst e.
  - exists (Ok df), σ, f.
    assert (fill_missing_smiles df σ = (Ok df, σ)) as Hrun.
    { unfold fill_missing_smiles. unfold mbind at 1, M_bind at 1.
      rewrite (lift_heap_deref _ _ _ Hdf). by rewrite decide_False. }
    assert (∀ idx vals, "smiles" ∉ columns f →
              select f "comments" = Series idx vals → False) as Hsel.
    { intros idx vals Hs Hsel. apply Hno. split; [done|].
      unfold select in Hsel. destruct (labelled "comments" f) as [|c l] eqn:Hl; [done|].
      assert (c ∈ labelled "comments" f) as Hin by (rewrite Hl; apply list_elem_of_here).
      apply list_elem_of_filter in Hin as [Hc Hin].
      unfold columns. apply list_elem_of_fmap. by exists c. }
    split; [done|]. split; [done|]. split; [done|]. split; [done|].
    split; [done|]. split; [done|]. split; [done|]. split.
    + intros idx vals Hs Hsel' _ _. by destruct (Hsel idx vals).
    + intros idx vals Hs Hsel' _. by destruct (Hsel idx vals).
Qed.
End FillFacts.

(* ===================================================================== *)
(** * validate_smiles *)
(* ===================================================================== *)

Section ValidateSmiles.
Variable lib : library.

Local Abbreviation invalid := (λ v, invalid_smiles_cell lib v = true).

(** On cells that are no lists or arrays the loop returns, with exactly
    the positions of the invalid cells and their texts, in order. *)
Lemma validate_loop_Ok vals : ∀ i,
  Forall (λ v, is_array v = false) vals →
  ∃ ii,
    validate_loop lib i vals = Ok (ii, invalid_text <$> filter invalid vals) ∧
    length ii = length (filter invalid vals) ∧
    ∀ p, p ∈ ii ↔
      ∃ k v, p = (i + k)%nat ∧ vals !! k = Some v ∧ invalid_smiles_cell lib v = true.
Proof.
  induction vals as [|v vals IH]; intros i Hs.
  - exists []. split; [done|]. split; [done|]. intros p. rewrite elem_of_nil.
    split; [done|]. by intros (k & w & _ & ? & _).
  - apply Forall_cons in Hs as [Hv Hs].
    destruct (IH (S i) Hs) as (ii & Hrun & Hlen & Hpos).
    assert (isna_test v = Ok (isna v)) as Htest by (by destruct v).
    cbn [validate_loop]. rewrite Htest, Hrun. cbn [mbind res_bind].
    destruct (invalid_smiles_cell lib v) eqn:Hinv.
    + rewrite filter_cons_True by done.
      exists (i :: ii). split; [|split].
      * rewrite fmap_cons. unfold invalid_smiles_cell in Hinv.
        change (invalid_text v) with (if isna v then "(missing)"%string else py_str v).
        destruct (isna v); [done|]. simpl in Hinv.
        apply bool_decide_eq_true_1 in Hinv. by rewrite Hinv.
      * simpl. by rewrite Hlen.
      * intros p. rewrite elem_of_cons, Hpos. split.
        -- intros [->|(k & w & -> & Hk & Hw)].
           ++ exists 0%nat, v. by rewrite Nat.add_0_r.
           ++ exists (S k), w. split; [lia|done].
        -- intros ([|k] & w & -> & Hk & Hw).
           ++ left. lia.
           ++ right. exists k, w. split; [lia|done].
    + rewrite filter_cons_False by (by rewrite Hinv).
      exists ii. split; [|split; [done|]].
      * unfold invalid_smiles_cell in Hinv.
        destruct (isna v); [done|]. simpl in Hinv.
        apply bool_decide_eq_false_1 in Hinv.
        by destruct (MolFromSmiles lib (py_str v)).
      * intros p. rewrite Hpos. split.
        -- intros (k & w & -> & Hk & Hw). exists (S k), w. split; [lia|done].
        -- intros ([|k] & w & -> & Hk & Hw).
           ++ simpl in Hk. injection Hk as ->. congruence.
           ++ exists k, w. split; [lia|done].
Qed.

(** A list or an array among the cells ends the loop with the
    [ValueError] of [pd.isna]. *)
Lemma validate_loop_Raise vals : ∀ i,
  Exists (λ v, is_array v = true) vals →
  validate_loop lib i vals = Raise ambiguous_truth_value.
Proof.
  induction vals as [|v vals IH]; intros i Hx; [by apply Exists_nil in Hx|].
  destruct (is_array v) eqn:Hv.
  - by destruct v.
  - apply Exists_cons in Hx as [Hx|Hx]; [congruence|].
    assert (isna_test v = Ok (isna v)) as Htest by (by destruct v).
    cbn [validate_loop]. rewrite Htest, (IH (S i) Hx). done.
Qed.

Lemma validate_loop_Ok_inv vals i r :
  validate_loop lib i vals = Ok r → Forall (λ v, is_array v = false) vals.
Proof.
  intros Hr. apply Forall_forall. intros v Hv.
  destruct (is_array v) eqn:Harr; [|done].
  rewrite validate_loop_Raise in Hr; [done|].
  apply Exists_exists. eauto.
Qed.

Lemma take_positions_Ok (idx : list Z) ps :
  (∀ p, p ∈ ps → (p < length idx)%nat) →
  ∃ labels, take_positions idx ps = Ok labels ∧
    ∀ lbl, lbl ∈ labels ↔ ∃ p, p ∈ ps ∧ idx !! p = Some lbl.
Proof.
  induction ps as [|p ps IH]; intros Hb.
  - exists []. split; [done|]. intros lbl. rewrite elem_of_nil.
    split; [done|]. intros (p & Hp & _). by apply elem_of_nil in Hp.
  - destruct IH as (labels & Hrun & Hl).
    { intros q Hq. apply Hb. by apply list_elem_of_further. }
    destruct (lookup_lt_is_Some_2 idx p) as [lbl Hlbl].
    { apply Hb, list_elem_of_here. }
    exists (lbl :: labels). split; [simpl; by rewrite Hlbl, Hrun|].
    intros l. rewrite elem_of_cons, Hl. split.
    + intros [->|(q & Hq & Hlq)].
      * exists p. split; [apply list_elem_of_here | done].
      * exists q. split; [by apply list_elem_of_further | done].
    + intros (q & [->|Hq]%elem_of_cons & Hlq).
      * left. congruence.
      * right. eauto.
Qed.

(** With distinct labels, dropping the labels found at the invalid
    positions keeps exactly the rows at the valid positions. *)
Lemma keep_flags_valid_rows (idx : list Z) vals (ii : list nat) (labels : list Z) :
  NoDup idx → length vals = length idx →
  (∀ p, p ∈ ii ↔
     ∃ k v, p = (0 + k)%nat ∧ vals !! k = Some v ∧ invalid_smiles_cell lib v = true) →
  (∀ lbl, lbl ∈ labels ↔ ∃ p, p ∈ ii ∧ idx !! p = Some lbl) →
  (λ lbl, bool_decide (lbl ∉ labels)) <$> idx = valid_rows lib vals.
Proof.
  intros Hnd Hlen validate_loop_positions Hl. unfold valid_rows.
  apply list_eq. intros j. rewrite !list_lookup_fmap.
  destruct (idx !! j) as [lbl|] eqn:Hj.
  - destruct (lookup_lt_is_Some_2 vals j) as [v Hv].
    { rewrite Hlen. by eapply lookup_lt_Some. }
    rewrite Hv. simpl. f_equal.
    destruct (invalid_smiles_cell lib v) eqn:Hinv; simpl.
    + apply bool_decide_eq_false_2. intros Hn. apply Hn, Hl.
      exists j. split; [|done]. apply validate_loop_positions. by exists j, v.
    + apply bool_decide_eq_true_2. intros (p & Hp & Hlp)%Hl.
      assert (p = j) as -> by (by eapply NoDup_lookup).
      apply validate_loop_positions in Hp as (k & w & Hk & Hw & Hinv').
      simpl in Hk. subst k. congruence.
  - rewrite (lookup_ge_None_2 vals j); [done|].
    rewrite Hlen. by apply lookup_ge_None.
Qed.

Lemma length_mask {A} (keep : list bool) : ∀ (l : list A),
  length keep = length l →
  length (mask keep l) = length (filter (λ k, k = true) keep).
Proof.
  induction keep as [|k keep IH]; intros [|x l] Hlen; try done.
  simpl in Hlen. injection Hlen as Hlen. simpl.
  destruct k.
  - rewrite filter_cons_True by done. simpl. by rewrite IH.
  - rewrite filter_cons_False by done. by apply IH.
Qed.

(** [validate_smiles] on a DataFrame whose index labels are pairwise
    distinct.  A DataFrame without a smiles column is returned unchanged.
    On a DataFrame with one smiles column, none of whose cells is a list
    or an array, a row is invalid exactly when its SMILES is missing or
    RDKit returns no molecule for its text.  If no row is invalid the same
    DataFrame is returned and no question is asked.  If some rows are
    invalid the user is asked once; when the user declines, [None] is
    returned and no DataFrame changes; when the user accepts and the index
    labels are pairwise distinct, a new DataFrame is returned that has
    exactly the rows at the invalid positions removed and the index reset.
    The input object is never modified. *)
Lemma validate_smiles_distinct_labels σ df f :
  objects σ !! df = Some f →
  ("smiles" ∉ columns f → validate_smiles lib df σ = (Ok (Some df), σ)) ∧
  (∀ idx smiles,
      "smiles" ∈ columns f →
      select f "smiles" = Series idx smiles →
      Forall (λ v, is_array v = false) smiles →
      let bad := filter invalid smiles in
      let question :=
        invalid_smiles_question (length bad) (nrows f)
          (example_string (invalid_text <$> bad)) in
      let answer := askyesno lib "Invalid SMILES Detected" question in
      ∃ r σ',
        validate_smiles lib df σ = (r, σ') ∧
        objects σ' !! df = Some f ∧
        (bad = [] →
           r = Ok (Some df) ∧ objects σ' = objects σ ∧ dialogs σ' = dialogs σ) ∧
        (bad ≠ [] →
           dialogs σ' =
             dialogs σ ++ [AskYesNo "Invalid SMILES Detected" question answer]) ∧
        (bad ≠ [] → answer = false → r = Ok None ∧ objects σ' = objects σ) ∧
        (bad ≠ [] → answer = true →
           NoDup (frame_index f) → length smiles = nrows f →
           ∃ out, r = Ok (Some out) ∧ out ≠ df ∧
                  objects σ' !! out = Some (without_invalid_rows lib smiles f))).
Proof.
  intros Hdf. split.
  - intros Hno. unfold validate_smiles. unfold mbind at 1, M_bind at 1.
    rewrite (lift_heap_deref _ _ _ Hdf). by rewrite decide_True.
  - intros idx smiles Hin Hsel Hscalar bad question answer.
    remember (validate_smiles lib df σ) as run eqn:Hrun.
    unfold validate_smiles in Hrun.
    unfold mbind at 1, M_bind at 1 in Hrun.
    rewrite (lift_heap_deref _ _ _ Hdf) in Hrun.
    rewrite decide_False in Hrun by (by intros ?).
    unfold mbind at 1, M_bind at 1 in Hrun. unfold log_message at 1, modify at 1 in Hrun.
    unfold mbind at 1, M_bind at 1 in Hrun. unfold lift_res at 1 in Hrun.
    rewrite (getitem_Ok _ _ Hin), Hsel in Hrun. cbn [iterate] in Hrun.
    destruct (validate_loop_Ok smiles 0 Hscalar) as (ii & Hloop & Hcount & Hpos).
    fold bad in Hcount, Hloop.
    unfold mbind at 1, M_bind at 1 in Hrun. unfold lift_res at 1 in Hrun.
    rewrite Hloop in Hrun.
    unfold mbind at 1, M_bind at 1 in Hrun. unfold log_message at 1, modify at 1 in Hrun.
    cbv beta iota in Hrun. rewrite Hcount in Hrun. fold question in Hrun. fold answer in Hrun.
    destruct (decide (0 < length bad)%nat) as [Hsome|Hnone].
    + assert (bad ≠ []) as Hbad by (intros E; rewrite E in Hsome; simpl in Hsome; lia).
      unfold mbind at 1, M_bind at 1 in Hrun. unfold log_message at 1, modify at 1 in Hrun.
      unfold mbind at 1, M_bind at 1 in Hrun. unfold show at 1, modify at 1 in Hrun.
      destruct answer eqn:Hanswer; cbn [negb] in Hrun.
      * destruct (decide (NoDup (frame_index f) ∧ length smiles = nrows f))
          as [[Hnd Hlen]|Hill].
        -- destruct (take_positions_Ok (frame_index f) ii) as (labels & Htake & Hlabels).
           { intros p Hp.
             apply Hpos in Hp as (k & v & -> & Hk & _).
             apply lookup_lt_Some in Hk. unfold nrows in Hlen. simpl. lia. }
           pose proof (keep_flags_valid_rows (frame_index f) smiles ii labels
                         Hnd Hlen Hpos Hlabels) as Hkeep.
           unfold mbind at 1, M_bind at 1 in Hrun. unfold lift_res at 1 in Hrun.
           rewrite Htake in Hrun.
           unfold mbind, M_bind, lift_heap, alloc, log_message, modify, mret, M_ret in Hrun.
           simpl in Hrun.
           subst run. eexists _, _. split; [reflexivity|]. simpl.
           set (h := objects σ) in *. set (out := fresh (dom h)).
           assert (out ≠ df) as Hne.
           { intros E. pose proof (fresh_loc_not_live h) as Hf. fold out in Hf.
             rewrite E, Hdf in Hf. done. }
           split; [by rewrite lookup_insert_ne|].
           split; [done|]. split; [done|]. split; [done|].
           intros _ _ _ _. exists out. split; [done|]. split; [done|].
           rewrite lookup_insert_eq. f_equal.
           unfold reset_index, drop_rows, without_invalid_rows, nrows. simpl.
           rewrite Hkeep. f_equal. rewrite length_mask; [done|].
           unfold valid_rows. by rewrite length_fmap.
        -- destruct (take_positions (frame_index f) ii) as [labels|e] eqn:Htake.
           ++ unfold mbind at 1, M_bind at 1 in Hrun. unfold lift_res at 1 in Hrun.
              unfold mbind, M_bind, lift_heap, alloc, log_message, modify, mret, M_ret in Hrun.
              simpl in Hrun.
              subst run. eexists _, _. split; [reflexivity|]. simpl.
              split.
              { rewrite lookup_insert_ne; [done|].
                intros E. pose proof (fresh_loc_not_live (objects σ)) as Hf.
                rewrite E, Hdf in Hf. done. }
              split; [done|]. split; [done|]. split; [done|].
              intros _ _ Hnd Hlen. by destruct Hill.
           ++ unfold mbind at 1, M_bind at 1 in Hrun. unfold lift_res at 1 in Hrun.
              subst run. eexists _, _. split; [reflexivity|]. simpl.
              split; [done|]. split; [done|]. split; [done|]. split; [done|].
              intros _ _ Hnd Hlen. by destruct Hill.
      * unfold mret, M_ret in Hrun.
        subst run. eexists _, _. split; [reflexivity|]. simpl.
        split; [done|]. split; [done|]. split; [done|]. split; [done|]. done.
    + assert (bad = []) as Hbad by (destruct bad; [done | simpl in Hnone; lia]).
      unfold mret, M_ret in Hrun.
      subst run. eexists _, _. split; [reflexivity|]. simpl.
      split; [done|]. split; [done|].
      split; [by intros ?|]. split; [by intros ?|]. by intros ?.
Qed.
End ValidateSmiles.

(* ===================================================================== *)
(** * What the operations leave alone *)
(* ===================================================================== *)

Section WithinBasics.
Context (R : gui → gui → Prop) `{!Quiet R}.

Lemma within_ret {A} (a : A) : within R (mret a).
Proof. intros σ. apply quiet_refl. Qed.

Lemma within_bind {A B} (m : M gui A) (k : A → M gui B) :
  within R m → (∀ a, within R (k a)) → within R (m ≫= k).
Proof.
  intros Hm Hk σ. unfold mbind, M_bind. specialize (Hm σ).
  destruct (m σ) as [[a|e] σ1]; simpl in *; [|done].
  eapply quiet_trans; [done|]. apply Hk.
Qed.

Lemma within_lift_res {A} (r : res A) : within R (lift_res r).
Proof. intros σ. apply quiet_refl. Qed.

Lemma within_raise {A} e : within R (raise (A := A) e).
Proof. intros σ. apply quiet_refl. Qed.

Lemma within_get : within R get.
Proof. intros σ. apply quiet_refl. Qed.

Lemma within_lift_heap {A} (m : M heap A) : within R (lift_heap m).
Proof. intros σ. unfold lift_heap. destruct (m (objects σ)). apply quiet_objects. Qed.

Lemma within_log_message s : within R (log_message s).
Proof. intros σ. apply quiet_log. Qed.

Lemma within_set_loaded_data v : within R (modify (set_loaded_data v)).
Proof. intros σ. apply quiet_loaded. Qed.

Lemma within_ask t m a : within R (show (AskYesNo t m a)).
Proof. intros σ. apply quiet_ask. Qed.

Lemma within_try_except {A} (body : M gui A) handler :
  within R body → (∀ e, within R (handler e)) → within R (try_except body handler).
Proof.
  intros Hb Hh σ. unfold try_except. specialize (Hb σ).
  destruct (body σ) as [[a|e] σ1]; simpl in *; [done|].
  destruct (is_Exception e); [|done].
  eapply quiet_trans; [done|]. apply Hh.
Qed.
End WithinBasics.

Create HintDb within.
#[local] Hint Resolve within_ret within_lift_res within_raise within_get
  within_lift_heap within_log_message within_set_loaded_data within_ask : within.

(** One step of a syntax-directed proof that a computation stays within a
    relation. *)
Ltac within_step :=
  first
    [ solve [eauto with within typeclass_instances]
    | apply within_bind; [apply _| |intros ?]
    | apply within_try_except; [apply _| |intros ?]
    | match goal with
      | |- within _ (if ?c then _ else _) => destruct c
      | |- within _ (match ?x with _ => _ end) => destruct x
      | |- within _ (let '(_, _) := ?x in _) => destruct x
      end ].

Section WithinLoading.
Context {RT : Runtime}.
Context (R : gui → gui → Prop) `{!Quiet R}.

Lemma within_standardize_loop cols : ∀ m, within R (standardize_loop cols m).
Proof.
  induction cols as [|c cols IH]; intros m; simpl; [eauto with within|].
  destruct (column_mapping !! lower c); [|apply IH].
  apply within_bind; [done|eauto with within|]. intros _. apply IH.
Qed.

Lemma within_standardize_columns df : within R (standardize_columns df).
Proof.
  pose proof within_standardize_loop.
  unfold standardize_columns. repeat within_step.
Qed.

Lemma within_fill_missing_smiles df : within R (fill_missing_smiles df).
Proof. unfold fill_missing_smiles. repeat within_step. Qed.

Lemma within_validate_smiles lib df : within R (validate_smiles lib df).
Proof. unfold validate_smiles. repeat within_step. Qed.

Lemma within_len_loaded_data : within R len_loaded_data.
Proof. unfold len_loaded_data. repeat within_step. Qed.

Lemma within_read_into_loaded_data reader path :
  within R (read_into_loaded_data reader path).
Proof. unfold read_into_loaded_data. repeat within_step. Qed.

Lemma within_load_and_prepare lib path : within R (load_and_prepare lib path).
Proof.
  pose proof within_standardize_columns. pose proof within_fill_missing_smiles.
  pose proof within_validate_smiles. pose proof within_len_loaded_data.
  pose proof within_read_into_loaded_data.
  unfold load_and_prepare. repeat within_step.
Qed.
End WithinLoading.

#[global] Instance only_asks_quiet : Quiet only_asks.
Proof.
  split.
  - intros σ. exists []. by rewrite app_nil_r.
  - intros σ1 σ2 σ3 (a1 & H1 & F1) (a2 & H2 & F2). exists (a1 ++ a2).
    split; [by rewrite H2, H1, app_assoc | by apply Forall_app].
  - intros σ v. exists []. by rewrite app_nil_r.
  - intros σ h. exists []. by rewrite app_nil_r.
  - intros σ v. exists []. by rewrite app_nil_r.
  - intros σ t m a. exists [AskYesNo t m a]. split; [done|]. by constructor.
Qed.

#[global] Instance same_threads_thread_free : ThreadFree same_threads.
Proof.
  split; [split|..]; try done.
  intros σ1 σ2 σ3 H1 H2. unfold same_threads in *. congruence.
Qed.

(* ===================================================================== *)
(** * load_file *)
(* ===================================================================== *)

Lemma missing_columns_spec f col :
  col ∈ missing_columns f ↔ col ∈ required_columns ∧ col ∉ columns f.
Proof. unfold missing_columns. rewrite list_elem_of_filter. tauto. Qed.

Section LoadFile.
Context {RT : Runtime}.

(** C5. In [load_file], once the file has been read and the DataFrame has
    gone through column standardization, SMILES filling and SMILES
    validation, if any of the required columns peaks, smiles, adducts is
    absent from it, the load fails: [loaded_data] is set to [None], one
    error dialog is shown whose message names exactly the missing columns,
    no success dialog is shown, and the function returns. *)
Theorem load_file_missing_required_columns lib σ σ1 df f :
  input_file_path σ ≠ EmptyString →
  path_exists lib (input_file_path σ) = true →
  load_and_prepare lib (input_file_path σ) σ = (Ok (Validated df), σ1) →
  objects σ1 !! df = Some f →
  (∃ col, col ∈ required_columns ∧ col ∉ columns f) →
  ∃ σ',
    load_file lib σ = (Ok tt, σ') ∧
    loaded_data σ' = None ∧
    dialogs σ' =
      dialogs σ1 ++ [ShowError "Invalid File Format" (missing_columns_message f)] ∧
    (∀ col, col ∈ missing_columns f ↔ col ∈ required_columns ∧ col ∉ columns f) ∧
    (∀ title message,
        ShowInfo title message ∈ dialogs σ' → ShowInfo title message ∈ dialogs σ).
Proof.
  intros Hpath Hexists Hprep Hdf (col & Hreq & Habsent).
  assert (missing_columns f ≠ []) as Hmissing.
  { intros E. assert (col ∈ missing_columns f) as Hin by (by apply missing_columns_spec).
    rewrite E in Hin. by apply elem_of_nil in Hin. }
  pose proof (within_load_and_prepare only_asks lib (input_file_path σ) σ) as Hasks.
  rewrite Hprep in Hasks. destruct Hasks as (asks & Hasks & Hall). simpl in Hasks.
  eexists. split.
  - unfold load_file. unfold mbind at 1, M_bind at 1, get.
    rewrite decide_False by done. rewrite Hexists. cbn [negb].
    unfold try_except, load_file_body. unfold mbind at 1, M_bind at 1.
    rewrite Hprep. unfold check_required_columns.
    unfold mbind at 1, M_bind at 1. rewrite (lift_heap_deref _ _ _ Hdf).
    rewrite decide_False by done.
    unfold mbind, M_bind, log_message, modify, show. reflexivity.
  - simpl. split; [done|]. split; [done|]. split; [apply missing_columns_spec|].
    intros title message. rewrite Hasks, !elem_of_app.
    intros [[Hin|Hin]|Hin]; [done| |].
    + rewrite Forall_forall in Hall. by apply Hall in Hin.
    + by apply list_elem_of_singleton in Hin.
Qed.

(* ===================================================================== *)
(** * Exceptions in load_file and in the processing thread *)
(* ===================================================================== *)

Lemma try_except_Raise {S A} (body : M S A) handler s e s' :
  try_except body handler s = (Raise e, s') →
  (body s = (Raise e, s') ∧ is_Exception e = false) ∨
  (∃ e0 s0, body s = (Raise e0, s0) ∧ is_Exception e0 = true ∧
            handler e0 s0 = (Raise e, s')).
Proof.
  unfold try_except. destruct (body s) as [[a|e0] s0]; [done|].
  destruct (is_Exception e0) eqn:He0.
  - intros H. right. by exists e0, s0.
  - intros [= -> ->]. by left.
Qed.

(** With a path to an existing file, [load_file] is its [try] statement. *)
Lemma load_file_try lib σ :
  input_file_path σ ≠ EmptyString →
  path_exists lib (input_file_path σ) = true →
  load_file lib σ =
    try_except (load_file_body lib (input_file_path σ))
      (λ e, log_message ("Error loading file: " +:+ exn_msg e);;
            show (ShowError "Error" ("Failed to load file:" +:+ nl +:+ exn_msg e))) σ.
Proof.
  intros Hpath Hexists. unfold load_file. unfold mbind at 1, M_bind at 1, get.
  rewrite decide_False by done. by rewrite Hexists.
Qed.

(** C7, as the code has it.  Every exception that is an instance of
    [Exception] and is raised inside the [try] block of [load_file] or of
    the background processing thread is handled there: the handler logs a
    message, shows an error message box, and the function returns
    normally.  An exception raised there that is not an instance of
    [Exception] ([KeyboardInterrupt], [SystemExit], [GeneratorExit]) is
    let through by [except Exception]: it leaves the function, from the
    state in which it was raised, the handler having logged and shown
    nothing.  No other exception leaves either function. *)
Theorem exceptions_are_handled lib σ :
  (∀ e σ1,
      input_file_path σ ≠ EmptyString →
      path_exists lib (input_file_path σ) = true →
      load_file_body lib (input_file_path σ) σ = (Raise e, σ1) →
      load_file lib σ =
        if is_Exception e then
          (Ok tt,
           set_dialogs
             (dialogs σ1 ++
                [ShowError "Error" ("Failed to load file:" +:+ nl +:+ exn_msg e)])
             (set_log_text (log_text σ1 ++ ["Error loading file: " +:+ exn_msg e]) σ1))
        else (Raise e, σ1)) ∧
  (∀ e σ1,
      process_data_thread_body lib σ = (Raise e, σ1) →
      _process_data_thread lib σ =
        if is_Exception e then
          (Ok tt,
           set_dialogs
             (dialogs σ1 ++
                [ShowError "Error" ("Processing failed:" +:+ nl +:+ exn_msg e)])
             (set_log_text (log_text σ1 ++ ["Error during processing: " +:+ exn_msg e])
                (set_progress_label "Error" (set_progress_value 0 σ1))))
        else (Raise e, σ1)) ∧
  (∀ e σ', load_file lib σ = (Raise e, σ') →
      is_Exception e = false ∧
      load_file_body lib (input_file_path σ) σ = (Raise e, σ')) ∧
  (∀ e σ', _process_data_thread lib σ = (Raise e, σ') →
      is_Exception e = false ∧ process_data_thread_body lib σ = (Raise e, σ')).
Proof.
  split; [|split; [|split]].
  - intros e σ1 Hpath Hexists Hbody.
    unfold load_file. unfold mbind at 1, M_bind at 1, get.
    rewrite decide_False by done. rewrite Hexists. cbn [negb].
    unfold try_except. rewrite Hbody. by destruct (is_Exception e).
  - intros e σ1 Hbody. unfold _process_data_thread, try_except.
    rewrite Hbody. by destruct (is_Exception e).
  - intros e σ'. unfold load_file. unfold mbind at 1, M_bind at 1, get.
    destruct (decide (input_file_path σ = EmptyString)); [done|].
    destruct (path_exists lib (input_file_path σ)); cbn [negb]; [|done].
    intros [[Hb He]|(e0 & s0 & _ & _ & Hh)]%try_except_Raise; [done|].
    by unfold mbind, M_bind, log_message, modify, show in Hh.
  - intros e σ'. unfold _process_data_thread.
    intros [[Hb He]|(e0 & s0 & _ & _ & Hh)]%try_except_Raise; [done|].
    by unfold mbind, M_bind, log_message, modify, show in Hh.
Qed.
End LoadFile.

(* ===================================================================== *)
(** * process_data *)
(* ===================================================================== *)

Section WithinProcessing.
Context {RT : Runtime}.
Context (R : gui → gui → Prop) `{!ThreadFree R}.











End WithinProcessing.

Section ProcessData.
Context {RT : Runtime}.

End ProcessData.

(* ===================================================================== *)
(** * The guard of head_to_tail_plot *)
(* ===================================================================== *)

(** C10, as the code has it.  The guard [msms1 is float or msms2 is float]
    compares the arguments by identity to the type object [float]: it
    holds exactly when one of the two arguments is that type object
    itself.  It holds for no data argument, float instances included, and
    for such arguments the function never takes the early [return(0)]
    but goes on to the plot. *)
Theorem float_guard_identity :
  (∀ msms1 msms2,
      Plotter.float_guard msms1 msms2 = true ↔
      msms1 = Plotter.ArgType Plotter.TFloat ∨ msms2 = Plotter.ArgType Plotter.TFloat) ∧
  (∀ x y, Plotter.float_guard (Plotter.ArgFloat x) (Plotter.ArgFloat y) = false) ∧
  (∀ msms1 msms2,
      is_Some (Plotter.type_of msms1) → is_Some (Plotter.type_of msms2) →
      Plotter.float_guard msms1 msms2 = false ∧
      ∀ float_of_str draw pmz,
        Plotter.head_to_tail_plot float_of_str draw msms1 msms2 pmz =
          match (match pmz with
                 | Plotter.ArgStr s => float_of_str s
                 | _ => Ok pmz
                 end) with
          | Raise e => Raise e
          | Ok pmz' => draw msms1 msms2 pmz'
          end).
Proof.
  split; [|split].
  - intros msms1 msms2. unfold Plotter.float_guard, Plotter.is_type_object.
    rewrite orb_true_iff. split.
    + intros [H|H]; [left; destruct msms1 | right; destruct msms2]; try done;
        by apply bool_decide_eq_true in H as ->.
    + intros [->| ->]; [left | right]; by apply bool_decide_eq_true.
  - done.
  - intros msms1 msms2 [t1 H1] [t2 H2].
    assert (Plotter.float_guard msms1 msms2 = false) as Hg
      by (by destruct msms1, msms2).
    split; [done|]. intros float_of_str draw pmz.
    unfold Plotter.head_to_tail_plot. by rewrite Hg.
Qed.

(** C10, as it is worded, fails: the guard does hold for an argument
    value, the type object [float] itself, and the call then takes the
    early return of 0. *)
Lemma float_guard_reachable :
  Plotter.float_guard (Plotter.ArgType Plotter.TFloat)
    (Plotter.ArgArray [(100 # 1, 1 # 1)%Q]) = true ∧
  Plotter.head_to_tail_plot
    (λ _, Raise (Exn ValueError "could not convert string to float"))
    (λ _ _ _, Ok Plotter.ArgNone)
    (Plotter.ArgType Plotter.TFloat) (Plotter.ArgArray [(100 # 1, 1 # 1)%Q])
    Plotter.ArgNone = Ok (Plotter.ArgInt 0).
Proof. split; reflexivity. Qed.

(* ===================================================================== *)
(** * Further properties: column standardization *)
(* ===================================================================== *)

Section CleaningFacts.
Context {RT : Runtime}.

(** On lower-case ASCII text lower-casing changes nothing. *)
Lemma lower_lowercase s : ascii_only s = true → ascii_lower s = s → lower s = s.
Proof. intros Ha Hl. by rewrite lower_on_ascii. Qed.

Lemma standardize_columns_value σ df f :
  objects σ !! df = Some f →
  ∃ out σ',
    standardize_columns df σ = (Ok out, σ') ∧
    objects σ' !! out = Some (relabel standard_name f) ∧
    objects σ' !! df = Some f ∧
    dialogs σ' = dialogs σ ∧ loaded_data σ' = loaded_data σ.
Proof.
  intros Hdf. unfold standardize_columns.
  unfold mbind at 1, M_bind at 1. rewrite (lift_heap_deref _ _ _ Hdf).
  destruct (standardize_loop_run (columns f) ∅ σ) as (m & msgs & Hrun & Hm).
  unfold mbind at 1, M_bind at 1. rewrite Hrun.
  remember (set_log_text (log_text σ ++ msgs) σ) as σ1 eqn:Hσ1.
  assert (objects σ1 = objects σ ∧ dialogs σ1 = dialogs σ ∧
          loaded_data σ1 = loaded_data σ) as (Hobj & Hdlg & Hld)
    by (by subst σ1; destruct σ).
  clear Hσ1 Hrun.
  assert (rename m f = relabel standard_name f) as Hren.
  { apply relabel_ext. intros col Hin. rewrite Hm, decide_True by done.
    rewrite lookup_empty. unfold standard_name. rewrite <- column_mapping_lookup.
    by destruct (column_mapping !! lower col). }
  destruct (decide (m = ∅)) as [->|Hne].
  - eexists _, _. split; [reflexivity|]. simpl.
    rewrite <- Hren. unfold rename.
    rewrite (relabel_ext _ id f) by (by intros; rewrite lookup_empty).
    rewrite relabel_id, Hobj. done.
  - rewrite Hren. eexists _, _. split; [reflexivity|]. simpl.
    split; [apply lookup_insert_eq|]. split; [|done].
    rewrite lookup_insert_ne; [by rewrite Hobj|].
    intros Heq. pose proof (fresh_loc_not_live (objects σ1)) as Hf.
    rewrite Heq, Hobj, Hdf in Hf. done.
Qed.

Lemma standard_name_idempotent col :
  standard_name (standard_name col) = standard_name col.
Proof.
  assert (standard_name "peaks" = "peaks" ∧ standard_name "smiles" = "smiles" ∧
          standard_name "adducts" = "adducts") as (Hp' & Hs' & Ha').
  { unfold standard_name. by rewrite !lower_lowercase. }
  unfold standard_name at 2 3.
  destruct (decide (lower col ∈ peaks_names)) as [|Hp]; [done|].
  destruct (decide (lower col ∈ smiles_names)) as [|Hs]; [done|].
  destruct (decide (lower col ∈ adducts_names)) as [|Ha]; [done|].
  unfold standard_name. by rewrite !decide_False.
Qed.

Lemma relabel_relabel g1 g2 f : relabel g1 (relabel g2 f) = relabel (g1 ∘ g2) f.
Proof.
  unfold relabel; simpl. f_equal. rewrite <- list_fmap_compose.
  by apply list_fmap_ext; intros ? [??].
Qed.

(** X1. Standardizing twice is standardizing once: on an already standardized
    DataFrame the second call returns a DataFrame with the same labels,
    cells and index.  (It is a new object whenever some label is one of
    the known names, even though no label changes.) *)
Theorem standardize_columns_idempotent σ df f :
  objects σ !! df = Some f →
  ∃ out1 σ1 out2 σ2 g,
    standardize_columns df σ = (Ok out1, σ1) ∧
    objects σ1 !! out1 = Some g ∧
    standardize_columns out1 σ1 = (Ok out2, σ2) ∧
    objects σ2 !! out2 = Some g.
Proof.
  intros Hdf.
  destruct (standardize_columns_value σ df f Hdf) as (out1 & σ1 & Hrun1 & Hout1 & _).
  destruct (standardize_columns_value σ1 out1 _ Hout1) as (out2 & σ2 & Hrun2 & Hout2 & _).
  exists out1, σ1, out2, σ2, (relabel standard_name f).
  split; [done|]. split; [done|]. split; [done|].
  rewrite Hout2. f_equal. rewrite relabel_relabel.
  apply relabel_ext. intros col _. apply standard_name_idempotent.
Qed.

(* ===================================================================== *)
(** * Further properties: SMILES extraction *)
(* ===================================================================== *)

Lemma re_search_in_text lit s run :
  re_search lit s = Some run →
  (quote ∉ run) ∧ ∃ before rest, s = before ++ lit ++ run ++ rest.
Proof.
  intros (before & rest & (Hs & _ & Hq & _) & _)%re_search_Some. eauto.
Qed.

(** X2. Whatever it is given, [extract_smiles_from_comments] raises for a
    list or an array only, and otherwise returns [None] or a string that
    is a contiguous piece of the comment, contains no double quote, and
    has nothing left to strip: [str.strip()] returns it as it is. *)
Theorem extract_smiles_from_comments_result v :
  match extract_smiles_from_comments v with
  | Raise e => is_array v = true ∧ e = ambiguous_truth_value
  | Ok r =>
      is_array v = false ∧
      (r = PNone ∨
       ∃ t, r = PStr (string_of_list_ascii t) ∧
            (quote ∉ t) ∧
            (∃ before after, chars (py_str v) = before ++ t ++ after) ∧
            strip t = t)
  end.
Proof.
  destruct v as [| |s|text|text]; try (by split; [|left]); [|done].
  rewrite extract_smiles_from_comments_str. cbn [py_str].
  assert (∀ lit run, re_search lit (chars s) = Some run →
            (quote ∉ strip run) ∧
            (∃ before after, chars s = before ++ strip run ++ after) ∧
            strip (strip run) = strip run) as Hshape.
  { intros lit run (Hq & before & rest & Hs)%re_search_in_text.
    destruct (strip_segment run) as (l & r & Hrun).
    split; [|split; [|apply strip_idempotent]].
    - intros Hin. apply Hq. rewrite Hrun. rewrite !elem_of_app. auto.
    - exists (before ++ lit ++ l), (r ++ rest).
      rewrite Hs. rewrite Hrun at 1. by rewrite <- !app_assoc. }
  destruct (re_search (chars "computed SMILES=") (chars s)) as [run|] eqn:H1.
  - split; [done|]. right. exists (strip run). split; [done|]. by eapply Hshape.
  - destruct (re_search (chars "SMILES=") (chars s)) as [run|] eqn:H2.
    + split; [done|]. right. exists (strip run). split; [done|]. by eapply Hshape.
    + split; [done|]. by left.
Qed.

(* ===================================================================== *)
(** * Further properties: filling the SMILES column *)
(* ===================================================================== *)

(** X3. Once [fill_missing_smiles] has returned, calling it again on the same
    DataFrame changes nothing: the DataFrame now has a smiles column, or
    still has no comments to take one from. *)
Theorem fill_missing_smiles_idempotent σ df f out σ' :
  objects σ !! df = Some f →
  fill_missing_smiles df σ = (Ok out, σ') →
  out = df ∧ fill_missing_smiles df σ' = (Ok df, σ').
Proof.
  intros Hdf Hrun.
  assert (∀ τ g, objects τ !! df = Some g →
            ¬ (("smiles" ∉ columns g) ∧ ("comments" ∈ columns g)) →
            fill_missing_smiles df τ = (Ok df, τ)) as Hskip.
  { intros τ g Hg Hno. unfold fill_missing_smiles. unfold mbind at 1, M_bind at 1.
    rewrite (lift_heap_deref _ _ _ Hg). by rewrite decide_False. }
  destruct (decide (("smiles" ∉ columns f) ∧ ("comments" ∈ columns f))) as [[Hs Hc]|Hno].
  - destruct (fill_missing_smiles_run σ df f Hdf Hs Hc)
      as [(idx & vals & extracted & σ'' & Hsel & Hlen & Hx & Hrun' & Hobj)
         |(e & σ'' & Hrun' & _)];
      rewrite Hrun' in Hrun; [|done].
    injection Hrun as <- <-. split; [done|].
    eapply Hskip; [rewrite Hobj; apply lookup_insert_eq|].
    intros [Hs' _]. apply Hs'. unfold columns, append_column; simpl.
    rewrite fmap_app, elem_of_app. right. apply list_elem_of_here.
  - rewrite (Hskip σ f Hdf Hno) in Hrun. injection Hrun as <- <-.
    split; [done|]. by eapply Hskip.
Qed.
End CleaningFacts.

(* ===================================================================== *)
(** * Further properties: denoising_pipeline *)
(* ===================================================================== *)

Section PipelineRuns.
Context {RT : Runtime}.

Lemma relabel_lower_idempotent f : relabel lower (relabel lower f) = relabel lower f.
Proof. rewrite relabel_relabel. apply relabel_ext. intros col _. apply lower_idempotent. Qed.

Lemma setitem_inv f name values g :
  (length (labelled name f) ≤ 1)%nat →
  setitem f name values = Ok g →
  length values = nrows f ∧
  g = (if decide (name ∈ columns f) then overwrite name values f
       else append_column name values f).
Proof.
  intros Hone. unfold setitem. rewrite decide_False by lia.
  destruct (decide (length values = nrows f)); [|done].
  destruct (decide (name ∈ columns f)); by intros [= <-].
Qed.

(** X4. A missing column is reported by a [KeyError] that names the first of
    peaks, smiles, adducts that no lower-cased column name equals.  The
    batch denoiser is not called and no DataFrame is created, but the
    caller's DataFrame has already been renamed. *)
Theorem denoising_pipeline_missing_column
    batch (h : gmap loc frame) input_df f mass_error name :
  h !! input_df = Some f →
  head (missing_columns (relabel lower f)) = Some name →
  denoising_pipeline batch input_df mass_error h =
    (Raise (Exn KeyError ("'" +:+ name +:+ "'")), <[input_df := relabel lower f]> h).
Proof.
  intros Hl Hname.
  rewrite (denoising_pipeline_run batch h input_df f mass_error Hl).
  set (f' := relabel lower f) in *.
  unfold missing_columns, required_columns in Hname.
  destruct (decide ("peaks" ∈ columns f')) as [Hp|Hp].
  - rewrite filter_cons_False in Hname by (by intros ?). rewrite (getitem_Ok _ _ Hp).
    destruct (decide ("smiles" ∈ columns f')) as [Hs|Hs].
    + rewrite filter_cons_False in Hname by (by intros ?). rewrite (getitem_Ok _ _ Hs).
      destruct (decide ("adducts" ∈ columns f')) as [Ha|Ha].
      * rewrite filter_cons_False in Hname by (by intros ?). done.
      * rewrite filter_cons_True in Hname by done. injection Hname as <-.
        by rewrite (getitem_KeyError _ _ Ha).
    + rewrite filter_cons_True in Hname by done. injection Hname as <-.
      by rewrite (getitem_KeyError _ _ Hs).
  - rewrite filter_cons_True in Hname by done. injection Hname as <-.
    by rewrite (getitem_KeyError _ _ Hp).
Qed.

(** X5. Running the pipeline a second time on the same DataFrame leaves the
    caller's DataFrame as the first run left it and ends the same way: the
    same exception, or a further new DataFrame equal to the first
    result. *)
Theorem denoising_pipeline_second_run
    batch (h : gmap loc frame) input_df f mass_error r h1 :
  h !! input_df = Some f →
  denoising_pipeline batch input_df mass_error h = (r, h1) →
  ∃ r2 h2,
    denoising_pipeline batch input_df mass_error h1 = (r2, h2) ∧
    h2 !! input_df = h1 !! input_df ∧
    (∀ e, r = Raise e → r2 = Raise e) ∧
    (∀ out g, r = Ok out → h1 !! out = Some g →
       ∃ out2, r2 = Ok out2 ∧ out2 ≠ out ∧ out2 ≠ input_df ∧
               h2 !! out2 = Some g ∧ h2 !! out = Some g).
Proof.
  intros Hl Hrun.
  rewrite (denoising_pipeline_run batch h input_df f mass_error Hl) in Hrun.
  pose proof (relabel_lower_idempotent f) as Hidem.
  remember (relabel lower f) as f' eqn:Hf'.
  remember (<[input_df := f']> h) as h' eqn:Hh'.
  assert (h' !! input_df = Some f') as Hin by (subst h'; apply lookup_insert_eq).
  clear Hf' Hh' Hl.
  assert (∀ k : gmap loc frame, fresh (dom k) ≠ input_df ∨ k !! input_df = None) as Hfresh.
  { intros k. destruct (decide (fresh (dom k) = input_df)) as [<-|]; [right|by left].
    apply fresh_loc_not_live. }
  assert (∀ k : gmap loc frame, k !! input_df = Some f' → fresh (dom k) ≠ input_df)
    as Hfresh'.
  { intros k Hk. destruct (Hfresh k) as [|Hn]; [done|]. by rewrite Hk in Hn. }
  assert (∀ k, k !! input_df = Some f' →
            denoising_pipeline batch input_df mass_error k =
              match getitem f' "peaks" with
              | Raise e => (Raise e, k)
              | Ok p =>
                match getitem f' "smiles" with
                | Raise e => (Raise e, k)
                | Ok s =>
                  match getitem f' "adducts" with
                  | Raise e => (Raise e, k)
                  | Ok a =>
                    match batch p s a mass_error with
                    | Raise e => (Raise e, k)
                    | Ok v =>
                      match setitem f' "denoised_peaks" v with
                      | Raise e => (Raise e, <[fresh (dom k) := f']> k)
                      | Ok g => (Ok (fresh (dom k)), <[fresh (dom k) := g]> k)
                      end
                    end
                  end
                end
              end) as Hagain.
  { intros k Hk. rewrite (denoising_pipeline_run batch k input_df f' mass_error Hk).
    rewrite !Hidem. by rewrite (insert_id k input_df f' Hk). }
  destruct (getitem f' "peaks") as [p|e]; [|injection Hrun as <- <-;
    rewrite (Hagain h' Hin); eexists _, _; split; [done|]; split; [done|];
    split; [done|]; by intros].
  destruct (getitem f' "smiles") as [s|e]; [|injection Hrun as <- <-;
    rewrite (Hagain h' Hin); eexists _, _; split; [done|]; split; [done|];
    split; [done|]; by intros].
  destruct (getitem f' "adducts") as [a|e]; [|injection Hrun as <- <-;
    rewrite (Hagain h' Hin); eexists _, _; split; [done|]; split; [done|];
    split; [done|]; by intros].
  destruct (batch p s a mass_error) as [v|e]; [|injection Hrun as <- <-;
    rewrite (Hagain h' Hin); eexists _, _; split; [done|]; split; [done|];
    split; [done|]; by intros].
  pose proof (Hfresh' h' Hin) as Hne1.
  destruct (setitem f' "denoised_peaks" v) as [g|e]; injection Hrun as <- <-.
  - assert (<[fresh (dom h') := g]> h' !! input_df = Some f') as Hin1
      by (by rewrite lookup_insert_ne).
    rewrite (Hagain _ Hin1). eexists _, _. split; [done|].
    pose proof (Hfresh' _ Hin1) as Hne2.
    pose proof (fresh_loc_not_live (<[fresh (dom h') := g]> h')) as Hnl.
    split; [by rewrite lookup_insert_ne|]. split; [done|].
    intros out g' [= <-]. rewrite lookup_insert_eq. intros [= <-].
    eexists. split; [done|].
    assert (fresh (dom (<[fresh (dom h') := g]> h')) ≠ fresh (dom h')) as Hne3.
    { intros E. rewrite E, lookup_insert_eq in Hnl. done. }
    split; [done|]. split; [done|].
    split; [apply lookup_insert_eq|].
    rewrite lookup_insert_ne by done. apply lookup_insert_eq.
  - assert (<[fresh (dom h') := f']> h' !! input_df = Some f') as Hin1
      by (by rewrite lookup_insert_ne).
    rewrite (Hagain _ Hin1). eexists _, _. split; [done|].
    pose proof (Hfresh' _ Hin1) as Hne2.
    split; [by rewrite lookup_insert_ne|]. split; [by intros ? [= <-]|done].
Qed.

Lemma rectangular_relabel g f : rectangular f → rectangular (relabel g f).
Proof.
  unfold rectangular, relabel; simpl. rewrite Forall_fmap.
  intros H. eapply Forall_impl; [exact H|]. by intros [??].
Qed.

(** X6. The pipeline keeps tables rectangular: when the input has one cell per
    row in every column, and at most one of its lower-cased names is
    denoised_peaks, so has the returned DataFrame, with the same number of
    rows and the same index. *)
Theorem denoising_pipeline_rectangular
    batch (h : gmap loc frame) input_df f mass_error output_df h' g :
  h !! input_df = Some f →
  rectangular f →
  (length (labelled "denoised_peaks" (relabel lower f)) ≤ 1)%nat →
  denoising_pipeline batch input_df mass_error h = (Ok output_df, h') →
  h' !! output_df = Some g →
  rectangular g ∧ frame_index g = frame_index f ∧
  rectangular (relabel lower f) ∧ h' !! input_df = Some (relabel lower f).
Proof.
  intros Hl Hwf Hone Hrun Hout.
  rewrite (denoising_pipeline_run batch h input_df f mass_error Hl) in Hrun.
  set (f' := relabel lower f) in *.
  destruct (getitem f' "peaks") as [p|e]; [|done].
  destruct (getitem f' "smiles") as [s|e]; [|done].
  destruct (getitem f' "adducts") as [a|e]; [|done].
  destruct (batch p s a mass_error) as [v|e]; [|done].
  destruct (setitem f' "denoised_peaks" v) as [g'|e] eqn:Hset; [|done].
  injection Hrun as <- <-. rewrite lookup_insert_eq in Hout. injection Hout as ->.
  apply setitem_inv in Hset as [Hlen ->]; [|done].
  pose proof (rectangular_relabel lower f Hwf) as Hwf'. fold f' in Hwf'.
  assert (fresh (dom (<[input_df := f']> h)) ≠ input_df) as Hne.
  { intros E. pose proof (fresh_loc_not_live (<[input_df := f']> h)) as Hf.
    by rewrite E, lookup_insert_eq in Hf. }
  split; [|split; [|split; [done|]]].
  - destruct (decide ("denoised_peaks" ∈ columns f')).
    + unfold rectangular, overwrite; simpl. rewrite Forall_fmap.
      eapply Forall_impl; [exact Hwf'|]. intros [c w] Hc; simpl in *.
      by destruct (decide (c = "denoised_peaks")).
    + unfold rectangular, append_column; simpl. apply Forall_app. split; [done|].
      by constructor.
  - by destruct (decide ("denoised_peaks" ∈ columns f')).
  - rewrite lookup_insert_ne by done. apply lookup_insert_eq.
Qed.
End PipelineRuns.

(* ===================================================================== *)
(** * Further properties: loading *)
(* ===================================================================== *)

Lemma bind_Ok_inv {S A B} (m : M S A) (k : A → M S B) s b s' :
  (m ≫= k) s = (Ok b, s') →
  ∃ a s1, m s = (Ok a, s1) ∧ k a s1 = (Ok b, s').
Proof.
  unfold mbind, M_bind. destruct (m s) as [[a|e] s1]; [eauto|done].
Qed.

Lemma bind_Raise_inv {S A B} (m : M S A) (k : A → M S B) s e s' :
  (m ≫= k) s = (Raise e, s') →
  m s = (Raise e, s') ∨ ∃ a s1, m s = (Ok a, s1) ∧ k a s1 = (Raise e, s').
Proof.
  unfold mbind, M_bind. destruct (m s) as [[a|e0] s1]; [eauto|]. intros [= -> ->]. by left.
Qed.

Section LoadingFacts.
Context {RT : Runtime}.

(** What [self.loaded_data] is when the preparation of a file ends. *)
Lemma load_and_prepare_loaded_data lib path σ p σ1 :
  load_and_prepare lib path σ = (Ok p, σ1) →
  match p with
  | Validated df => loaded_data σ1 = Some (DataFrameRef df)
  | Cancelled => loaded_data σ1 = None
  | NotADataFrame => ∀ df, loaded_data σ1 ≠ Some (DataFrameRef df)
  end.
Proof.
  unfold load_and_prepare.
  intros (? & σa & _ & H)%bind_Ok_inv.
  apply bind_Ok_inv in H as (τ & σb & _ & H).
  apply bind_Ok_inv in H as (? & σc & _ & H).
  apply bind_Ok_inv in H as (τ' & σd & Hget & H).
  unfold get in Hget. injection Hget as Ha Hb. subst τ' σd.
  destruct (loaded_data σc) as [[df|type_name len]|] eqn:Hld.
  - apply bind_Ok_inv in H as (df1 & σ2 & _ & H).
    apply bind_Ok_inv in H as (? & σ3 & _ & H).
    apply bind_Ok_inv in H as (df2 & σ4 & _ & H).
    apply bind_Ok_inv in H as (? & σ5 & _ & H).
    apply bind_Ok_inv in H as (r & σ6 & _ & H).
    apply bind_Ok_inv in H as (? & σ7 & Hmod & H).
    unfold modify in Hmod. simplify_eq.
    destruct r as [df3|]; unfold mret, M_ret in H; by simplify_eq.
  - unfold mret, M_ret in H. simplify_eq. intros df. by rewrite Hld.
  - unfold mret, M_ret in H. simplify_eq. intros df. by rewrite Hld.
Qed.

Lemma missing_columns_nil f :
  missing_columns f = [] ↔
  "peaks" ∈ columns f ∧ "smiles" ∈ columns f ∧ "adducts" ∈ columns f.
Proof.
  split.
  - intros E.
    assert (∀ col, col ∈ required_columns → col ∈ columns f) as H.
    { intros col Hreq. destruct (decide (col ∈ columns f)) as [|Hn]; [done|].
      assert (col ∈ missing_columns f) as Hin by (by apply missing_columns_spec).
      rewrite E in Hin. by apply elem_of_nil in Hin. }
    unfold required_columns in H. repeat split; apply H; set_solver.
  - intros (Hp & Hs & Ha). unfold missing_columns, required_columns.
    rewrite !filter_cons_False by (by intros ?). done.
Qed.

(** X7. When the prepared DataFrame has the three required columns,
    [load_file] keeps it as [loaded_data], reports success with its number
    of rows in one information box, and shows no error. *)
Theorem load_file_success lib σ σ1 df f :
  input_file_path σ ≠ EmptyString →
  path_exists lib (input_file_path σ) = true →
  load_and_prepare lib (input_file_path σ) σ = (Ok (Validated df), σ1) →
  objects σ1 !! df = Some f →
  "peaks" ∈ columns f → "smiles" ∈ columns f → "adducts" ∈ columns f →
  ∃ σ',
    load_file lib σ = (Ok tt, σ') ∧
    loaded_data σ' = Some (DataFrameRef df) ∧
    objects σ' = objects σ1 ∧
    dialogs σ' =
      dialogs σ1 ++
        [ShowInfo "Success"
           ("File loaded!" +:+ nl +:+ " Total spectra loaded: " +:+ pretty (nrows f))] ∧
    log_text σ' = log_text σ1 ++ ["Total spectra loaded: " +:+ pretty (nrows f)].
Proof.
  intros Hpath Hexists Hprep Hdf Hp Hs Ha.
  pose proof (load_and_prepare_loaded_data _ _ _ _ _ Hprep) as Hld. simpl in Hld.
  assert (missing_columns f = []) as Hmiss by (by apply missing_columns_nil).
  assert (∀ τ, loaded_data τ = Some (DataFrameRef df) → objects τ !! df = Some f →
            len_loaded_data τ = (Ok (nrows f), τ)) as Hlen.
  { intros τ Hτ Hτf. unfold len_loaded_data. unfold mbind at 1, M_bind at 1, get.
    rewrite Hτ. unfold mbind, M_bind. by rewrite (lift_heap_deref _ _ _ Hτf). }
  eexists. split.
  - unfold load_file. unfold mbind at 1, M_bind at 1, get.
    rewrite decide_False by done. rewrite Hexists. cbn [negb].
    unfold try_except, load_file_body. unfold mbind at 1, M_bind at 1.
    rewrite Hprep. unfold check_required_columns.
    unfold mbind at 1, M_bind at 1. rewrite (lift_heap_deref _ _ _ Hdf).
    rewrite decide_True by done.
    unfold mbind at 1, M_bind at 1. rewrite (Hlen σ1 Hld Hdf).
    unfold mbind at 1, M_bind at 1. unfold log_message at 1, modify at 1.
    unfold report_loaded. unfold mbind at 1, M_bind at 1.
    rewrite Hlen by done. unfold show, modify. reflexivity.
  - done.
Qed.

(** X8. When the user declines to continue with invalid SMILES, [load_file]
    ends with nothing loaded: [loaded_data] is [None], the log says so, and
    no box other than the question itself is shown. *)
Theorem load_file_cancelled lib σ σ1 :
  input_file_path σ ≠ EmptyString →
  path_exists lib (input_file_path σ) = true →
  load_and_prepare lib (input_file_path σ) σ = (Ok Cancelled, σ1) →
  ∃ σ',
    load_file lib σ = (Ok tt, σ') ∧
    loaded_data σ' = None ∧
    log_text σ' =
      log_text σ1 ++ ["Data loading cancelled by user due to invalid SMILES"] ∧
    only_asks σ σ'.
Proof.
  intros Hpath Hexists Hprep.
  pose proof (load_and_prepare_loaded_data _ _ _ _ _ Hprep) as Hld. simpl in Hld.
  pose proof (within_load_and_prepare only_asks lib (input_file_path σ) σ) as Hasks.
  rewrite Hprep in Hasks. simpl in Hasks.
  eexists. split.
  - unfold load_file. unfold mbind at 1, M_bind at 1, get.
    rewrite decide_False by done. rewrite Hexists. cbn [negb].
    unfold try_except, load_file_body. unfold mbind at 1, M_bind at 1.
    rewrite Hprep. unfold log_message, modify. reflexivity.
  - split; [done|]. split; [done|].
    destruct Hasks as (asks & Hd & Hall). by exists asks.
Qed.

Lemma read_into_loaded_data_Raise reader path e τ :
  reader path = Raise e → read_into_loaded_data reader path τ = (Raise e, τ).
Proof.
  intros H. unfold read_into_loaded_data, mbind, M_bind, lift_res. by rewrite H.
Qed.

Lemma load_and_prepare_read_fails lib path σ e :
  (file_type σ = "msp" ∧ read_msp lib path = Raise e) ∨
  (file_type σ = "csv" ∧ read_df lib path = Raise e) →
  load_and_prepare lib path σ =
    (Raise e, set_log_text (log_text σ ++ ["Loading file: " +:+ path]) σ).
Proof.
  intros Hread. unfold load_and_prepare.
  unfold mbind at 1, M_bind at 1. unfold log_message at 1, modify at 1.
  unfold mbind at 1, M_bind at 1. unfold get at 1.
  unfold mbind at 1, M_bind at 1.
  change (file_type (set_log_text (log_text σ ++ ["Loading file: " +:+ path]) σ))
    with (file_type σ).
  destruct Hread as [[-> Hread]|[-> Hread]].
  - rewrite decide_True by done. unfold mbind at 1, M_bind at 1.
    by rewrite (read_into_loaded_data_Raise _ _ _ _ Hread).
  - rewrite decide_False by done. rewrite decide_True by done.
    unfold mbind at 1, M_bind at 1.
    by rewrite (read_into_loaded_data_Raise _ _ _ _ Hread).
Qed.

Lemma load_and_prepare_read_fails_body lib path σ e :
  (file_type σ = "msp" ∧ read_msp lib path = Raise e) ∨
  (file_type σ = "csv" ∧ read_df lib path = Raise e) →
  load_file_body lib path σ =
    (Raise e, set_log_text (log_text σ ++ ["Loading file: " +:+ path]) σ).
Proof.
  intros Hread. unfold load_file_body. unfold mbind at 1, M_bind at 1.
  by rewrite (load_and_prepare_read_fails _ _ _ _ Hread).
Qed.

(** X9. A load that fails, because no path is given, because the file does not
    exist, or because the reader raises, keeps the data that was loaded
    before: [loaded_data] and every DataFrame are as they were, and no
    thread is started.  [load_file] then returns, with exactly one error
    box added, unless the reader raised an exception that is not an
    instance of [Exception]: that one leaves [load_file], and no box is
    shown.  A later [process_data] therefore works on the previously
    loaded file. *)
Theorem load_file_failure_keeps_data lib σ :
  input_file_path σ = EmptyString ∨
  path_exists lib (input_file_path σ) = false ∨
  (∃ e, (file_type σ = "msp" ∧ read_msp lib (input_file_path σ) = Raise e) ∨
        (file_type σ = "csv" ∧ read_df lib (input_file_path σ) = Raise e)) →
  ∃ r σ',
    load_file lib σ = (r, σ') ∧
    loaded_data σ' = loaded_data σ ∧
    objects σ' = objects σ ∧
    same_threads σ σ' ∧
    match r with
    | Ok _ => ∃ message, dialogs σ' = dialogs σ ++ [ShowError "Error" message]
    | Raise e =>
        is_Exception e = false ∧ dialogs σ' = dialogs σ ∧
        input_file_path σ ≠ EmptyString ∧
        path_exists lib (input_file_path σ) = true ∧
        ((file_type σ = "msp" ∧ read_msp lib (input_file_path σ) = Raise e) ∨
         (file_type σ = "csv" ∧ read_df lib (input_file_path σ) = Raise e))
    end.
Proof.
  intros Hcase. unfold load_file. unfold mbind at 1, M_bind at 1, get.
  destruct (decide (input_file_path σ = EmptyString)) as [|Hpath].
  { eexists _, _. split; [reflexivity|]. simpl.
    split; [done|]. split; [done|]. split; [done|]. by eexists. }
  destruct (path_exists lib (input_file_path σ)) eqn:Hexists; cbn [negb];
    [|eexists _, _; split; [reflexivity|]; simpl;
      split; [done|]; split; [done|]; split; [done|]; by eexists].
  destruct Hcase as [?|[?|(e & Hread)]]; [done..|].
  unfold try_except, load_file_body. unfold mbind at 1, M_bind at 1.
  rewrite (load_and_prepare_read_fails _ _ _ _ Hread).
  destruct (is_Exception e) eqn:He.
  - eexists _, _. split; [reflexivity|]. simpl.
    split; [done|]. split; [done|]. split; [done|]. by eexists.
  - eexists _, _. split; [reflexivity|]. simpl. done.
Qed.
End LoadingFacts.

(* ===================================================================== *)
(** * Further properties: processing *)
(* ===================================================================== *)

Lemma bind_run {S A B} (m : M S A) (k : A → M S B) s a s1 :
  m s = (Ok a, s1) → (m ≫= k) s = k a s1.
Proof. intros H. unfold mbind, M_bind. by rewrite H. Qed.

Lemma bind_fail {S A B} (m : M S A) (k : A → M S B) s e s1 :
  m s = (Raise e, s1) → (m ≫= k) s = (Raise e, s1).
Proof. intros H. unfold mbind, M_bind. by rewrite H. Qed.

Lemma lift_heap_run {A} (m : M heap A) σ r h :
  m (objects σ) = (r, h) → lift_heap m σ = (r, set_objects h σ).
Proof. intros H. unfold lift_heap. by rewrite H. Qed.

Section ProcessingFacts.
Context {RT : Runtime}.


(** The thread up to the call of the pipeline. *)
Lemma process_data_thread_body_pipeline lib σ df :
  loaded_data σ = Some (DataFrameRef df) →
  let σ0 :=
    set_log_text
      (log_text σ ++ ["Starting data processing...";
                      "Using mass tolerance: " +:+ format_float lib (mass_tolerance σ)])
      (set_progress_label "0%" (set_progress_value 0 σ)) in
  ∀ e h,
    denoising_pipeline (spectral_denoising_batch lib) df (mass_tolerance σ) (objects σ)
      = (Raise e, h) →
    process_data_thread_body lib σ = (Raise e, set_objects h σ0).
Proof.
  intros Hld σ0 e h Hpipe. unfold process_data_thread_body.
  erewrite bind_run by reflexivity. erewrite bind_run by reflexivity.
  erewrite bind_run by reflexivity. erewrite bind_run by reflexivity.
  cbn [loaded_data mass_tolerance set_log_text set_progress_label set_progress_value].
  erewrite bind_run by reflexivity.
  rewrite Hld. unfold run_pipeline.
  erewrite bind_fail; [|apply lift_heap_run; exact Hpipe].
  subst σ0. destruct σ; simpl. unfold set_objects, set_log_text; simpl.
  by rewrite <- app_assoc.
Qed.


(** X11. When the batch denoiser raises, nothing is written and [results]
    stays as it was; the loaded DataFrame is left with lower-cased column
    names and no other DataFrame is created.  If the exception is an
    instance of [Exception] the thread returns, with the progress bar
    reset to 0 and labelled Error and one error box that carries the text
    of the exception; otherwise the exception leaves the thread and no
    box is shown. *)
Theorem process_data_thread_batch_failure lib σ df f e :
  loaded_data σ = Some (DataFrameRef df) →
  objects σ !! df = Some f →
  "peaks" ∈ lower <$> columns f →
  "smiles" ∈ lower <$> columns f →
  "adducts" ∈ lower <$> columns f →
  let f' := relabel lower f in
  spectral_denoising_batch lib (select f' "peaks") (select f' "smiles")
    (select f' "adducts") (mass_tolerance σ) = Raise e →
  ∃ r σ',
    _process_data_thread lib σ = (r, σ') ∧
    files σ' = files σ ∧ results σ' = results σ ∧
    objects σ' = <[df := f']> (objects σ) ∧
    if is_Exception e then
      r = Ok tt ∧ progress_value σ' = 0 ∧ progress_label σ' = "Error" ∧
      dialogs σ' =
        dialogs σ ++ [ShowError "Error" ("Processing failed:" +:+ nl +:+ exn_msg e)]
    else r = Raise e ∧ dialogs σ' = dialogs σ.
Proof.
  intros Hld Hdf Hp Hs Ha f' Hbatch.
  assert (denoising_pipeline (spectral_denoising_batch lib) df (mass_tolerance σ) (objects σ)
          = (Raise e, <[df := f']> (objects σ))) as Hpipe.
  { rewrite (denoising_pipeline_run _ _ _ _ _ Hdf). fold f'.
    rewrite <- (columns_relabel lower f) in Hp, Hs, Ha. fold f' in Hp, Hs, Ha.
    rewrite !getitem_Ok by done. by rewrite Hbatch. }
  unfold _process_data_thread, try_except.
  rewrite (process_data_thread_body_pipeline lib σ df Hld e _ Hpipe).
  destruct (is_Exception e); eexists _, _; (split; [reflexivity|]); done.
Qed.


(** X13. [clear_all] empties the form, the loaded data and the log, but keeps
    the DataFrames, the last results and the started threads; a
    [process_data] right after it starts nothing and asks for a file, and
    a [load_file] right after it asks for an input path. *)
Theorem clear_all_then_process lib σ :
  ∃ σ1 σ2 σ3,
    clear_all σ = (Ok tt, σ1) ∧
    input_file_path σ1 = EmptyString ∧ output_file_path σ1 = EmptyString ∧
    loaded_data σ1 = None ∧ log_text σ1 = ["Cleared all data"] ∧
    objects σ1 = objects σ ∧ results σ1 = results σ ∧ threads σ1 = threads σ ∧
    process_data σ1 = (Ok tt, σ2) ∧
    threads σ2 = threads σ ∧
    dialogs σ2 = dialogs σ ++ [ShowError "Error" "Please load a file first"] ∧
    load_file lib σ1 = (Ok tt, σ3) ∧
    dialogs σ3 = dialogs σ ++ [ShowError "Error" "Please select an input file"] ∧
    loaded_data σ3 = None.
Proof.
  eexists _, _, _. split; [reflexivity|]. simpl.
  repeat match goal with |- _ ∧ _ => split; [reflexivity|] end.
  split; [unfold load_file, mbind, M_bind, get; simpl; reflexivity|].
  split; reflexivity.
Qed.
End ProcessingFacts.

(* ===================================================================== *)
(** * Further properties: SMILES validation *)
(* ===================================================================== *)

Section ValidatedTables.
Context {RT : Runtime}.
Variable lib : library.

Local Abbreviation invalid := (λ v, invalid_smiles_cell lib v = true).

(** The three ways a validation of a table with one smiles column and
    distinct labels can end. *)
Lemma validate_smiles_run σ df f idx smiles :
  objects σ !! df = Some f →
  "smiles" ∈ columns f →
  select f "smiles" = Series idx smiles →
  Forall (λ v, is_array v = false) smiles →
  NoDup (frame_index f) → length smiles = nrows f →
  ∃ σ',
    (filter invalid smiles = [] ∧
     validate_smiles lib df σ = (Ok (Some df), σ') ∧
     objects σ' = objects σ ∧ dialogs σ' = dialogs σ) ∨
    (filter invalid smiles ≠ [] ∧
     validate_smiles lib df σ = (Ok None, σ') ∧ objects σ' = objects σ) ∨
    (filter invalid smiles ≠ [] ∧
     validate_smiles lib df σ = (Ok (Some (fresh (dom (objects σ)))), σ') ∧
     objects σ' =
       <[fresh (dom (objects σ)) := without_invalid_rows lib smiles f]> (objects σ)).
Proof.
  intros Hdf Hin Hsel Hscalar Hnd Hlen.
  remember (validate_smiles lib df σ) as run eqn:Hrun.
  unfold validate_smiles in Hrun.
  rewrite (bind_run _ _ _ _ _ (lift_heap_deref _ _ _ Hdf)) in Hrun.
  rewrite decide_False in Hrun by (by intros ?).
  erewrite bind_run in Hrun by reflexivity.
  unfold mbind at 1, M_bind at 1 in Hrun. unfold lift_res at 1 in Hrun.
  rewrite (getitem_Ok _ _ Hin), Hsel in Hrun. cbn [iterate] in Hrun.
  destruct (validate_loop_Ok lib smiles 0 Hscalar) as (ii & Hloop & Hcount & Hpos).
  unfold mbind at 1, M_bind at 1 in Hrun. unfold lift_res at 1 in Hrun.
  rewrite Hloop in Hrun. cbv beta iota in Hrun.
  erewrite bind_run in Hrun by reflexivity.
  rewrite Hcount in Hrun.
  destruct (decide (0 < length (filter invalid smiles))%nat) as [Hsome|Hnone].
  - assert (filter invalid smiles ≠ []) as Hbad
      by (intros E; rewrite E in Hsome; simpl in Hsome; lia).
    erewrite bind_run in Hrun by reflexivity.
    erewrite bind_run in Hrun by reflexivity.
    destruct (askyesno lib _ _); cbn [negb] in Hrun.
    + destruct (take_positions_Ok (frame_index f) ii) as (labels & Htake & Hlabels).
      { intros p Hp.
        apply Hpos in Hp as (k & v & -> & Hk & _).
        apply lookup_lt_Some in Hk. unfold nrows in Hlen. simpl. lia. }
      pose proof (keep_flags_valid_rows lib (frame_index f) smiles ii labels
                    Hnd Hlen Hpos Hlabels) as Hkeep.
      unfold mbind at 1, M_bind at 1 in Hrun. unfold lift_res at 1 in Hrun.
      rewrite Htake in Hrun.
      assert (reset_index (drop_rows f labels) = without_invalid_rows lib smiles f) as Hg.
      { unfold reset_index, drop_rows, without_invalid_rows, nrows. simpl.
        rewrite Hkeep. f_equal. rewrite length_mask; [done|].
        unfold valid_rows. by rewrite length_fmap. }
      rewrite Hg in Hrun.
      unfold mbind, M_bind, lift_heap, alloc, log_message, modify, mret, M_ret in Hrun.
      simpl in Hrun. subst run.
      eexists. right. right. split; [done|]. split; [reflexivity|]. done.
    + unfold mret, M_ret in Hrun. subst run.
      eexists. right. left. split; [done|]. split; [reflexivity|]. done.
  - assert (filter invalid smiles = []) as Hbad
      by (destruct (filter invalid smiles); [done | simpl in Hnone; lia]).
    unfold mret, M_ret in Hrun. subst run.
    eexists. left. split; [done|]. split; [reflexivity|]. done.
Qed.

(** A validation that returns has met no list or array among the cells. *)
Lemma validate_smiles_Ok_scalars σ df f idx smiles r σ' :
  objects σ !! df = Some f →
  "smiles" ∈ columns f →
  select f "smiles" = Series idx smiles →
  validate_smiles lib df σ = (Ok r, σ') →
  Forall (λ v, is_array v = false) smiles.
Proof.
  intros Hdf Hin Hsel Hrun.
  unfold validate_smiles in Hrun.
  rewrite (bind_run _ _ _ _ _ (lift_heap_deref _ _ _ Hdf)) in Hrun.
  rewrite decide_False in Hrun by (by intros ?).
  erewrite bind_run in Hrun by reflexivity.
  unfold mbind at 1, M_bind at 1 in Hrun. unfold lift_res at 1 in Hrun.
  rewrite (getitem_Ok _ _ Hin), Hsel in Hrun. cbn [iterate] in Hrun.
  unfold mbind at 1, M_bind at 1 in Hrun. unfold lift_res at 1 in Hrun.
  destruct (validate_loop lib 0 smiles) as [loop|e] eqn:Hloop; [|done].
  by eapply validate_loop_Ok_inv.
Qed.

Lemma mask_valid_rows smiles :
  mask (valid_rows lib smiles) smiles =
    filter (λ v, invalid_smiles_cell lib v = false) smiles.
Proof.
  unfold valid_rows. induction smiles as [|v smiles IH]; [done|]. csimpl.
  destruct (invalid_smiles_cell lib v) eqn:Hv; simpl.
  - rewrite filter_cons_False by (by rewrite Hv). done.
  - rewrite filter_cons_True by done. by f_equal.
Qed.

Lemma filter_invalid_of_valid smiles :
  filter invalid (filter (λ v, invalid_smiles_cell lib v = false) smiles) = [].
Proof.
  induction smiles as [|v smiles IH]; [done|].
  destruct (invalid_smiles_cell lib v) eqn:Hv.
  - rewrite (filter_cons_False (λ v, invalid_smiles_cell lib v = false)) by (by rewrite Hv).
    done.
  - rewrite (filter_cons_True (λ v, invalid_smiles_cell lib v = false)) by done.
    rewrite filter_cons_False by (by rewrite Hv). done.
Qed.

Lemma length_valid_rows_true smiles :
  (length (filter (λ k, k = true) (valid_rows lib smiles)) +
   length (filter invalid smiles) = length smiles)%nat.
Proof.
  unfold valid_rows. induction smiles as [|v smiles IH]; [done|]. csimpl.
  destruct (invalid_smiles_cell lib v) eqn:Hv; cbn [negb].
  - rewrite (filter_cons_False (λ k, k = true)) by done.
    rewrite (filter_cons_True invalid) by done. simpl. lia.
  - rewrite (filter_cons_True (λ k, k = true)) by done.
    rewrite (filter_cons_False invalid) by (by rewrite Hv). simpl. lia.
Qed.

Lemma select_Series_inv f name idx vals :
  select f name = Series idx vals →
  ∃ c, labelled name f = [c] ∧ c.2 = vals ∧ idx = frame_index f.
Proof.
  unfold select. destruct (labelled name f) as [|c [|c' l]]; [done| |done].
  intros [= <- <-]. by exists c.
Qed.

Lemma labelled_masked name keep f :
  labelled name (Frame (Z.of_nat <$> seq 0 (length (filter (λ k, k = true) keep)))
                   (prod_map id (mask keep) <$> frame_data f)) =
    prod_map id (mask keep) <$> labelled name f.
Proof.
  unfold labelled; simpl. induction (frame_data f) as [|[c v] data IH]; [done|].
  csimpl. destruct (decide (c = name)) as [->|Hne].
  - rewrite !filter_cons_True by done. csimpl. by f_equal.
  - rewrite !filter_cons_False by done. done.
Qed.

(** X14. What validation returns is valid.  On a rectangular table with one
    smiles column and distinct labels, the DataFrame that
    [validate_smiles] returns holds exactly the valid SMILES, in order; its
    rows and the invalid ones add up to the rows of the input; it is
    rectangular again; and validating it once more returns the same
    DataFrame without asking anything. *)
Theorem validate_smiles_result_valid σ df f idx smiles out σ' :
  objects σ !! df = Some f →
  "smiles" ∈ columns f →
  select f "smiles" = Series idx smiles →
  NoDup (frame_index f) → rectangular f →
  validate_smiles lib df σ = (Ok (Some out), σ') →
  ∃ g σ'',
    objects σ' !! out = Some g ∧
    select g "smiles" =
      Series (frame_index g) (filter (λ v, invalid_smiles_cell lib v = false) smiles) ∧
    (nrows g + length (filter invalid smiles) = nrows f)%nat ∧
    rectangular g ∧
    validate_smiles lib out σ' = (Ok (Some out), σ'') ∧
    objects σ'' = objects σ' ∧ dialogs σ'' = dialogs σ'.
Proof.
  intros Hdf Hin Hsel Hnd Hrect Hrun.
  destruct (select_Series_inv _ _ _ _ Hsel) as ([cname cvals] & Hlab & Hc & ->).
  simpl in Hc. subst cvals.
  assert (length smiles = nrows f) as Hlen.
  { unfold rectangular in Hrect. rewrite Forall_forall in Hrect.
    apply (Hrect (cname, smiles)).
    assert ((cname, smiles) ∈ labelled "smiles" f) as Hcin
      by (rewrite Hlab; apply list_elem_of_here).
    by apply list_elem_of_filter in Hcin as [_ ?]. }
  pose proof (validate_smiles_Ok_scalars _ _ _ _ _ _ _ Hdf Hin Hsel Hrun) as Hscalar.
  destruct (validate_smiles_run σ df f _ smiles Hdf Hin Hsel Hscalar Hnd Hlen)
    as (τ & [(Hbad & Hrun' & Hobj & _)|[(_ & Hrun' & _)|(Hbad & Hrun' & Hobj)]]);
    rewrite Hrun' in Hrun; [|done|]; injection Hrun as <- <-.
  - assert (filter (λ v, invalid_smiles_cell lib v = false) smiles = smiles) as Hall.
    { clear -Hbad. induction smiles as [|v smiles IH]; [done|].
      destruct (invalid_smiles_cell lib v) eqn:Hv.
      - by rewrite filter_cons_True in Hbad.
      - rewrite filter_cons_False in Hbad by (by rewrite Hv).
        rewrite filter_cons_True by done. f_equal. by apply IH. }
    assert (objects τ !! df = Some f) as Hdf' by (by rewrite Hobj).
    destruct (validate_smiles_run τ df f _ smiles Hdf' Hin Hsel Hscalar Hnd Hlen)
      as (τ' & [(_ & Hrun2 & Hobj2 & Hdlg2)|[(Hbad' & _)|(Hbad' & _)]]); [|done..].
    exists f, τ'. rewrite Hall, Hbad. simpl.
    split; [done|]. split; [done|]. split; [lia|]. done.
  - set (g := without_invalid_rows lib smiles f) in *.
    set (out := fresh (dom (objects σ))) in *.
    assert (objects τ !! out = Some g) as Hout by (rewrite Hobj; apply lookup_insert_eq).
    assert (labelled "smiles" g = [(cname, mask (valid_rows lib smiles) smiles)]) as Hlab'.
    { unfold g, without_invalid_rows. by rewrite labelled_masked, Hlab. }
    assert (select g "smiles" =
            Series (frame_index g) (filter (λ v, invalid_smiles_cell lib v = false) smiles))
      as Hsel'.
    { unfold select. rewrite Hlab'. simpl. by rewrite mask_valid_rows. }
    assert ("smiles" ∈ columns g) as Hin'.
    { unfold columns. apply list_elem_of_fmap.
      exists (cname, mask (valid_rows lib smiles) smiles).
      assert ((cname, mask (valid_rows lib smiles) smiles) ∈ labelled "smiles" g) as Hcin
        by (rewrite Hlab'; apply list_elem_of_here).
      apply list_elem_of_filter in Hcin as [Hname ?]. simpl in Hname. done. }
    assert (nrows g = length (filter (λ k, k = true) (valid_rows lib smiles))) as Hrows.
    { unfold g, without_invalid_rows, nrows; simpl. by rewrite length_fmap, length_seq. }
    assert (rectangular g) as Hrect'.
    { unfold rectangular. rewrite Hrows. unfold g, without_invalid_rows; simpl.
      rewrite Forall_fmap. eapply Forall_impl; [exact Hrect|].
      intros [name w] Hw; simpl in *. apply length_mask.
      unfold valid_rows. rewrite length_fmap. lia. }
    assert (NoDup (frame_index g)) as Hnd'.
    { unfold g, without_invalid_rows; simpl.
      apply NoDup_fmap; [apply _|apply NoDup_seq]. }
    assert (length (filter (λ v, invalid_smiles_cell lib v = false) smiles) = nrows g)
      as Hlen'.
    { rewrite Hrows, <- mask_valid_rows. apply length_mask.
      unfold valid_rows. by rewrite length_fmap. }
    assert (Forall (λ v, is_array v = false)
              (filter (λ v, invalid_smiles_cell lib v = false) smiles)) as Hscalar'.
    { rewrite Forall_forall in Hscalar. apply Forall_forall.
      intros v [_ Hv]%list_elem_of_filter. by apply Hscalar. }
    destruct (validate_smiles_run τ out g _ _ Hout Hin' Hsel' Hscalar' Hnd' Hlen')
      as (τ' & [(_ & Hrun2 & Hobj2 & Hdlg2)|[(Hbad' & _)|(Hbad' & _)]]);
      [|by rewrite filter_invalid_of_valid in Hbad'..].
    exists g, τ'. split; [done|]. split; [done|]. split; [|done].
    rewrite Hrows. pose proof (length_valid_rows_true smiles). lia.
Qed.
End ValidatedTables.

(* ===================================================================== *)
(** * Further properties: colours *)
(* ===================================================================== *)

Lemma reads_back_all : forallb reads_back (Z.of_nat <$> seq 0 256) = true.
Proof. vm_compute. reflexivity. Qed.

Lemma format_02x_reads_back v :
  0 ≤ v ≤ 255 →
  ∃ a b, Colors.format_02x v = [a; b] ∧ Colors.int16 [a; b] = Ok v.
Proof.
  intros Hv. pose proof reads_back_all as Hall.
  rewrite forallb_forall in Hall.
  assert (reads_back v = true) as Hrb.
  { apply Hall. apply list_elem_of_In. apply list_elem_of_fmap.
    exists (Z.to_nat v). split; [lia|]. apply elem_of_seq. lia. }
  unfold reads_back in Hrb.
  destruct (Colors.format_02x v) as [|a [|b [|c l]]]; try done.
  exists a, b. split; [done|].
  destruct (Colors.int16 [a; b]) as [n|e]; [|done].
  apply Z.eqb_eq in Hrb. by subst.
Qed.

Lemma hex_to_RGB_of_formatted c r g b :
  0 ≤ r ≤ 255 → 0 ≤ g ≤ 255 → 0 ≤ b ≤ 255 →
  Colors.hex_to_RGB
    (c :: Colors.format_02x r ++ Colors.format_02x g ++ Colors.format_02x b)
  = Ok [r; g; b].
Proof.
  intros Hr Hg Hb.
  destruct (format_02x_reads_back r Hr) as (r1 & r2 & -> & Hri).
  destruct (format_02x_reads_back g Hg) as (g1 & g2 & -> & Hgi).
  destruct (format_02x_reads_back b Hb) as (b1 & b2 & -> & Hbi).
  unfold Colors.hex_to_RGB, Colors.slice. cbn [drop take app Nat.sub].
  by rewrite Hri, Hgi, Hbi.
Qed.

(** X15. Writing three channel values between 0 and 255 the way
    [get_color_gradient] does, after any first character, and reading the
    string with [hex_to_RGB] gives the three values back, and the string
    has seven characters. *)
Theorem hex_to_RGB_format_round_trip c r g b :
  0 ≤ r ≤ 255 → 0 ≤ g ≤ 255 → 0 ≤ b ≤ 255 →
  let colour := c :: Colors.format_02x r ++ Colors.format_02x g ++ Colors.format_02x b in
  Colors.hex_to_RGB colour = Ok [r; g; b] ∧ length colour = 7%nat.
Proof.
  intros Hr Hg Hb colour. split; [by apply hex_to_RGB_of_formatted|].
  destruct (format_02x_reads_back r Hr) as (r1 & r2 & Hfr & _).
  destruct (format_02x_reads_back g Hg) as (g1 & g2 & Hfg & _).
  destruct (format_02x_reads_back b Hb) as (b1 & b2 & Hfb & _).
  unfold colour. by rewrite Hfr, Hfg, Hfb.
Qed.

Lemma all_ascii_complete c : c ∈ all_ascii.
Proof.
  unfold all_ascii. apply list_elem_of_fmap. exists (nat_of_ascii c).
  split; [by rewrite ascii_nat_embedding|].
  apply elem_of_seq. pose proof (nat_ascii_bounded c). lia.
Qed.

Lemma channel_in_range_pairs :
  forallb (λ a, forallb (λ b, channel_in_range [a; b]) all_ascii) all_ascii = true.
Proof. vm_compute. reflexivity. Qed.

Lemma channel_in_range_singles :
  forallb (λ a, channel_in_range [a]) all_ascii = true.
Proof. vm_compute. reflexivity. Qed.

Lemma channel_in_range_short s :
  (length s ≤ 2)%nat → channel_in_range s = true.
Proof.
  destruct s as [|a [|b [|c l]]]; simpl; intros Hlen; [reflexivity| | |lia].
  - pose proof channel_in_range_singles as H. rewrite forallb_forall in H.
    apply H, list_elem_of_In, all_ascii_complete.
  - pose proof channel_in_range_pairs as H. rewrite forallb_forall in H.
    specialize (H a (proj1 (list_elem_of_In _ _) (all_ascii_complete a))).
    rewrite forallb_forall in H.
    apply H, list_elem_of_In, all_ascii_complete.
Qed.

Lemma length_slice s i j : (length (Colors.slice s i j) ≤ j - i)%nat.
Proof. unfold Colors.slice. rewrite length_take. lia. Qed.

Lemma int16_slice s i n :
  Colors.int16 (Colors.slice s i (i + 2)) = Ok n → -15 ≤ n ≤ 255.
Proof.
  intros H. pose proof (channel_in_range_short (Colors.slice s i (i + 2))) as Hr.
  unfold channel_in_range in Hr. rewrite H in Hr.
  assert ((-15 <=? n) && (n <=? 255) = true) as Hb.
  { apply Hr. pose proof (length_slice s i (i + 2)). lia. }
  apply andb_true_iff in Hb as [?%Z.leb_le ?%Z.leb_le]. lia.
Qed.

Lemma int16_slice_Raise s i e :
  Colors.int16 (Colors.slice s i (i + 2)) = Raise e →
  e = Colors.invalid_literal (Colors.slice s i (i + 2)).
Proof.
  intros H. pose proof (channel_in_range_short (Colors.slice s i (i + 2))) as Hr.
  unfold channel_in_range in Hr. rewrite H in Hr.
  eapply bool_decide_eq_true_1, Hr. pose proof (length_slice s i (i + 2)). lia.
Qed.

(** X16. On ASCII text [hex_to_RGB] reads the characters at positions 1 to 6
    and nothing else: the first character is never checked and what
    follows the seventh is ignored.  A string of fewer than six
    characters, such as the short form of a colour, raises the
    [ValueError] of [int()] for one of the three slices, whose text quotes
    that slice.  When it returns, it returns three channels, none above
    255 and none below -15 (a sign character is accepted in front of a
    single digit). *)
Theorem hex_to_RGB_reads_six_characters :
  (∀ a b t,
      Forall (λ c, ascii_char c = true) (a :: b :: t) →
      (6 ≤ length t)%nat →
      Colors.hex_to_RGB (a :: t) = Colors.hex_to_RGB (b :: take 6 t)) ∧
  (∀ s,
      Forall (λ c, ascii_char c = true) s →
      (length s < 6)%nat →
      ∃ i, i ∈ [1; 3; 5]%nat ∧
           Colors.hex_to_RGB s =
             Raise (Colors.invalid_literal (Colors.slice s i (i + 2))) ∧
           exn_cls (Colors.invalid_literal (Colors.slice s i (i + 2))) = ValueError) ∧
  (∀ s rgb,
      Forall (λ c, ascii_char c = true) s →
      Colors.hex_to_RGB s = Ok rgb →
      ∃ r g b, rgb = [r; g; b] ∧ -15 ≤ r ≤ 255 ∧ -15 ≤ g ≤ 255 ∧ -15 ≤ b ≤ 255).
Proof.
  split; [|split].
  - intros a b t _ Hlen.
    destruct t as [|t1 [|t2 [|t3 [|t4 [|t5 [|t6 t]]]]]]; simpl in Hlen; try lia.
    reflexivity.
  - intros s _ Hlen. unfold Colors.hex_to_RGB.
    destruct (Colors.int16 (Colors.slice s 1 3)) as [r|e] eqn:H1.
    2:{ exists 1%nat. split; [set_solver|]. split; [|done].
        by rewrite (int16_slice_Raise s 1 e H1). }
    destruct (Colors.int16 (Colors.slice s 3 5)) as [g|e] eqn:H2.
    2:{ exists 3%nat. split; [set_solver|]. split; [|done].
        by rewrite (int16_slice_Raise s 3 e H2). }
    exists 5%nat. split; [set_solver|]. split; [|done].
    change (5 + 2)%nat with 7%nat.
    assert (Colors.slice s 5 7 = []) as ->; [|reflexivity].
    unfold Colors.slice. rewrite drop_ge by lia. done.
  - intros s rgb _. unfold Colors.hex_to_RGB.
    destruct (Colors.int16 (Colors.slice s 1 3)) as [r|e] eqn:H1; [|done].
    destruct (Colors.int16 (Colors.slice s 3 5)) as [g|e] eqn:H2; [|done].
    destruct (Colors.int16 (Colors.slice s 5 7)) as [b|e] eqn:H3; [|done].
    intros [= <-]. exists r, g, b. split; [done|].
    split; [exact (int16_slice s 1 r H1)|].
    split; [exact (int16_slice s 3 g H2) | exact (int16_slice s 5 b H3)].
Qed.

Lemma hex_to_RGB_three s rgb :
  Colors.hex_to_RGB s = Ok rgb → ∃ r g b, rgb = [r; g; b].
Proof.
  unfold Colors.hex_to_RGB.
  destruct (Colors.int16 (Colors.slice s 1 3)); [|done].
  destruct (Colors.int16 (Colors.slice s 3 5)); [|done].
  destruct (Colors.int16 (Colors.slice s 5 7)); [|done].
  intros [= <-]. eauto.
Qed.

(** X17. [get_color_gradient] refuses any [n] that is not above 1 with an
    [AssertionError], before it looks at the colours.  For [n > 1] and two
    colours that [hex_to_RGB] reads, it returns [n] colours, and each of
    them whose blended channels lie between 0 and 255 is read back by
    [hex_to_RGB] as exactly those channels. *)
Theorem get_color_gradient_colours blend c1 c2 n :
  (n ≤ 1 →
     Colors.get_color_gradient blend c1 c2 n =
       Raise (Exn (OtherException "AssertionError") EmptyString)) ∧
  (∀ rgb1 rgb2,
     n > 1 →
     Colors.hex_to_RGB c1 = Ok rgb1 → Colors.hex_to_RGB c2 = Ok rgb2 →
     ∃ colours,
       Colors.get_color_gradient blend c1 c2 n = Ok colours ∧
       length colours = Z.to_nat n ∧
       ∀ x colour,
         colours !! x = Some colour →
         Forall (λ v, 0 ≤ v ≤ 255)
           (zip_with (λ a b, blend a b (Z.of_nat x) n) rgb1 rgb2) →
         Colors.hex_to_RGB colour =
           Ok (zip_with (λ a b, blend a b (Z.of_nat x) n) rgb1 rgb2)).
Proof.
  split.
  - intros Hn. unfold Colors.get_color_gradient. rewrite decide_False by lia. done.
  - intros rgb1 rgb2 Hn H1 H2. unfold Colors.get_color_gradient.
    rewrite decide_True by done. rewrite H1, H2.
    eexists. split; [reflexivity|]. split.
    + unfold Colors.range. by rewrite !length_fmap, length_seq.
    + intros x colour Hx Hrange.
      unfold Colors.range in Hx. rewrite !list_lookup_fmap in Hx.
      destruct (seq 0 (Z.to_nat n) !! x) as [k|] eqn:Hk; [|done].
      apply lookup_seq in Hk as [-> _]. simpl in Hx. injection Hx as <-.
      destruct (hex_to_RGB_three _ _ H1) as (r1 & g1 & b1 & ->).
      destruct (hex_to_RGB_three _ _ H2) as (r2 & g2 & b2 & ->).
      cbn [zip_with fmap list_fmap concat] in *. rewrite app_nil_r.
      apply Forall_cons in Hrange as [Hr Hrange].
      apply Forall_cons in Hrange as [Hg Hrange].
      apply Forall_cons in Hrange as [Hb _].
      by apply hex_to_RGB_of_formatted.
Qed.

(* ===================================================================== *)
(** * Further properties: the window of ms2_plot *)
(* ===================================================================== *)

Section Bisect.
Variable below : Q → bool.
Variable arr : list Q.

(** [below] holds on a prefix of [arr]: once it fails it keeps failing. *)
Hypothesis below_prefix : ∀ i j v w,
  (i ≤ j)%nat → arr !! i = Some v → arr !! j = Some w →
  below w = true → below v = true.

Lemma bisect_spec fuel : ∀ lo hi,
  (lo ≤ hi ≤ length arr)%nat → (hi - lo ≤ fuel)%nat →
  (∀ i v, (i < lo)%nat → arr !! i = Some v → below v = true) →
  (∀ i v, (hi ≤ i)%nat → arr !! i = Some v → below v = false) →
  let k := Spectrum.bisect fuel below arr lo hi in
  (k ≤ length arr)%nat ∧
  ∀ i v, arr !! i = Some v → (below v = true ↔ (i < k)%nat).
Proof.
  induction fuel as [|fuel IH]; intros lo hi Hb Hfuel Hlo Hhi.
  - cbn [Spectrum.bisect]. cbv zeta. assert (hi = lo) as -> by lia. split; [lia|].
    intros i v Hi. split.
    + intros Hv. destruct (decide (i < lo)%nat); [done|].
      rewrite (Hhi i v) in Hv by (done || lia). done.
    + intros Hlt. by eapply Hlo.
  - cbn [Spectrum.bisect]. cbv zeta. destruct (lo <? hi)%nat eqn:Hlt.
    + apply Nat.ltb_lt in Hlt.
      set (mid := (lo + (hi - lo) / 2)%nat).
      assert (lo ≤ mid < hi)%nat as Hmid.
      { unfold mid. split; [lia|].
        pose proof (Nat.div_lt (hi - lo) 2). lia. }
      destruct (lookup_lt_is_Some_2 arr mid) as [v Hv]; [lia|].
      rewrite Hv. destruct (below v) eqn:Hbv.
      * apply IH; [lia|lia| |done].
        intros i w Hi Hw. eapply (below_prefix i mid w v); [lia|done..].
      * apply IH; [lia|lia|done|].
        intros i w Hi Hw. destruct (below w) eqn:Hbw; [|done].
        rewrite (below_prefix mid i v w) in Hbv; [done|lia|done..].
    + apply Nat.ltb_ge in Hlt. assert (hi = lo) as -> by lia. split; [lia|].
      intros i v Hi. split.
      * intros Hv. destruct (decide (i < lo)%nat); [done|].
        rewrite (Hhi i v) in Hv by (done || lia). done.
      * intros Hl. by eapply Hlo.
Qed.

Lemma bisect_whole :
  let k := Spectrum.bisect (length arr) below arr 0 (length arr) in
  (k ≤ length arr)%nat ∧
  ∀ i v, arr !! i = Some v → (below v = true ↔ (i < k)%nat).
Proof.
  apply bisect_spec; [lia|lia| |].
  - intros i v Hi. lia.
  - intros i v Hi Hv. apply lookup_lt_Some in Hv. lia.
Qed.
End Bisect.

Lemma sorted_lookup (arr : list Q) i j v w :
  StronglySorted Qle arr → (i ≤ j)%nat →
  arr !! i = Some v → arr !! j = Some w → (v <= w)%Q.
Proof.
  intros Hs. revert i j v w.
  induction Hs as [|a arr Hs IH Hall]; intros i j v w Hij Hi Hj.
  - done.
  - destruct i as [|i], j as [|j]; simpl in *.
    + injection Hi as <-. injection Hj as <-. apply Qle_refl.
    + injection Hi as <-. rewrite Forall_forall in Hall.
      apply Hall. by eapply list_elem_of_lookup_2.
    + lia.
    + apply (IH i j); [lia|done..].
Qed.

(** Keeping the elements from the first one that fails [A] up to the last
    one that passes [B], when both hold on prefixes. *)
Lemma slice_filter {T} (A B : T → bool) (a : list T) : ∀ l r,
  (∀ i v, a !! i = Some v → (A v = true ↔ (i < l)%nat)) →
  (∀ i v, a !! i = Some v → (B v = true ↔ (i < r)%nat)) →
  Spectrum.slice a l r = filter (λ v, negb (A v) && B v = true) a.
Proof.
  unfold Spectrum.slice. induction a as [|v a IH]; intros l r HA HB.
  - by rewrite drop_nil, take_nil.
  - assert (take (pred r - pred l) (drop (pred l) a) =
            filter (λ v, negb (A v) && B v = true) a) as Hrest.
    { apply IH.
      - intros i w Hi. rewrite (HA (S i) w Hi). lia.
      - intros i w Hi. rewrite (HB (S i) w Hi). lia. }
    pose proof (HA 0%nat v eq_refl) as HA0. pose proof (HB 0%nat v eq_refl) as HB0.
    destruct l as [|l].
    + assert (A v = false) as HAv by (destruct (A v); [lia|done]).
      destruct r as [|r].
      * assert (B v = false) as HBv by (destruct (B v); [lia|done]).
        rewrite filter_cons_False by (by rewrite HAv, HBv).
        rewrite <- Hrest. done.
      * assert (B v = true) as HBv by (apply HB0; lia).
        rewrite filter_cons_True by (by rewrite HAv, HBv).
        rewrite <- Hrest. simpl. by rewrite Nat.sub_0_r.
    + assert (A v = true) as HAv by (apply HA0; lia).
      rewrite filter_cons_False by (by rewrite HAv).
      rewrite <- Hrest. simpl. by destruct r.
Qed.

Lemma slice_fmap {T U} (g : T → U) (a : list T) l r :
  Spectrum.slice (g <$> a) l r = g <$> Spectrum.slice a l r.
Proof. unfold Spectrum.slice. by rewrite fmap_take, fmap_drop. Qed.

Lemma zip_fmap_fst_snd {T U} (a : list (T * U)) : zip a.*1 a.*2 = a.
Proof. induction a as [|[x y] a IH]; csimpl; [done|]. by f_equal. Qed.

(** X18. With the masses in increasing order, [ms2_plot] draws exactly the
    peaks whose m/z lies between [lower] and [upper], both bounds
    included, in their order; a bound that is not given does not restrict,
    and an empty window draws nothing.  (When a precursor is given the
    spectrum is truncated first, and the window is taken of the result.) *)
Theorem ms2_plot_window_peaks truncate msms_1 pmz lower upper :
  let shown :=
    match pmz with
    | Some p => truncate msms_1 p
    | None => msms_1
    end in
  StronglySorted Qle shown.*1 →
  let window := Spectrum.ms2_plot_window truncate msms_1 pmz lower upper in
  zip window.1 window.2 =
    filter (λ peak, Spectrum.in_window lower upper peak.1 = true) shown ∧
  length window.1 = length window.2.
Proof.
  intros shown Hsorted window.
  pose (l := match lower with
             | Some l => Spectrum.searchsorted_left shown.*1 l
             | None => 0%nat
             end).
  pose (r := match upper with
             | Some u => Spectrum.searchsorted_right shown.*1 u
             | None => length shown.*1
             end).
  assert (window = (Spectrum.slice shown.*1 l r, Spectrum.slice shown.*2 l r)) as Hw
    by reflexivity.
  clearbody window. subst window. cbn [fst snd].
  rewrite !slice_fmap. split; [|by rewrite !length_fmap].
  rewrite zip_fmap_fst_snd.
  set (A := λ peak : Q * Q,
         match lower with Some lo => Spectrum.Qlt_bool peak.1 lo | None => false end).
  set (B := λ peak : Q * Q,
         match upper with Some up => Qle_bool peak.1 up | None => true end).
  rewrite (slice_filter A B shown l r).
  - apply list_filter_iff. intros [mz int]. unfold A, B, Spectrum.in_window; simpl.
    destruct lower as [lo|], upper as [up|]; unfold Spectrum.Qlt_bool;
      by rewrite ?negb_involutive.
  - intros i peak Hi. unfold A, l. destruct lower as [lo|]; [|split; [done|lia]].
    assert (shown.*1 !! i = Some peak.1) as Hi' by (by rewrite list_lookup_fmap, Hi).
    apply (bisect_whole (λ v, Spectrum.Qlt_bool v lo) shown.*1); [|done].
    intros i' j v w Hij Hv Hw. unfold Spectrum.Qlt_bool.
    rewrite !negb_true_iff, <- !not_true_iff_false, !Qle_bool_iff.
    intros Hn Hle. apply Hn. eapply Qle_trans; [exact Hle|].
    by eapply (sorted_lookup shown.*1 i' j).
  - intros i peak Hi. unfold B, r. destruct upper as [up|].
    + assert (shown.*1 !! i = Some peak.1) as Hi' by (by rewrite list_lookup_fmap, Hi).
      apply (bisect_whole (λ v, Qle_bool v up) shown.*1); [|done].
      intros i' j v w Hij Hv Hw. rewrite !Qle_bool_iff.
      intros Hle. eapply Qle_trans; [|exact Hle].
      by eapply (sorted_lookup shown.*1 i' j).
    + split; [|done]. intros _. rewrite length_fmap. by eapply lookup_lt_Some.
Qed.
(* ===================================================================== *)
(** * The runtime of the examples *)
(* ===================================================================== *)

(** A runtime for ASCII text: [lower] and [strip] are the ASCII ones, and
    the values assigned to a duplicated label, taken to be scalars, fill
    one column each. *)
#[global] Instance ascii_runtime : Runtime.
Proof.
  refine {| lower := ascii_lower;
            strip := ascii_strip;
            assign_duplicated := λ n values, Ok (replicate n <$> values) |}.
  - apply ascii_lower_idempotent.
  - done.
  - intros s. destruct (ascii_strip_spec s) as (l & r & Hs & _). eauto.
  - apply ascii_strip_idempotent.
Defined.

(* ===================================================================== *)
(** * The statements at concrete inputs *)
(* ===================================================================== *)

Lemma denoising_pipeline_lowercases_caller_frame_witness :
  let h : gmap loc frame := {[1%positive := Examples.library_table]} in
  let r := denoising_pipeline Examples.batch_identity 1%positive (5 # 1000) h in
  h !! 1%positive = Some Examples.library_table ∧
  r.2 !! 1%positive = Some (relabel lower Examples.library_table) ∧
  columns (relabel lower Examples.library_table) = ["name"; "peaks"; "smiles"; "adducts"] ∧
  r.1 = Ok 2%positive ∧
  ∃ g, r.2 !! 2%positive = Some g ∧
       frame_index g = [0; 1] ∧
       other_columns "denoised_peaks" g =
         frame_data (relabel lower Examples.library_table) ∧
       columns g = ["name"; "peaks"; "smiles"; "adducts"; "denoised_peaks"].
Proof.
  intros h r.
  assert (h !! 1%positive = Some Examples.library_table) as Hl by reflexivity.
  split; [exact Hl|].
  destruct (denoising_pipeline_lowercases_caller_frame
              Examples.batch_identity h 1%positive Examples.library_table (5 # 1000) Hl)
    as (H1 & H2 & _ & H3).
  split; [exact H1|]. split; [exact H2|].
  assert (r.1 = Ok 2%positive) as Hr by (vm_compute; reflexivity).
  split; [exact Hr|].
  destruct (H3 2%positive Hr) as (_ & _ & g & Hg & Hidx & Hother & Hcols).
  exists g. split; [exact Hg|]. split; [exact Hidx|]. split; [exact Hother|].
  destruct Hcols as [Hcols|Hcols]; [|exact Hcols].
  exfalso.
  assert (r.2 !! 2%positive =
          Some (append_column "denoised_peaks"
                  [PArray "[[31.0 100.0]]"; PArray "[[15.0 100.0]]"]
                  (relabel lower Examples.library_table))) as Hg'
    by (vm_compute; reflexivity).
  assert (Some g = Some (append_column "denoised_peaks"
                  [PArray "[[31.0 100.0]]"; PArray "[[15.0 100.0]]"]
                  (relabel lower Examples.library_table))) as Heq
    by (etransitivity; [symmetry; exact Hg | exact Hg']).
  injection Heq as ->. vm_compute in Hcols. discriminate Hcols.
Defined.

Lemma denoising_pipeline_sets_denoised_peaks_witness :
  let h : gmap loc frame := {[1%positive := Examples.library_table]} in
  let v := [PArray "[[31.0 100.0]]"; PArray "[[15.0 100.0]]"] in
  ∃ output_df h' g,
    denoising_pipeline Examples.batch_identity 1%positive (5 # 1000) h = (Ok output_df, h') ∧
    h' !! output_df = Some g ∧
    g = append_column "denoised_peaks" v (relabel lower Examples.library_table).
Proof.
  intros h v.
  destruct (denoising_pipeline_sets_denoised_peaks
              Examples.batch_identity h 1%positive Examples.library_table (5 # 1000) v)
    as (out & h' & g & Hrun & _ & Hout & _ & Hg & _);
    [reflexivity | by_compute | by_compute | by_compute | by_compute
    | reflexivity | reflexivity |].
  exists out, h', g. split; [exact Hrun|]. split; [exact Hout|].
  rewrite Hg. apply decide_False. by_compute.
Defined.

Lemma standardize_columns_renames_exactly_witness :
  let σ := Examples.session "partial.csv" "csv" "out.csv" (Some (DataFrameRef 1%positive))
             {[1%positive := Examples.partial_table]} in
  ∃ out σ' g,
    standardize_columns 1%positive σ = (Ok out, σ') ∧
    objects σ' !! out = Some g ∧
    columns g = ["peaks"; "smiles"] ∧
    cells g = cells Examples.partial_table.
Proof.
  intros σ.
  destruct (standardize_columns_renames_exactly σ 1%positive Examples.partial_table)
    as (out & σ' & g & Hrun & Hout & Hcols & Hcells & _); [reflexivity|].
  exists out, σ', g. split; [exact Hrun|]. split; [exact Hout|].
  split; [exact Hcols | exact Hcells].
Defined.

(** C3, at a table on which the code goes wrong.  Two libraries were put
    one after the other and both kept their row labels 0 and 1; the
    second row has no SMILES, every other row has a valid one.  The user
    accepts.  The log says that one row was dropped, but two rows are
    gone: the row of CC, which is valid, shares the label 1 with the
    invalid row and is dropped with it.  Removing exactly the invalid row
    would leave three rows. *)
Lemma validate_smiles_drops_valid_row :
  let lib := Examples.environment Examples.reader true in
  let σ := Examples.session "library.msp" "msp" "out.csv" (Some (DataFrameRef 1%positive))
             {[1%positive := Examples.concatenated_table]} in
  let smiles := [PStr "C"; PNaN; PStr "CCO"; PStr "CC"] in
  select Examples.concatenated_table "smiles" = Series [0; 1; 0; 1] smiles ∧
  invalid_smiles_cell lib <$> smiles = [false; true; false; false] ∧
  without_invalid_rows lib smiles Examples.concatenated_table =
    Frame [0; 1; 2] [("smiles", [PStr "C"; PStr "CCO"; PStr "CC"])] ∧
  ∃ σ',
    validate_smiles lib 1%positive σ = (Ok (Some 2%positive), σ') ∧
    objects σ' !! 2%positive =
      Some (Frame [0; 1] [("smiles", [PStr "C"; PStr "CCO"])]) ∧
    log_text σ' =
      ["Validating SMILES structures...";
       "SMILES validation: 3/4 valid, 1 invalid";
       "Invalid SMILES examples: '(missing)'";
       "Dropped 1 rows with invalid SMILES";
       "Remaining rows: 2"].
Proof.
  intros lib σ smiles.
  split; [reflexivity|]. split; [reflexivity|]. split; [reflexivity|].
  eexists. split; [vm_compute; reflexivity|]. split; reflexivity.
Qed.


Lemma fill_missing_smiles_frame_witness :
  let σ := Examples.session "library.msp" "msp" "out.csv" (Some (DataFrameRef 1%positive))
             {[1%positive := Examples.commented_table; 2%positive := Examples.annotated_table]} in
  (∃ σ',
     fill_missing_smiles 1%positive σ = (Ok 1%positive, σ') ∧
     objects σ' !! 1%positive =
       Some (append_column "smiles" [PStr "CCO"; PNone] Examples.commented_table)) ∧
  (∃ σ',
     fill_missing_smiles 2%positive σ = (Raise ambiguous_truth_value, σ') ∧
     objects σ' !! 2%positive = Some Examples.annotated_table).
Proof.
  intros σ. split.
  - destruct (fill_missing_smiles_frame σ 1%positive Examples.commented_table)
      as (r & σ' & f' & Hrun & Hout & _ & _ & _ & _ & _ & Hadd & _); [reflexivity|].
    destruct (Hadd [0; 1] [PStr "ion=pos computed SMILES=CCO"; PStr "no structure"])
      as [-> (extracted & Hx & ->)];
      [by_compute | reflexivity | reflexivity | repeat constructor |].
    assert (extracted = [PStr "CCO"; PNone]) as Hextracted.
    { apply Forall2_cons_inv_l in Hx as (w1 & ws & H1 & Hx & ->).
      apply Forall2_cons_inv_l in Hx as (w2 & ws' & H2 & Hx & ->).
      apply Forall2_nil_inv_l in Hx as ->.
      vm_compute in H1, H2. by injection H1 as <-; injection H2 as <-. }
    rewrite Hextracted in Hout.
    exists σ'. split; [exact Hrun | exact Hout].
  - destruct (fill_missing_smiles_frame σ 2%positive Examples.annotated_table)
      as (r & σ' & f' & Hrun & Hout & _ & _ & _ & _ & _ & _ & Hraise); [reflexivity|].
    destruct (Hraise [0; 1] [PStr "SMILES=CCO"; PArray "['checked', 'SMILES=C']"])
      as [-> ->]; [by_compute | reflexivity | |].
    { apply Exists_cons_tl, Exists_cons_hd. reflexivity. }
    exists σ'. split; [exact Hrun | exact Hout].
Defined.

Lemma load_file_missing_required_columns_witness :
  let lib := Examples.environment Examples.reader true in
  let σ := Examples.session "partial.csv" "csv" "out.csv" None ∅ in
  ∃ σ',
    load_file lib σ = (Ok tt, σ') ∧
    loaded_data σ' = None ∧
    missing_columns (Frame [0; 1]
      [("peaks", [PArray "[[31.0 100.0]]"; PArray "[[15.0 100.0]]"]);
       ("smiles", [PStr "CCO"; PStr "C"])]) = ["adducts"] ∧
    last (dialogs σ') =
      Some (ShowError "Invalid File Format"
              ("Missing required columns: adducts" +:+ nl +:+ nl +:+
               "Available columns: peaks, smiles" +:+ nl +:+ nl +:+
               "Please select a file with 'peaks', 'smiles', and 'adducts' columns.")).
Proof.
  intros lib σ.
  set (f := Frame [0; 1]
      [("peaks", [PArray "[[31.0 100.0]]"; PArray "[[15.0 100.0]]"]);
       ("smiles", [PStr "CCO"; PStr "C"])]).
  destruct (load_file_missing_required_columns lib σ
              (load_and_prepare lib "partial.csv" σ).2 2%positive f)
    as (σ' & Hrun & Hnone & Hdialogs & _);
    [discriminate | reflexivity | vm_compute; reflexivity | vm_compute; reflexivity | |].
  { exists "adducts". split; by_compute. }
  exists σ'. split; [exact Hrun|]. split; [exact Hnone|]. split; [reflexivity|].
  rewrite Hdialogs. apply last_snoc.
Defined.

Lemma exceptions_are_handled_witness :
  let lib := Examples.environment Examples.reader true in
  let σ := Examples.session "missing.msp" "msp" "out.csv" None ∅ in
  let interrupted := Examples.environment Examples.interrupted_reader true in
  (∃ σ',
     load_file lib σ = (Ok tt, σ') ∧
     last (log_text σ') = Some "Error loading file: missing.msp" ∧
     last (dialogs σ') =
       Some (ShowError "Error" ("Failed to load file:" +:+ nl +:+ "missing.msp"))) ∧
  load_file interrupted σ =
    (Raise (Exn KeyboardInterrupt EmptyString),
     set_log_text ["Loading file: missing.msp"] σ) ∧
  (∃ σ',
     _process_data_thread lib MoreExamples.fresh_session = (Ok tt, σ') ∧
     last (dialogs σ') =
       Some (ShowError "Error"
               ("Processing failed:" +:+ nl +:+
                "'NoneType' object has no attribute 'columns'"))) ∧
  ∃ σ',
    _process_data_thread Examples.interrupted_environment MoreExamples.loaded_session =
      (Raise (Exn KeyboardInterrupt EmptyString), σ') ∧
    dialogs σ' = [] ∧ progress_label σ' = "0%".
Proof.
  intros lib σ interrupted.
  split; [|split; [|split]].
  - destruct (exceptions_are_handled lib σ) as (Hload & _).
    eexists. split.
    + apply (Hload (Exn (OtherException "FileNotFoundError") "missing.msp")
               (set_log_text ["Loading file: missing.msp"] σ));
        [discriminate | reflexivity | vm_compute; reflexivity].
    + split; reflexivity.
  - destruct (exceptions_are_handled interrupted σ) as (Hload & _).
    apply (Hload (Exn KeyboardInterrupt EmptyString)
             (set_log_text ["Loading file: missing.msp"] σ));
      [discriminate | reflexivity | vm_compute; reflexivity].
  - destruct (exceptions_are_handled lib MoreExamples.fresh_session) as (_ & Hthread & _).
    eexists. split.
    + apply (Hthread (no_columns_attribute "NoneType")
               (process_data_thread_body lib MoreExamples.fresh_session).2).
      vm_compute. reflexivity.
    + reflexivity.
  - destruct (exceptions_are_handled Examples.interrupted_environment
                MoreExamples.loaded_session) as (_ & Hthread & _).
    eexists. split.
    + apply (Hthread (Exn KeyboardInterrupt EmptyString)
               (process_data_thread_body Examples.interrupted_environment
                  MoreExamples.loaded_session).2).
      vm_compute. reflexivity.
    + split; reflexivity.
Defined.

(** C7, as it is worded, fails, whatever the runtime, in [load_file] and
    in the thread: an exception that is not an instance of [Exception],
    raised while the file is read or while the spectra are denoised, is
    not handled and leaves the function. *)
Lemma keyboard_interrupt_is_not_handled :
  ¬ (∃ RT : Runtime,
     ∀ lib σ e σ1,
       input_file_path σ ≠ EmptyString →
       path_exists lib (input_file_path σ) = true →
       load_file_body lib (input_file_path σ) σ = (Raise e, σ1) →
       ∃ σ', load_file lib σ = (Ok tt, σ')) ∧
  ¬ (∃ RT : Runtime,
     ∀ lib σ e σ1,
       process_data_thread_body lib σ = (Raise e, σ1) →
       ∃ σ', _process_data_thread lib σ = (Ok tt, σ')).
Proof.
  split.
  - intros [RT H].
    destruct (H (Examples.environment Examples.interrupted_reader true)
                (Examples.session "library.msp" "msp" "out.csv" None ∅)
                (Exn KeyboardInterrupt EmptyString)
                (set_log_text ["Loading file: library.msp"]
                   (Examples.session "library.msp" "msp" "out.csv" None ∅)))
      as (σ' & Hrun); [discriminate | reflexivity | |].
    + rewrite (load_and_prepare_read_fails_body _ _ _ (Exn KeyboardInterrupt EmptyString));
        [reflexivity | left; split; reflexivity].
    + rewrite load_file_try in Hrun by done. unfold try_except in Hrun.
      rewrite (load_and_prepare_read_fails_body _ _ _ (Exn KeyboardInterrupt EmptyString))
        in Hrun by (left; split; reflexivity).
      discriminate Hrun.
  - intros [RT H].
    pose proof (relabel_lower_ascii Examples.denoised_table eq_refl) as Hlow.
    assert (denoising_pipeline Examples.interrupted_batch 1%positive
              (mass_tolerance MoreExamples.loaded_session)
              (objects MoreExamples.loaded_session)
            = (Raise (Exn KeyboardInterrupt EmptyString),
               <[1%positive := relabel lower Examples.denoised_table]>
                 (objects MoreExamples.loaded_session))) as Hpipe.
    { rewrite (denoising_pipeline_run _ _ _ Examples.denoised_table) by done.
      rewrite Hlow. reflexivity. }
    pose proof (process_data_thread_body_pipeline Examples.interrupted_environment
                  MoreExamples.loaded_session 1%positive eq_refl _ _ Hpipe) as Hbody.
    destruct (H _ _ _ _ Hbody) as (σ' & Hrun).
    unfold _process_data_thread, try_except in Hrun. rewrite Hbody in Hrun.
    discriminate Hrun.
Qed.

Lemma float_guard_identity_witness :
  Plotter.float_guard (Plotter.ArgFloat None) (Plotter.ArgArray [(100 # 1, 1 # 1)%Q]) = false ∧
  Plotter.head_to_tail_plot
    (λ _, Raise (Exn ValueError "could not convert string to float"))
    (λ _ _ _, Ok Plotter.ArgNone)
    (Plotter.ArgFloat None) (Plotter.ArgArray [(100 # 1, 1 # 1)%Q]) Plotter.ArgNone
  = Ok Plotter.ArgNone.
Proof.
  destruct float_guard_identity as (_ & _ & H).
  destruct (H (Plotter.ArgFloat None) (Plotter.ArgArray [(100 # 1, 1 # 1)%Q]))
    as [Hguard Hplot]; [by eexists | by eexists |].
  split; [exact Hguard|]. apply Hplot.
Defined.

(* ===================================================================== *)
(** * The further properties at concrete inputs *)
(* ===================================================================== *)

Lemma standardize_columns_idempotent_witness :
  let σ := Examples.session "partial.csv" "csv" "out.csv" (Some (DataFrameRef 1%positive))
             {[1%positive := Examples.partial_table]} in
  ∃ out1 σ1 out2 σ2 g,
    standardize_columns 1%positive σ = (Ok out1, σ1) ∧
    objects σ1 !! out1 = Some g ∧
    standardize_columns out1 σ1 = (Ok out2, σ2) ∧
    objects σ2 !! out2 = Some g.
Proof.
  intros σ.
  apply (standardize_columns_idempotent σ 1%positive Examples.partial_table).
  reflexivity.
Defined.

Lemma fill_missing_smiles_idempotent_witness :
  let σ := Examples.session "library.msp" "msp" "out.csv" (Some (DataFrameRef 1%positive))
             {[1%positive := Examples.commented_table]} in
  let σ' := (fill_missing_smiles 1%positive σ).2 in
  fill_missing_smiles 1%positive σ = (Ok 1%positive, σ') ∧
  fill_missing_smiles 1%positive σ' = (Ok 1%positive, σ').
Proof.
  intros σ σ'.
  assert (fill_missing_smiles 1%positive σ = (Ok 1%positive, σ')) as Hrun
    by (vm_compute; reflexivity).
  split; [exact Hrun|].
  destruct (fill_missing_smiles_idempotent σ 1%positive Examples.commented_table
              1%positive σ') as [_ H]; [reflexivity | exact Hrun | exact H].
Defined.

Lemma denoising_pipeline_missing_column_witness :
  let h : gmap loc frame := {[1%positive := Examples.partial_table]} in
  denoising_pipeline Examples.batch_identity 1%positive (5 # 1000) h =
    (Raise (Exn KeyError "'peaks'"),
     <[1%positive := relabel lower Examples.partial_table]> h).
Proof.
  intros h.
  apply (denoising_pipeline_missing_column Examples.batch_identity h 1%positive
           Examples.partial_table (5 # 1000) "peaks"); [reflexivity|].
  vm_compute. reflexivity.
Defined.

Lemma denoising_pipeline_second_run_witness :
  let h : gmap loc frame := {[1%positive := Examples.library_table]} in
  let first := denoising_pipeline Examples.batch_identity 1%positive (5 # 1000) h in
  ∃ r2 h2,
    denoising_pipeline Examples.batch_identity 1%positive (5 # 1000) first.2 = (r2, h2) ∧
    h2 !! 1%positive = first.2 !! 1%positive.
Proof.
  intros h first.
  destruct (denoising_pipeline_second_run Examples.batch_identity h 1%positive
              Examples.library_table (5 # 1000) first.1 first.2)
    as (r2 & h2 & Hrun & Hin & _); [reflexivity | apply surjective_pairing |].
  exists r2, h2. split; [exact Hrun | exact Hin].
Defined.

Lemma denoising_pipeline_rectangular_witness :
  let h : gmap loc frame := {[1%positive := Examples.library_table]} in
  let run := denoising_pipeline Examples.batch_identity 1%positive (5 # 1000) h in
  let g := append_column "denoised_peaks"
             [PArray "[[31.0 100.0]]"; PArray "[[15.0 100.0]]"]
             (relabel lower Examples.library_table) in
  run.1 = Ok 2%positive ∧ rectangular g ∧ frame_index g = [0; 1].
Proof.
  intros h run g.
  assert (run = (Ok 2%positive, run.2)) as Hrun by (vm_compute; reflexivity).
  split; [by rewrite Hrun|].
  destruct (denoising_pipeline_rectangular Examples.batch_identity h 1%positive
              Examples.library_table (5 # 1000) 2%positive run.2 g)
    as (Hrect & Hidx & _);
    [reflexivity | | by_compute | exact Hrun | vm_compute; reflexivity |].
  - unfold rectangular. repeat constructor.
  - split; [exact Hrect | exact Hidx].
Defined.

Lemma load_file_success_witness :
  let lib := Examples.environment Examples.reader true in
  let σ := Examples.session "library.msp" "msp" "out.csv" None ∅ in
  ∃ σ',
    load_file lib σ = (Ok tt, σ') ∧
    loaded_data σ' = Some (DataFrameRef 2%positive) ∧
    last (dialogs σ') =
      Some (ShowInfo "Success" ("File loaded!" +:+ nl +:+ " Total spectra loaded: 2")).
Proof.
  intros lib σ.
  destruct (load_file_success lib σ (load_and_prepare lib "library.msp" σ).2 2%positive
              (relabel standard_name Examples.library_table))
    as (σ' & Hrun & Hld & _ & Hdlg & _);
    [discriminate | reflexivity | vm_compute; reflexivity | vm_compute; reflexivity
    | by_compute | by_compute | by_compute |].
  exists σ'. split; [exact Hrun|]. split; [exact Hld|].
  rewrite Hdlg. apply last_snoc.
Defined.

Lemma load_file_cancelled_witness :
  let lib := Examples.environment MoreExamples.reader false in
  let σ := Examples.session "mixed.csv" "csv" "out.csv" None ∅ in
  ∃ σ',
    load_file lib σ = (Ok tt, σ') ∧
    loaded_data σ' = None ∧
    last (log_text σ') = Some "Data loading cancelled by user due to invalid SMILES".
Proof.
  intros lib σ.
  destruct (load_file_cancelled lib σ (load_and_prepare lib "mixed.csv" σ).2)
    as (σ' & Hrun & Hld & Hlog & _);
    [discriminate | reflexivity | vm_compute; reflexivity |].
  exists σ'. split; [exact Hrun|]. split; [exact Hld|].
  rewrite Hlog. apply last_snoc.
Defined.

Lemma load_file_failure_keeps_data_witness :
  let lib := Examples.environment Examples.reader true in
  let interrupted := Examples.environment Examples.interrupted_reader true in
  let σ := Examples.session "missing.msp" "msp" "out.csv" (Some (DataFrameRef 1%positive))
             {[1%positive := Examples.denoised_table]} in
  (∃ σ' message,
     load_file lib σ = (Ok tt, σ') ∧
     loaded_data σ' = Some (DataFrameRef 1%positive) ∧
     objects σ' = objects σ ∧
     dialogs σ' = [ShowError "Error" message]) ∧
  (∃ σ',
     load_file interrupted σ = (Raise (Exn KeyboardInterrupt EmptyString), σ') ∧
     loaded_data σ' = Some (DataFrameRef 1%positive) ∧
     objects σ' = objects σ ∧
     dialogs σ' = []).
Proof.
  intros lib interrupted σ. split.
  - destruct (load_file_failure_keeps_data lib σ)
      as (r & σ' & Hrun & Hld & Hobj & _ & Hr).
    { right. right. exists (Exn (OtherException "FileNotFoundError") "missing.msp").
      left. split; reflexivity. }
    destruct r as [[]|e].
    + destruct Hr as [message Hdlg]. exists σ', message.
      split; [exact Hrun|]. split; [exact Hld|]. split; [exact Hobj | exact Hdlg].
    + exfalso. destruct Hr as (He & _ & _ & _ & [[_ Hread]|[Hcsv _]]).
      * injection Hread as <-. discriminate He.
      * discriminate Hcsv.
  - destruct (load_file_failure_keeps_data interrupted σ)
      as (r & σ' & Hrun & Hld & Hobj & _ & Hr).
    { right. right. exists (Exn KeyboardInterrupt EmptyString).
      left. split; reflexivity. }
    destruct r as [[]|e].
    + exfalso. vm_compute in Hrun. discriminate Hrun.
    + destruct Hr as (_ & Hdlg & _ & _ & [[_ Hread]|[Hcsv _]]); [|discriminate Hcsv].
      injection Hread as <-. exists σ'.
      split; [exact Hrun|]. split; [exact Hld|]. split; [exact Hobj | exact Hdlg].
Defined.


Lemma process_data_thread_batch_failure_witness :
  ∃ σ',
    _process_data_thread Examples.interrupted_environment MoreExamples.loaded_session =
      (Raise (Exn KeyboardInterrupt EmptyString), σ') ∧
    files σ' = [] ∧ results σ' = None ∧ dialogs σ' = [].
Proof.
  destruct (process_data_thread_batch_failure Examples.interrupted_environment
              MoreExamples.loaded_session 1%positive Examples.denoised_table
              (Exn KeyboardInterrupt EmptyString))
    as (r & σ' & Hrun & Hfiles & Hres & _ & Hr);
    [reflexivity | reflexivity | by_compute | by_compute | by_compute | reflexivity |].
  destruct Hr as [-> Hdlg].
  exists σ'. split; [exact Hrun|]. split; [exact Hfiles|]. split; [exact Hres | exact Hdlg].
Defined.


Lemma validate_smiles_result_valid_witness :
  let lib := Examples.environment Examples.reader true in
  let σ := Examples.session "library.msp" "msp" "out.csv" (Some (DataFrameRef 1%positive))
             {[1%positive := Examples.numbered_table]} in
  let σ' := (validate_smiles lib 1%positive σ).2 in
  ∃ g σ'',
    objects σ' !! 2%positive = Some g ∧
    select g "smiles" = Series (frame_index g) [PStr "C"; PStr "CCO"; PStr "CC"] ∧
    validate_smiles lib 2%positive σ' = (Ok (Some 2%positive), σ'') ∧
    dialogs σ'' = dialogs σ'.
Proof.
  intros lib σ σ'.
  destruct (validate_smiles_result_valid lib σ 1%positive Examples.numbered_table
              [0; 1; 2; 3] [PStr "C"; PNaN; PStr "CCO"; PStr "CC"] 2%positive σ')
    as (g & σ'' & Hout & Hsel & _ & _ & Hrun & _ & Hdlg);
    [reflexivity | by_compute | reflexivity | by_compute | | vm_compute; reflexivity |].
  - unfold rectangular. repeat constructor.
  - exists g, σ''. split; [exact Hout|]. split; [exact Hsel|].
    split; [exact Hrun | exact Hdlg].
Defined.

Lemma hex_to_RGB_format_round_trip_witness :
  Colors.hex_to_RGB (chars "#ffa001") = Ok [255; 160; 1].
Proof.
  destruct (hex_to_RGB_format_round_trip "#"%char 255 160 1) as [H _]; [lia..|exact H].
Defined.

Lemma hex_to_RGB_reads_six_characters_witness :
  Colors.hex_to_RGB (chars "#fff") =
    Raise (Exn ValueError "invalid literal for int() with base 16: ''") ∧
  Colors.hex_to_RGB (chars "#FFA001 and more") = Colors.hex_to_RGB (chars "?FFA001") ∧
  Colors.hex_to_RGB (chars "#+f-f0a") = Ok [15; -15; 10].
Proof.
  destruct hex_to_RGB_reads_six_characters as (Hsix & Hshort & Hrange).
  split; [|split].
  - destruct (Hshort (chars "#fff")) as (i & Hi & Hrun & _);
      [repeat constructor | simpl; lia |].
    repeat (apply elem_of_cons in Hi as [->|Hi]);
      [| |exact Hrun|by apply elem_of_nil in Hi];
      vm_compute in Hrun; discriminate Hrun.
  - apply (Hsix "#"%char "?"%char (chars "FFA001 and more"));
      [repeat constructor | simpl; lia].
  - destruct (Hrange (chars "#+f-f0a") [15; -15; 10]) as (r & g & b & Heq & _);
      [repeat constructor | reflexivity |].
    reflexivity.
Defined.

Lemma get_color_gradient_colours_witness :
  ∃ colours,
    Colors.get_color_gradient MoreExamples.blend (chars "#000000") (chars "#ff8000") 3
      = Ok colours ∧
    length colours = 3%nat ∧
    Colors.get_color_gradient MoreExamples.blend (chars "#000000") (chars "#ff8000") 1
      = Raise (Exn (OtherException "AssertionError") EmptyString).
Proof.
  destruct (get_color_gradient_colours MoreExamples.blend
              (chars "#000000") (chars "#ff8000") 3) as [_ H].
  destruct (H [0; 0; 0] [255; 128; 0]) as (colours & Hrun & Hlen & _);
    [lia | reflexivity | reflexivity |].
  exists colours. split; [exact Hrun|]. split; [exact Hlen|].
  destruct (get_color_gradient_colours MoreExamples.blend
              (chars "#000000") (chars "#ff8000") 1) as [Hassert _].
  apply Hassert. lia.
Defined.

Lemma ms2_plot_window_peaks_witness :
  let window :=
    Spectrum.ms2_plot_window (λ s _, s) MoreExamples.ethanol_spectrum None
      (Some (27 # 1)%Q) (Some (45 # 1)%Q) in
  zip window.1 window.2 =
    [(27 # 1, 22 # 1); (29 # 1, 30 # 1); (31 # 1, 100 # 1); (45 # 1, 51 # 1)]%Q.
Proof.
  intros window.
  destruct (ms2_plot_window_peaks (λ s _, s) MoreExamples.ethanol_spectrum None
              (Some (27 # 1)%Q) (Some (45 # 1)%Q)) as [H _].
  - simpl. repeat constructor; by vm_compute.
  - exact H.
Defined.
